(** * The search page of the donation exchange (src/pages/Search.tsx)

    A shallow embedding of the [Search] component: its React state cells,
    the handlers that update them, the debounced search and the suggestion
    fetcher with their in-flight remote calls, and the part of the rendered
    output that decides which controls exist (pagination, chips, check
    boxes).  The component runs on one event loop, so the whole page is a
    deterministic transition system: one [Event] (a user action, one
    millisecond of time, or the settlement of a remote call) takes a [World]
    to the next one.

    Conventions.
    - JavaScript numbers that hold row counts and page numbers are integers
      far below 2^53, where [number] arithmetic is exact; they are [Z] here.
      The one division, [Math.ceil(totalResults / ITEMS_PER_PAGE)], is
      computed over the rationals.
    - Strings are [string], the bytes of the UTF-8 text; the [length] of a
      JavaScript string counts UTF-16 code units, which [lengthUtf16] reads
      off the bytes.
    - [lodash/debounce] with the default options invokes the function once,
      [wait] milliseconds after the last call; time advances by [Tick]s of
      one millisecond.
    - [useSearchParams] memoises [searchParams] on the query string of the
      location, so the value is compared as the value of its [q] entry. *)

From Stdlib Require Import ZArith Lia.
From Stdlib Require QArith Qround.
From Stdlib Require Import Ascii.
From stdpp Require Import base decidable option strings list gmap.

Local Open Scope string_scope.
Local Open Scope Z_scope.

(** ** Data model *)

Record Lister := {
  full_name : string;
  avatar_url : string;
}.

Record SearchResult := {
  id : string;
  title : string;
  description : string;
  photos : list string;
  category : string;
  condition : string;
  tags : list string;
  created_at : string;
  location : string;
  user : Lister;
}.

Inductive ViewMode := grid | listMode.
Inductive SortOption := newest | oldest | relevance.

Definition ITEMS_PER_PAGE : Z := 12.

Definition categories : list string :=
  ["Furniture"; "Electronics"; "Clothing"; "Books"; "Kitchen";
   "Sports"; "Toys"; "Tools"; "Other"].

Record ConditionOption := { value : string; label : string }.

Definition conditions : list ConditionOption :=
  [ {| value := "LIKE_NEW"; label := "Like New" |};
    {| value := "GOOD"; label := "Good" |};
    {| value := "WORN"; label := "Worn" |};
    {| value := "BROKEN"; label := "Broken" |} ].

(** The state cells of the component: one field per [useState], and the [q]
    entry of [searchParams] ([None] when the address has no [q]). *)
Record State := {
  searchParams : option string;
  results : list SearchResult;
  loading : bool;
  viewMode : ViewMode;
  showFilters : bool;
  suggestions : list string;
  totalResults : Z;
  page : Z;
  selectedCategories : list string;
  selectedConditions : list string;
  sortBy : SortOption;
  priceRange : Z * Z;
}.

(** [searchParams.get('q') || ''] *)
Definition queryOf (st : State) : string := default EmptyString (searchParams st).

(** ** Remote calls *)

Definition Error := string.

(** The request built by the query builder in [debouncedSearch]. *)
Record SearchRequest := {
  sr_from : string;
  sr_select : string;
  sr_count : string;
  sr_textSearch : string * string;
  sr_order : string * bool;
  sr_range : Z * Z;
}.

(** The request built in [loadSuggestions]. *)
Record SuggestRequest := {
  sg_from : string;
  sg_select : string;
  sg_textSearch : string * string;
  sg_limit : Z;
}.

(** What the client resolves to: [{ data, error, count }]. *)
Record SearchReply := {
  data : option (list SearchResult);
  error : option Error;
  count : option Z;
}.

Record SuggestReply := {
  titles : option (list string);
  sg_error : option Error;
}.

(** An awaited promise either fulfils with a reply or rejects. *)
Inductive Settled (A : Type) :=
| Fulfilled (reply : A)
| Rejected (reason : Error).
Arguments Fulfilled {A} reply.
Arguments Rejected {A} reason.

(** ** The debounced function *)

(** The function memoised by [useCallback(debounce(..., 300), [page])]: the
    page its closure captured, a generation number standing for its identity,
    and the armed timer if any (last arguments, milliseconds left). *)
Record Debounced := {
  dpage : Z;
  dgen : nat;
  pending : option (string * nat);
}.

(** A timer of a debounced function that [useCallback] has since replaced:
    nothing cancels it, it fires with the page it captured. *)
Record Timer := {
  tpage : Z;
  targs : string;
  tleft : nat;
}.

Definition wait : nat := 300.

(** ** The page as a whole *)

Record World := {
  view : State;
  debouncedSearch : Debounced;
  effectDeps : option (option string * Z * nat);
  superseded : list Timer;
  searchCalls : gmap nat SearchRequest;
  suggestCalls : gmap nat SuggestRequest;
  nextCall : nat;
  console : list string;
  unhandled : list Error;
}.

Definition withView (f : State → State) (w : World) : World :=
  {| view := f (view w); debouncedSearch := debouncedSearch w;
     effectDeps := effectDeps w; superseded := superseded w;
     searchCalls := searchCalls w; suggestCalls := suggestCalls w;
     nextCall := nextCall w; console := console w; unhandled := unhandled w |}.

Definition withDebounced (d : Debounced) (w : World) : World :=
  {| view := view w; debouncedSearch := d;
     effectDeps := effectDeps w; superseded := superseded w;
     searchCalls := searchCalls w; suggestCalls := suggestCalls w;
     nextCall := nextCall w; console := console w; unhandled := unhandled w |}.

Definition withEffectDeps (d : option (option string * Z * nat)) (w : World) : World :=
  {| view := view w; debouncedSearch := debouncedSearch w;
     effectDeps := d; superseded := superseded w;
     searchCalls := searchCalls w; suggestCalls := suggestCalls w;
     nextCall := nextCall w; console := console w; unhandled := unhandled w |}.

Definition withSuperseded (ts : list Timer) (w : World) : World :=
  {| view := view w; debouncedSearch := debouncedSearch w;
     effectDeps := effectDeps w; superseded := ts;
     searchCalls := searchCalls w; suggestCalls := suggestCalls w;
     nextCall := nextCall w; console := console w; unhandled := unhandled w |}.

Definition withSearchCalls (m : gmap nat SearchRequest) (n : nat) (w : World) : World :=
  {| view := view w; debouncedSearch := debouncedSearch w;
     effectDeps := effectDeps w; superseded := superseded w;
     searchCalls := m; suggestCalls := suggestCalls w;
     nextCall := n; console := console w; unhandled := unhandled w |}.

Definition withSuggestCalls (m : gmap nat SuggestRequest) (n : nat) (w : World) : World :=
  {| view := view w; debouncedSearch := debouncedSearch w;
     effectDeps := effectDeps w; superseded := superseded w;
     searchCalls := searchCalls w; suggestCalls := m;
     nextCall := n; console := console w; unhandled := unhandled w |}.

Definition withConsole (l : list string) (w : World) : World :=
  {| view := view w; debouncedSearch := debouncedSearch w;
     effectDeps := effectDeps w; superseded := superseded w;
     searchCalls := searchCalls w; suggestCalls := suggestCalls w;
     nextCall := nextCall w; console := l; unhandled := unhandled w |}.

Definition withUnhandled (l : list Error) (w : World) : World :=
  {| view := view w; debouncedSearch := debouncedSearch w;
     effectDeps := effectDeps w; superseded := superseded w;
     searchCalls := searchCalls w; suggestCalls := suggestCalls w;
     nextCall := nextCall w; console := console w; unhandled := l |}.

(** ** Handlers run in a state-and-exception monad

    A handler reads and writes the [World] and either returns or throws, as
    the TypeScript does. *)

Inductive Outcome (A : Type) :=
| Returned (a : A)
| Thrown (e : Error).
Arguments Returned {A} a.
Arguments Thrown {A} e.

Definition M (A : Type) : Type := World → Outcome A * World.

Definition ret {A} (a : A) : M A := λ w, (Returned a, w).

Definition bind {A B} (m : M A) (k : A → M B) : M B :=
  λ w, match m w with
       | (Returned a, w') => k a w'
       | (Thrown e, w') => (Thrown e, w')
       end.

Definition throw {A} (e : Error) : M A := λ w, (Thrown e, w).

(** [try { body } catch (e) { handler e }] *)
Definition tryCatch (body : M unit) (handler : Error → M unit) : M unit :=
  λ w, match body w with
       | (Returned a, w') => (Returned a, w')
       | (Thrown e, w') => handler e w'
       end.

(** [try { body } finally { cleanup }]: the cleanup runs on both exits and
    the outcome of the body is kept (the cleanups here never throw). *)
Definition tryFinally (body : M unit) (cleanup : M unit) : M unit :=
  λ w, match body w with
       | (o, w') =>
           match cleanup w' with
           | (Returned _, w'') => (o, w'')
           | (Thrown e, w'') => (Thrown e, w'')
           end
       end.

Definition modify (f : World → World) : M unit := λ w, (Returned tt, f w).

Declare Scope handler_scope.
Delimit Scope handler_scope with handler.
Notation "m1 ;; m2" := (bind m1 (λ _, m2))
  (at level 100, m2 at level 200, right associativity) : handler_scope.
Notation "x <- m1 ;; m2" := (bind m1 (λ x, m2))
  (at level 100, m1 at next level, m2 at level 200, right associativity) : handler_scope.
Local Open Scope handler_scope.

(** The state setters returned by [useState] and [useSearchParams]. *)

Definition setSearchParams (q : string) : M unit :=
  modify (withView (λ st,
    {| searchParams := Some q; results := results st; loading := loading st;
       viewMode := viewMode st; showFilters := showFilters st;
       suggestions := suggestions st; totalResults := totalResults st;
       page := page st; selectedCategories := selectedCategories st;
       selectedConditions := selectedConditions st; sortBy := sortBy st;
       priceRange := priceRange st |})).

Definition setResults (r : list SearchResult) : M unit :=
  modify (withView (λ st,
    {| searchParams := searchParams st; results := r; loading := loading st;
       viewMode := viewMode st; showFilters := showFilters st;
       suggestions := suggestions st; totalResults := totalResults st;
       page := page st; selectedCategories := selectedCategories st;
       selectedConditions := selectedConditions st; sortBy := sortBy st;
       priceRange := priceRange st |})).

Definition setLoading (b : bool) : M unit :=
  modify (withView (λ st,
    {| searchParams := searchParams st; results := results st; loading := b;
       viewMode := viewMode st; showFilters := showFilters st;
       suggestions := suggestions st; totalResults := totalResults st;
       page := page st; selectedCategories := selectedCategories st;
       selectedConditions := selectedConditions st; sortBy := sortBy st;
       priceRange := priceRange st |})).

Definition setViewMode (m : ViewMode) : M unit :=
  modify (withView (λ st,
    {| searchParams := searchParams st; results := results st; loading := loading st;
       viewMode := m; showFilters := showFilters st;
       suggestions := suggestions st; totalResults := totalResults st;
       page := page st; selectedCategories := selectedCategories st;
       selectedConditions := selectedConditions st; sortBy := sortBy st;
       priceRange := priceRange st |})).

Definition setShowFilters (b : bool) : M unit :=
  modify (withView (λ st,
    {| searchParams := searchParams st; results := results st; loading := loading st;
       viewMode := viewMode st; showFilters := b;
       suggestions := suggestions st; totalResults := totalResults st;
       page := page st; selectedCategories := selectedCategories st;
       selectedConditions := selectedConditions st; sortBy := sortBy st;
       priceRange := priceRange st |})).

Definition setSuggestions (l : list string) : M unit :=
  modify (withView (λ st,
    {| searchParams := searchParams st; results := results st; loading := loading st;
       viewMode := viewMode st; showFilters := showFilters st;
       suggestions := l; totalResults := totalResults st;
       page := page st; selectedCategories := selectedCategories st;
       selectedConditions := selectedConditions st; sortBy := sortBy st;
       priceRange := priceRange st |})).

Definition setTotalResults (n : Z) : M unit :=
  modify (withView (λ st,
    {| searchParams := searchParams st; results := results st; loading := loading st;
       viewMode := viewMode st; showFilters := showFilters st;
       suggestions := suggestions st; totalResults := n;
       page := page st; selectedCategories := selectedCategories st;
       selectedConditions := selectedConditions st; sortBy := sortBy st;
       priceRange := priceRange st |})).

Definition setPage (n : Z) : M unit :=
  modify (withView (λ st,
    {| searchParams := searchParams st; results := results st; loading := loading st;
       viewMode := viewMode st; showFilters := showFilters st;
       suggestions := suggestions st; totalResults := totalResults st;
       page := n; selectedCategories := selectedCategories st;
       selectedConditions := selectedConditions st; sortBy := sortBy st;
       priceRange := priceRange st |})).

Definition setSelectedCategories (l : list string) : M unit :=
  modify (withView (λ st,
    {| searchParams := searchParams st; results := results st; loading := loading st;
       viewMode := viewMode st; showFilters := showFilters st;
       suggestions := suggestions st; totalResults := totalResults st;
       page := page st; selectedCategories := l;
       selectedConditions := selectedConditions st; sortBy := sortBy st;
       priceRange := priceRange st |})).

Definition setSelectedConditions (l : list string) : M unit :=
  modify (withView (λ st,
    {| searchParams := searchParams st; results := results st; loading := loading st;
       viewMode := viewMode st; showFilters := showFilters st;
       suggestions := suggestions st; totalResults := totalResults st;
       page := page st; selectedCategories := selectedCategories st;
       selectedConditions := l; sortBy := sortBy st;
       priceRange := priceRange st |})).

Definition setSortBy (s : SortOption) : M unit :=
  modify (withView (λ st,
    {| searchParams := searchParams st; results := results st; loading := loading st;
       viewMode := viewMode st; showFilters := showFilters st;
       suggestions := suggestions st; totalResults := totalResults st;
       page := page st; selectedCategories := selectedCategories st;
       selectedConditions := selectedConditions st; sortBy := s;
       priceRange := priceRange st |})).

Definition setPriceRange (r : Z * Z) : M unit :=
  modify (withView (λ st,
    {| searchParams := searchParams st; results := results st; loading := loading st;
       viewMode := viewMode st; showFilters := showFilters st;
       suggestions := suggestions st; totalResults := totalResults st;
       page := page st; selectedCategories := selectedCategories st;
       selectedConditions := selectedConditions st; sortBy := sortBy st;
       priceRange := r |})).

(** [console.error(message, error)] *)
Definition consoleError (message : string) (e : Error) : M unit :=
  modify (λ w, withConsole (console w ++ [message ++ " " ++ e]) w).

(** ** The debounced search (Search.tsx, lines 77-107) *)

Definition searchRequest (page : Z) (query : string) : SearchRequest :=
  {| sr_from := "announcements";
     sr_select := "*, user:user_id ( full_name, avatar_url )";
     sr_count := "exact";
     sr_textSearch := ("title", query);
     sr_order := ("created_at", false);
     sr_range := ((page - 1) * ITEMS_PER_PAGE, page * ITEMS_PER_PAGE - 1) |}.

(** Sending a request: it is in flight under a fresh call number until the
    event loop delivers its settlement. *)
Definition dispatchSearch (r : SearchRequest) : M unit :=
  modify (λ w, withSearchCalls (<[nextCall w := r]> (searchCalls w)) (S (nextCall w)) w).

Definition await {A} (r : Settled A) : M A :=
  match r with
  | Fulfilled reply => ret reply
  | Rejected reason => throw reason
  end.

(** The async function runs in two parts, split at its [await].  First part:
    the guard on the empty query, [setLoading(true)] and the request, with
    the [page] of the closure. *)
Definition searchBegin (page : Z) (query : string) : M unit :=
  if decide (query = EmptyString) then ret tt
  else (setLoading true ;; dispatchSearch (searchRequest page query)).

(** Second part: what follows the [await], inside [try/catch/finally]. *)
Definition searchResume (r : Settled SearchReply) : M unit :=
  tryFinally
    (tryCatch
       (reply <- await r ;;
        match error reply with
        | Some e => throw e
        | None =>
            setResults (default [] (data reply)) ;;
            setTotalResults (default 0 (count reply))
        end)
       (λ e, consoleError "Error searching:" e))
    (setLoading false).

(** ** The suggestion fetcher (lines 110-129) *)

Definition suggestRequest (query : string) : SuggestRequest :=
  {| sg_from := "announcements";
     sg_select := "title";
     sg_textSearch := ("title", query);
     sg_limit := 5 |}.

Definition dispatchSuggest (r : SuggestRequest) : M unit :=
  modify (λ w, withSuggestCalls (<[nextCall w := r]> (suggestCalls w)) (S (nextCall w)) w).

(** [s.length]: the number of UTF-16 code units of the text.  Every code
    point is one unit, except those outside the basic plane, which are a
    surrogate pair.  In UTF-8 a code point starts with a byte that is not a
    continuation byte (10xxxxxx), and those outside the basic plane are the
    four-byte sequences, which start with 11110xxx. *)
Definition utf16Units (byte : Ascii.ascii) : nat :=
  let n := Ascii.nat_of_ascii byte in
  if (n <? 128)%nat then 1%nat
  else if (n <? 192)%nat then 0%nat
  else if (n <? 240)%nat then 1%nat
  else 2%nat.

Fixpoint lengthUtf16 (s : string) : nat :=
  match s with
  | EmptyString => 0%nat
  | String byte s' => (utf16Units byte + lengthUtf16 s')%nat
  end.

Definition loadSuggestionsBegin (query : string) : M unit :=
  if bool_decide (query = EmptyString) || (lengthUtf16 query <? 2)%nat
  then setSuggestions []
  else dispatchSuggest (suggestRequest query).

Definition loadSuggestionsResume (r : Settled SuggestReply) : M unit :=
  tryCatch
    (reply <- await r ;;
     match sg_error reply with
     | Some e => throw e
     | None => setSuggestions (default [] (titles reply))
     end)
    (λ e, consoleError "Error loading suggestions:" e).

(** ** Handlers (lines 136-144 and the inline ones of the JSX)

    A handler that reads a state cell reads the value of the render it was
    created in; that snapshot is the argument [st]. *)

Definition handleSearch (query : string) : M unit :=
  setSearchParams query ;; setPage 1.

Definition handleFilterChange : M unit := setPage 1.

Definition onInputChange (v : string) : M unit :=
  handleSearch v ;; loadSuggestionsBegin v.

Definition onSuggestionClick (suggestion : string) : M unit :=
  handleSearch suggestion ;; setSuggestions [].

Definition without (c : string) (l : list string) : list string :=
  filter (λ x, x ≠ c) l.

Definition onCategoryChange (st : State) (c : string) (checked : bool) : M unit :=
  setSelectedCategories
    (if checked then selectedCategories st ++ [c] else without c (selectedCategories st)) ;;
  handleFilterChange.

Definition onConditionChange (st : State) (c : string) (checked : bool) : M unit :=
  setSelectedConditions
    (if checked then selectedConditions st ++ [c] else without c (selectedConditions st)) ;;
  handleFilterChange.

Definition onCategoryChipClick (st : State) (c : string) : M unit :=
  setSelectedCategories (without c (selectedCategories st)) ;; handleFilterChange.

Definition onConditionChipClick (st : State) (c : string) : M unit :=
  setSelectedConditions (without c (selectedConditions st)) ;; handleFilterChange.

Definition onPreviousClick (st : State) : M unit := setPage (page st - 1).
Definition onNextClick (st : State) : M unit := setPage (page st + 1).

(** ** What is rendered *)

(** [Math.ceil(totalResults / ITEMS_PER_PAGE)] *)
Definition pageCount (total : Z) : Z :=
  Qround.Qceiling
    (QArith_base.Qdiv (QArith_base.inject_Z total) (QArith_base.inject_Z ITEMS_PER_PAGE)).

Record Pagination := {
  previousDisabled : bool;
  pageLabel : Z * Z;
  nextDisabled : bool;
}.

Inductive ResultsPane :=
| Spinner
| Cards (items : list SearchResult) (pagination : option Pagination)
| NoResultsFound.

Definition renderPagination (st : State) : option Pagination :=
  if bool_decide (totalResults st > ITEMS_PER_PAGE) then
    Some {| previousDisabled := bool_decide (page st = 1);
            pageLabel := (page st, pageCount (totalResults st));
            nextDisabled := bool_decide (page st >= pageCount (totalResults st)) |}
  else None.

Definition renderResults (st : State) : ResultsPane :=
  if loading st then Spinner
  else if bool_decide (0 < length (results st))%nat
       then Cards (results st) (renderPagination st)
       else NoResultsFound.

(** The controlled checkboxes: [checked={selected.includes(value)}]. *)
Definition categoryChecked (st : State) (c : string) : bool :=
  bool_decide (c ∈ selectedCategories st).

Definition conditionChecked (st : State) (c : string) : bool :=
  bool_decide (c ∈ selectedConditions st).

(** Which pagination button can be clicked in the current render. *)
Definition previousEnabled (st : State) : bool :=
  match renderResults st with
  | Cards _ (Some p) => negb (previousDisabled p)
  | _ => false
  end.

Definition nextEnabled (st : State) : bool :=
  match renderResults st with
  | Cards _ (Some p) => negb (nextDisabled p)
  | _ => false
  end.

(** ** Hooks: what a render does besides producing the output *)

(** [useCallback(debounce(...), [page])]: when [page] differs from the page
    the memoised function was made for, a new debounced function replaces
    it.  The old one is not cancelled: if its timer is armed it stays armed. *)
Definition useCallbackStep (w : World) : World :=
  let d := debouncedSearch w in
  if decide (dpage d = page (view w)) then w
  else
    withDebounced {| dpage := page (view w); dgen := S (dgen d); pending := None |}
      (withSuperseded
         (superseded w ++
          match pending d with
          | Some (a, n) => [ {| tpage := dpage d; targs := a; tleft := n |} ]
          | None => []
          end) w).

(** Calling the debounced function: (re)arms its timer with the arguments. *)
Definition callDebounced (query : string) (w : World) : World :=
  let d := debouncedSearch w in
  withDebounced {| dpage := dpage d; dgen := dgen d; pending := Some (query, wait) |} w.

(** [useEffect(() => debouncedSearch(query), [searchParams, page, debouncedSearch])] *)
Definition useEffectStep (w : World) : World :=
  let deps := (searchParams (view w), page (view w), dgen (debouncedSearch w)) in
  if decide (effectDeps w = Some deps) then w
  else callDebounced (queryOf (view w)) (withEffectDeps (Some deps) w).

Definition render (w : World) : World := useEffectStep (useCallbackStep w).

(** ** Running handlers *)

(** An event handler or an async function that throws leaves an error nobody
    handles; it is recorded. *)
Definition runHandler (m : M unit) (w : World) : World :=
  match m w with
  | (Returned _, w') => w'
  | (Thrown e, w') => withUnhandled (unhandled w' ++ [e]) w'
  end.

(** The timer of a debounced function fires: the function is invoked with
    the page of its closure and the last arguments. *)
Definition invoke (page : Z) (query : string) (w : World) : World :=
  runHandler (searchBegin page query) w.

Fixpoint fireSuperseded (ts : list Timer) (w : World) : list Timer * World :=
  match ts with
  | [] => ([], w)
  | t :: ts' =>
      if decide (tleft t ≤ 1)%nat
      then fireSuperseded ts' (invoke (tpage t) (targs t) w)
      else
        let '(keep, w') := fireSuperseded ts' w in
        ({| tpage := tpage t; targs := targs t; tleft := pred (tleft t) |} :: keep, w')
  end.

(** One millisecond passes. *)
Definition tick (w : World) : World :=
  let '(keep, w1) := fireSuperseded (superseded w) w in
  let w2 := withSuperseded keep w1 in
  let d := debouncedSearch w2 in
  match pending d with
  | None => w2
  | Some (a, n) =>
      if decide (n ≤ 1)%nat
      then invoke (dpage d) a
             (withDebounced {| dpage := dpage d; dgen := dgen d; pending := None |} w2)
      else withDebounced {| dpage := dpage d; dgen := dgen d; pending := Some (a, pred n) |} w2
  end.

(** A remote call settles: its async function resumes after the [await]. *)
Definition searchSettled (call : nat) (r : Settled SearchReply) (w : World) : World :=
  match searchCalls w !! call with
  | None => w
  | Some _ =>
      runHandler (searchResume r)
        (withSearchCalls (delete call (searchCalls w)) (nextCall w) w)
  end.

Definition suggestSettled (call : nat) (r : Settled SuggestReply) (w : World) : World :=
  match suggestCalls w !! call with
  | None => w
  | Some _ =>
      runHandler (loadSuggestionsResume r)
        (withSuggestCalls (delete call (suggestCalls w)) (nextCall w) w)
  end.

(** ** Events *)

Inductive Event :=
| InputChange (v : string)
| SuggestionClick (index : nat)
| FiltersButtonClick
| ViewModeClick (m : ViewMode)
| SortChange (s : SortOption)
| CategoryCheckboxClick (c : string)
| ConditionCheckboxClick (c : string)
| PriceMinChange (n : Z)
| PriceMaxChange (n : Z)
| CategoryChipClick (c : string)
| ConditionChipClick (c : string)
| PreviousClick
| NextClick
| Tick
| SearchSettled (call : nat) (r : Settled SearchReply)
| SuggestSettled (call : nat) (r : Settled SuggestReply).

(** A click on a controlled checkbox reports the opposite of what is shown. *)
Definition clickCategory (c : string) (w : World) : World :=
  runHandler (onCategoryChange (view w) c (negb (categoryChecked (view w) c))) w.

Definition clickCondition (c : string) (w : World) : World :=
  runHandler (onConditionChange (view w) c (negb (conditionChecked (view w) c))) w.

(** The handler an event runs.  A control that the current render does not
    contain (or shows disabled) cannot be operated. *)
Definition handle (e : Event) (w : World) : World :=
  let st := view w in
  match e with
  | InputChange v => runHandler (onInputChange v) w
  | SuggestionClick i =>
      match suggestions st !! i with
      | Some s => runHandler (onSuggestionClick s) w
      | None => w
      end
  | FiltersButtonClick => runHandler (setShowFilters (negb (showFilters st))) w
  | ViewModeClick m => runHandler (setViewMode m) w
  | SortChange s => runHandler (setSortBy s) w
  | CategoryCheckboxClick c =>
      if showFilters st && bool_decide (c ∈ categories) then clickCategory c w else w
  | ConditionCheckboxClick c =>
      if showFilters st && bool_decide (c ∈ value <$> conditions) then clickCondition c w else w
  | PriceMinChange n =>
      if showFilters st then runHandler (setPriceRange (n, snd (priceRange st))) w else w
  | PriceMaxChange n =>
      if showFilters st then runHandler (setPriceRange (fst (priceRange st), n)) w else w
  | CategoryChipClick c =>
      if showFilters st && bool_decide (c ∈ selectedCategories st)
      then runHandler (onCategoryChipClick st c) w else w
  | ConditionChipClick c =>
      if showFilters st && bool_decide (c ∈ selectedConditions st)
      then runHandler (onConditionChipClick st c) w else w
  | PreviousClick => if previousEnabled st then runHandler (onPreviousClick st) w else w
  | NextClick => if nextEnabled st then runHandler (onNextClick st) w else w
  | Tick => tick w
  | SearchSettled call r => searchSettled call r w
  | SuggestSettled call r => suggestSettled call r w
  end.

(** Every event is followed by a render of the new state. *)
Definition step (e : Event) (w : World) : World := render (handle e w).

Definition run (es : list Event) (w : World) : World :=
  foldl (λ w e, step e w) w es.

(** [n] milliseconds during which nothing else happens. *)
Definition elapse (n : nat) (w : World) : World := run (replicate n Tick) w.

(** ** Mounting the page *)

Definition initialState (q : option string) : State :=
  {| searchParams := q; results := []; loading := false; viewMode := grid;
     showFilters := false; suggestions := []; totalResults := 0; page := 1;
     selectedCategories := []; selectedConditions := []; sortBy := newest;
     priceRange := (0, 1000) |}.

Definition mount (q : option string) : World :=
  render
    {| view := initialState q;
       debouncedSearch := {| dpage := 1; dgen := 0; pending := None |};
       effectDeps := None; superseded := [];
       searchCalls := ∅; suggestCalls := ∅; nextCall := 0;
       console := []; unhandled := [] |}.

(** ** Notions used in the statements *)

(** A world as a render leaves it: the memoised function is the one of the
    current page and the effect has run for the current dependencies. *)
Definition rendered (w : World) : Prop :=
  dpage (debouncedSearch w) = page (view w) ∧
  effectDeps w = Some (searchParams (view w), page (view w), dgen (debouncedSearch w)).

(** The displayed result page: the rows and the total. *)
Definition resultPage (w : World) : list SearchResult * Z :=
  (results (view w), totalResults (view w)).

(** What a successful reply puts on display. *)
Definition pageOf (reply : SearchReply) : list SearchResult * Z :=
  (default [] (data reply), default 0 (count reply)).

(** A search call fails when its promise rejects or its reply carries an
    error. *)
Definition failing (r : Settled SearchReply) : Prop :=
  match r with
  | Rejected _ => True
  | Fulfilled reply => is_Some (error reply)
  end.

(** [k] is the ceiling of [total / ITEMS_PER_PAGE]. *)
Definition isCeiling (total k : Z) : Prop :=
  ITEMS_PER_PAGE * (k - 1) < total ≤ ITEMS_PER_PAGE * k.

(** One click on a checkbox as a function on the selected list. *)
Definition toggled (c : string) (l : list string) : list string :=
  if negb (bool_decide (c ∈ l)) then (l ++ [c])%list else without c l.

(** A reply with rows and no error. *)
Definition titlesReply (rows : list string) : Settled SuggestReply :=
  Fulfilled {| titles := Some rows; sg_error := None |}.

(** The part of the world that decides which search requests get sent and
    when: the query and page of the state, the debounced functions with
    their timers, and the calls in flight. *)
Definition engine (w : World) :=
  (searchParams (view w), page (view w), debouncedSearch w, effectDeps w,
   superseded w, searchCalls w, nextCall w).

(** Clicks on the chips of the active filters; a chip exists only for a
    selected value. *)
Definition operatesChip (e : Event) : bool :=
  match e with
  | CategoryChipClick _ | ConditionChipClick _ => true
  | _ => false
  end.

(** The state of a world with other filters. *)
Definition withFilters (cats conds : list string) (price : Z * Z) (sort : SortOption)
    (w : World) : World :=
  withView (λ st,
    {| searchParams := searchParams st; results := results st; loading := loading st;
       viewMode := viewMode st; showFilters := showFilters st;
       suggestions := suggestions st; totalResults := totalResults st;
       page := page st; selectedCategories := cats;
       selectedConditions := conds; sortBy := sort;
       priceRange := price |}) w.

(** ** Scenarios used as concrete inputs *)

Definition sampleItem (n : string) : SearchResult :=
  {| id := n; title := n; description := "A " ++ n; photos := [];
     category := "Furniture"; condition := "GOOD"; tags := ["home"];
     created_at := "2025-02-06"; location := "Paris";
     user := {| full_name := "Dana"; avatar_url := EmptyString |} |}.

Definition okReply (rows : list SearchResult) (total : Z) : Settled SearchReply :=
  Fulfilled {| data := Some rows; error := None; count := Some total |}.

(** The page opened on [?q=lamp], after the debounce window: the first
    search (call 0, page 1) is in flight. *)
Definition lampSearching : World := elapse 300 (mount (Some "lamp")).

(** Its reply arrives: 30 matching rows in all. *)
Definition lampLoaded : World :=
  step (SearchSettled 0 (okReply [sampleItem "lamp 1"] 30)) lampSearching.

(** Next is clicked twice, 100 ms apart, and 300 ms pass: the searches for
    page 2 (call 1) and page 3 (call 2) are both in flight, page 3 is the
    current page. *)
Definition lampRacing : World :=
  elapse 300 (step NextClick (elapse 100 (step NextClick lampLoaded))).

Definition page2Reply : Settled SearchReply := okReply [sampleItem "lamp 13"] 30.
Definition page3Reply : Settled SearchReply := okReply [sampleItem "lamp 25"] 30.

(** A search request as [debouncedSearch] builds them, for a page from 1 on. *)
Definition wellFormedRequest (r : SearchRequest) : Prop :=
  ∃ p q, 1 ≤ p ∧ r = searchRequest p q.

(** Pages, captured pages and requests in flight all come from a page
    number of at least 1. *)
Definition pagesFromOne (w : World) : Prop :=
  1 ≤ page (view w) ∧
  1 ≤ dpage (debouncedSearch w) ∧
  Forall (λ t, 1 ≤ tpage t) (superseded w) ∧
  map_Forall (λ _ r, wellFormedRequest r) (searchCalls w).

(** The selected filters hold no value twice and only values that have a
    checkbox. *)
Definition filtersTidy (st : State) : Prop :=
  NoDup (selectedCategories st) ∧ selectedCategories st ⊆ categories ∧
  NoDup (selectedConditions st) ∧ selectedConditions st ⊆ (value <$> conditions).

(** A suggestion call fails when its promise rejects or its reply carries
    an error. *)
Definition suggestFailing (r : Settled SuggestReply) : Prop :=
  match r with
  | Rejected _ => True
  | Fulfilled reply => is_Some (sg_error reply)
  end.

(** The events that change a filter, the sort mode or the price range. *)
Definition changesFilter (e : Event) : bool :=
  match e with
  | CategoryCheckboxClick _ | ConditionCheckboxClick _
  | CategoryChipClick _ | ConditionChipClick _
  | SortChange _ | PriceMinChange _ | PriceMaxChange _ => true
  | _ => false
  end.

(** * The other pages

    The remaining pages are forms and loaders: a handful of state cells, and
    async functions that await several remote calls in a row.  Such a
    function is embedded as a function of the answers the remote calls give
    (in the order it awaits them); the calls it issues, the navigations and
    the console lines are recorded in the state.  The state setters of these
    functions do not read the state, so what they leave behind does not
    depend on what else happens while a call is in flight. *)

Module Page.

(** What a [catch] clause receives: an [Error] object with its message, or
    any other value ([error instanceof Error] tells them apart). *)
Inductive Exn :=
| ErrorObject (message : string)
| PlainValue (shown : string).

(** [error instanceof Error ? error.message : fallback] *)
Definition messageOr (fallback : string) (e : Exn) : string :=
  match e with
  | ErrorObject message => message
  | PlainValue _ => fallback
  end.

Inductive Outcome (A : Type) :=
| Returned (a : A)
| Thrown (e : Exn).
Arguments Returned {A} a.
Arguments Thrown {A} e.

Inductive Settled (A : Type) :=
| Fulfilled (reply : A)
| Rejected (reason : Exn).
Arguments Fulfilled {A} reply.
Arguments Rejected {A} reason.

Section Handlers.
Context {S : Type}.

Definition M (A : Type) : Type := S → Outcome A * S.

Definition ret {A} (a : A) : M A := λ s, (Returned a, s).

Definition bind {A B} (m : M A) (k : A → M B) : M B :=
  λ s, match m s with
       | (Returned a, s') => k a s'
       | (Thrown e, s') => (Thrown e, s')
       end.

Definition throw {A} (e : Exn) : M A := λ s, (Thrown e, s).

Definition tryCatch (body : M unit) (handler : Exn → M unit) : M unit :=
  λ s, match body s with
       | (Returned a, s') => (Returned a, s')
       | (Thrown e, s') => handler e s'
       end.

Definition tryFinally (body : M unit) (cleanup : M unit) : M unit :=
  λ s, match body s with
       | (o, s') =>
           match cleanup s' with
           | (Returned _, s'') => (o, s'')
           | (Thrown e, s'') => (Thrown e, s'')
           end
       end.

Definition modify (f : S → S) : M unit := λ s, (Returned tt, f s).

Definition await {A} (r : Settled A) : M A :=
  match r with
  | Fulfilled reply => ret reply
  | Rejected reason => throw reason
  end.

(** The state a handler leaves, whether it returned or threw. *)
Definition exec (m : M unit) (s : S) : S := snd (m s).

(** Whether it threw. *)
Definition threw (m : M unit) (s : S) : bool :=
  match fst (m s) with
  | Returned _ => false
  | Thrown _ => true
  end.

End Handlers.

(** [s.split(sep)] for a separator of one character. *)
Fixpoint split (sep : Ascii.ascii) (s : string) : list string :=
  match s with
  | EmptyString => [EmptyString]
  | String c s' =>
      if decide (c = sep) then EmptyString :: split sep s'
      else match split sep s' with
           | [] => [String c EmptyString]
           | h :: t => String c h :: t
           end
  end.

(** Whether the character occurs in the string. *)
Fixpoint hasChar (c : Ascii.ascii) (s : string) : bool :=
  match s with
  | EmptyString => false
  | String c' s' => bool_decide (c' = c) || hasChar c s'
  end.

(** [parts.join(sep)] *)
Fixpoint join (sep : Ascii.ascii) (parts : list string) : string :=
  match parts with
  | [] => EmptyString
  | [p] => p
  | p :: rest => p ++ String sep (join sep rest)
  end.

(** [Promise.all]: the values in the order of the promises when all fulfil;
    otherwise the reason of the promise that rejected first.  Each promise
    comes with the moment it settles. *)
Fixpoint firstRejection {A} (l : list (nat * Outcome A)) : option (nat * Exn) :=
  match l with
  | [] => None
  | (_, Returned _) :: l' => firstRejection l'
  | (t, Thrown e) :: l' =>
      match firstRejection l' with
      | Some (t', e') => if (t' <? t)%nat then Some (t', e') else Some (t, e)
      | None => Some (t, e)
      end
  end.

Fixpoint values {A} (l : list (nat * Outcome A)) : list A :=
  match l with
  | [] => []
  | (_, Returned a) :: l' => a :: values l'
  | (_, Thrown _) :: l' => values l'
  end.

Definition promiseAll {A} (l : list (nat * Outcome A)) : Outcome (list A) :=
  match firstRejection l with
  | Some (_, e) => Thrown e
  | None => Returned (values l)
  end.

End Page.

Declare Scope page_scope.
Delimit Scope page_scope with page.
Notation "m1 ;; m2" := (Page.bind m1 (λ _, m2))
  (at level 100, m2 at level 200, right associativity) : page_scope.
Notation "x <- m1 ;; m2" := (Page.bind m1 (λ x, m2))
  (at level 100, m1 at next level, m2 at level 200, right associativity) : page_scope.


(** ** The item-creation page (the [CreateItem] component) *)

Module CreateItem.
Import Page.
Local Open Scope page_scope.

(** The fields of a [File] the page reads. *)
Record File := {
  file_name : string;
  file_type : string;
  file_size : Z;
}.

Inductive AdType := DONATION | REQUEST.
Inductive Availability := AVAILABLE | PENDING | CLAIMED.
Inductive Condition := LIKE_NEW | GOOD | WORN | BROKEN.

Definition adTypeText (t : AdType) : string :=
  match t with DONATION => "DONATION" | REQUEST => "REQUEST" end.

Definition availabilityText (a : Availability) : string :=
  match a with AVAILABLE => "AVAILABLE" | PENDING => "PENDING" | CLAIMED => "CLAIMED" end.

Definition conditionText (c : Condition) : string :=
  match c with
  | LIKE_NEW => "LIKE_NEW" | GOOD => "GOOD" | WORN => "WORN" | BROKEN => "BROKEN"
  end.

Record CreateItemForm := {
  type : AdType;
  category : string;
  title : string;
  description : string;
  availability : Availability;
  condition : Condition;
  photos : list File;
  location : string;
}.

Record User := { user_id : string }.

(** The row passed to [insert]. *)
Record AnnouncementRow := {
  row_user_id : string;
  row_type : string;
  row_category : string;
  row_title : string;
  row_description : string;
  row_status : string;
  row_condition : string;
  row_photos : list string;
}.

Inductive Request :=
| GetUser
| Upload (bucket : string) (path : string) (file : File)
| Insert (table : string) (row : AnnouncementRow).

Record State := {
  loading : bool;
  error : option string;
  photoPreview : list (option string);
  formData : CreateItemForm;
  requests : list Request;
  navigations : list string;
  console : list string;
}.

Definition initialForm : CreateItemForm :=
  {| type := DONATION; category := EmptyString; title := EmptyString;
     description := EmptyString; availability := AVAILABLE; condition := GOOD;
     photos := []; location := "13 Place du Trocadéro, Paris" |}.

Definition initialState : State :=
  {| loading := false; error := None; photoPreview := []; formData := initialForm;
     requests := []; navigations := []; console := [] |}.

Definition setLoading (b : bool) : M (S := State) unit :=
  modify (λ s, {| loading := b; error := error s; photoPreview := photoPreview s;
                  formData := formData s; requests := requests s;
                  navigations := navigations s; console := console s |}).

Definition setError (e : option string) : M (S := State) unit :=
  modify (λ s, {| loading := loading s; error := e; photoPreview := photoPreview s;
                  formData := formData s; requests := requests s;
                  navigations := navigations s; console := console s |}).

(** [setPhotoPreview(prev => f(prev))] *)
Definition setPhotoPreview (f : list (option string) → list (option string)) :
    M (S := State) unit :=
  modify (λ s, {| loading := loading s; error := error s;
                  photoPreview := f (photoPreview s);
                  formData := formData s; requests := requests s;
                  navigations := navigations s; console := console s |}).

(** [setFormData(prev => f(prev))]; [setFormData(value)] is the constant [f]. *)
Definition setFormData (f : CreateItemForm → CreateItemForm) : M (S := State) unit :=
  modify (λ s, {| loading := loading s; error := error s; photoPreview := photoPreview s;
                  formData := f (formData s); requests := requests s;
                  navigations := navigations s; console := console s |}).

Definition request (r : Request) : M (S := State) unit :=
  modify (λ s, {| loading := loading s; error := error s; photoPreview := photoPreview s;
                  formData := formData s; requests := (requests s ++ [r])%list;
                  navigations := navigations s; console := console s |}).

Definition navigate (to : string) : M (S := State) unit :=
  modify (λ s, {| loading := loading s; error := error s; photoPreview := photoPreview s;
                  formData := formData s; requests := requests s;
                  navigations := (navigations s ++ [to])%list; console := console s |}).

Definition consoleError (line : string) : M (S := State) unit :=
  modify (λ s, {| loading := loading s; error := error s; photoPreview := photoPreview s;
                  formData := formData s; requests := requests s;
                  navigations := navigations s; console := (console s ++ [line])%list |}).

Definition withPhotos (l : list File) (f : CreateItemForm) : CreateItemForm :=
  {| type := type f; category := category f; title := title f;
     description := description f; availability := availability f;
     condition := condition f; photos := l; location := location f |}.

(** [file.type.startsWith('image/') && file.size <= 5 * 1024 * 1024] *)
Definition validFile (file : File) : bool :=
  String.prefix "image/" (file_type file) && (file_size file <=? 5 * 1024 * 1024).

(** [handlePhotoChange]; [files] is [e.target.files], [None] for [null], and
    [form] the form of the render the handler belongs to. *)
Definition handlePhotoChange (form : CreateItemForm) (target_files : option (list File)) :
    M (S := State) unit :=
  let files := default [] target_files in
  if (5 <? length files + length (photos form))%nat
  then setError (Some "Maximum 5 photos allowed")
  else
    let validFiles := filter (λ file, validFile file = true) files in
    (if bool_decide (length validFiles ≠ length files)
     then setError
            (Some "Some files were skipped. Please ensure all files are images under 5MB.")
     else ret tt) ;;
    setFormData (λ prev, withPhotos (take 5 (photos prev ++ validFiles)) prev).

(** The [onloadend] of one of the readers [handlePhotoChange] starts;
    [result] is [reader.result], [None] when the read failed. *)
Definition onloadend (result : option string) : M (S := State) unit :=
  setPhotoPreview (λ prev, take 5 (prev ++ [result])).

(** [l.filter((_, i) => i !== index)] *)
Definition filterIndex {A} (index : nat) (l : list A) : list A :=
  snd <$> filter (λ p, fst p ≠ index) (imap pair l).

Definition removePhoto (index : nat) : M (S := State) unit :=
  setFormData (λ prev, withPhotos (filterIndex index (photos prev)) prev) ;;
  setPhotoPreview (filterIndex index).

(** [photo.name.split('.').pop()] *)
Definition fileExt (name : string) : string :=
  default EmptyString (last (split "."%char name)).

(** What the remote side answers to one submit: the user of the session, for
    the photo at each position the random stem of its file name and when and
    how its upload settles, and the reply to the insert. *)
Record UploadReply := { uploadError : option Exn }.
Record InsertReply := { insertError : option Exn }.

Record Answers := {
  getUserAnswer : Settled (option User);
  randomStem : nat → string;
  uploadAnswer : nat → nat * Settled UploadReply;
  insertAnswer : Settled InsertReply;
}.

Section Submit.
(** [supabase.storage.from(bucket).getPublicUrl(path).data.publicUrl], a
    function of the client library. *)
Variable publicUrl : string → string → string.

Definition filePath (user : User) (ans : Answers) (i : nat) (photo : File) : string :=
  user_id user ++ "/" ++ (randomStem ans i ++ "." ++ fileExt (file_name photo)).

(** One of the async functions mapped over the photos, after its [await]. *)
Definition uploadOutcome (user : User) (ans : Answers) (i : nat) (photo : File) :
    nat * Outcome string :=
  (fst (uploadAnswer ans i),
   match snd (uploadAnswer ans i) with
   | Rejected reason => Thrown reason
   | Fulfilled reply =>
       match uploadError reply with
       | Some e => Thrown e
       | None => Returned (publicUrl "item-photos" (filePath user ans i photo))
       end
   end).

Definition announcementRow (form : CreateItemForm) (user : User) (photoUrls : list string) :
    AnnouncementRow :=
  {| row_user_id := user_id user;
     row_type := adTypeText (type form);
     row_category := category form;
     row_title := title form;
     row_description := description form;
     row_status := availabilityText (availability form);
     row_condition := conditionText (condition form);
     row_photos := photoUrls |}.

(** The upload calls of one submit, one per photo, in the order of the
    photos. *)
Definition uploadRequests (user : User) (ans : Answers) (l : list File) : list Request :=
  imap (λ i photo, Upload "item-photos" (filePath user ans i photo) photo) l.

(** The upload of the photo at position [i] fulfils without an error. *)
Definition uploadOk (ans : Answers) (i : nat) : bool :=
  match snd (uploadAnswer ans i) with
  | Fulfilled reply => bool_decide (uploadError reply = None)
  | Rejected _ => false
  end.

Fixpoint requestAll (rs : list Request) : M (S := State) unit :=
  match rs with
  | [] => ret tt
  | r :: rs' => request r ;; requestAll rs'
  end.

Definition handleSubmit (form : CreateItemForm) (ans : Answers) : M (S := State) unit :=
  setLoading true ;;
  setError None ;;
  tryFinally
    (tryCatch
       (request GetUser ;;
        u <- await (getUserAnswer ans) ;;
        match u with
        | None => throw (ErrorObject "Please sign in to create a listing")
        | Some user =>
            requestAll (uploadRequests user ans (photos form)) ;;
            photoUrls <- (λ s, (promiseAll (imap (uploadOutcome user ans) (photos form)), s)) ;;
            request (Insert "announcements" (announcementRow form user photoUrls)) ;;
            reply <- await (insertAnswer ans) ;;
            match insertError reply with
            | Some e => throw e
            | None => navigate "/dashboard"
            end
        end)
       (λ e,
          consoleError "Error creating item:" ;;
          setError (Some (messageOr "Failed to create listing" e))))
    (setLoading false).

(** The five photo slots: slot [index] shows the preview and its remove
    button when [photoPreview[index]] is truthy, and a file input otherwise. *)
Definition slotFilled (s : State) (index : nat) : bool :=
  match photoPreview s !! index with
  | Some (Some url) => negb (bool_decide (url = EmptyString))
  | _ => false
  end.

(** The events of the page.  A submit carries the answers of the remote side
    and is taken to run to its end before the next event. *)
Inductive Event :=
| TypeChange (t : AdType)
| CategoryChange (c : string)
| TitleChange (t : string)
| DescriptionChange (d : string)
| ConditionChange (c : Condition)
| PhotoChange (target_files : option (list File))
| ReaderEnded (result : option string)
| RemovePhotoClick (index : nat)
| Submit (ans : Answers).

Definition step (e : Event) (s : State) : State :=
  let form := formData s in
  match e with
  | TypeChange t =>
      exec (setFormData (λ _,
        {| type := t; category := category form; title := title form;
           description := description form; availability := availability form;
           condition := condition form; photos := photos form;
           location := location form |})) s
  | CategoryChange c =>
      exec (setFormData (λ _,
        {| type := type form; category := c; title := title form;
           description := description form; availability := availability form;
           condition := condition form; photos := photos form;
           location := location form |})) s
  | TitleChange t =>
      exec (setFormData (λ _,
        {| type := type form; category := category form; title := t;
           description := description form; availability := availability form;
           condition := condition form; photos := photos form;
           location := location form |})) s
  | DescriptionChange d =>
      exec (setFormData (λ _,
        {| type := type form; category := category form; title := title form;
           description := d; availability := availability form;
           condition := condition form; photos := photos form;
           location := location form |})) s
  | ConditionChange c =>
      exec (setFormData (λ _,
        {| type := type form; category := category form; title := title form;
           description := description form; availability := availability form;
           condition := c; photos := photos form;
           location := location form |})) s
  | PhotoChange target_files =>
      if existsb (λ index, negb (slotFilled s index)) (seq 0 5)
      then exec (handlePhotoChange form target_files) s else s
  | ReaderEnded result => exec (onloadend result) s
  | RemovePhotoClick index =>
      if slotFilled s index then exec (removePhoto index) s else s
  | Submit ans => exec (handleSubmit form ans) s
  end.

Definition run (es : list Event) (s : State) : State := foldl (λ s e, step e s) s es.

End Submit.

(** At most five photos and five previews, every photo an image of at most
    5 MB. *)
Definition photosTidy (s : State) : Prop :=
  (length (photos (formData s)) ≤ 5)%nat ∧
  (length (photoPreview s) ≤ 5)%nat ∧
  Forall (λ file, validFile file = true) (photos (formData s)).

(** The availability is the initial one, and so is the status of every row
    handed to [insert]. *)
Definition statusUntouched (s : State) : Prop :=
  availability (formData s) = AVAILABLE ∧
  ∀ table row, Insert table row ∈ requests s → row_status row = "AVAILABLE".

End CreateItem.

(** The check on [announcements.status] in the migration:
    [CHECK (status IN ('PENDING', 'CLAIMED', 'COMPLETED'))]. *)
Definition statusCheck (status : string) : bool :=
  bool_decide (status ∈ ["PENDING"; "CLAIMED"; "COMPLETED"]).


(** ** The registration page (src/pages/Register.tsx) *)

Module Register.
Import Page.
Local Open Scope page_scope.

Record User := { user_id : string }.

Inductive Role := DONOR | BENEFICIARY.

Definition roleText (r : Role) : string :=
  match r with DONOR => "DONOR" | BENEFICIARY => "BENEFICIARY" end.

(** The row passed to [insert] on [profiles]. *)
Record ProfileRow := {
  id : string;
  username : string;
  full_name : string;
  role : string;
  biography : string;
  city : string;
  visibility : bool;
  avatar_url : string;
}.

Inductive Request :=
| SignUp (email password full_name role : string)
| InsertProfile (row : ProfileRow)
| DeleteUser (id : string).

(** The state cells of the form, the [user] of the store, and what the page
    did. *)
Record State := {
  email : string;
  password : string;
  fullName : string;
  formRole : Role;
  loading : bool;
  error : option string;
  storeUser : option User;
  requests : list Request;
  navigations : list string;
}.

Definition setLoading (b : bool) : M (S := State) unit :=
  modify (λ s, {| email := email s; password := password s; fullName := fullName s;
                  formRole := formRole s; loading := b; error := error s;
                  storeUser := storeUser s; requests := requests s;
                  navigations := navigations s |}).

Definition setError (e : option string) : M (S := State) unit :=
  modify (λ s, {| email := email s; password := password s; fullName := fullName s;
                  formRole := formRole s; loading := loading s; error := e;
                  storeUser := storeUser s; requests := requests s;
                  navigations := navigations s |}).

Definition setUser (u : option User) : M (S := State) unit :=
  modify (λ s, {| email := email s; password := password s; fullName := fullName s;
                  formRole := formRole s; loading := loading s; error := error s;
                  storeUser := u; requests := requests s;
                  navigations := navigations s |}).

Definition request (r : Request) : M (S := State) unit :=
  modify (λ s, {| email := email s; password := password s; fullName := fullName s;
                  formRole := formRole s; loading := loading s; error := error s;
                  storeUser := storeUser s; requests := (requests s ++ [r])%list;
                  navigations := navigations s |}).

Definition navigate (to : string) : M (S := State) unit :=
  modify (λ s, {| email := email s; password := password s; fullName := fullName s;
                  formRole := formRole s; loading := loading s; error := error s;
                  storeUser := storeUser s; requests := requests s;
                  navigations := (navigations s ++ [to])%list |}).

Record SignUpReply := { user : option User; authError : option Exn }.
Record InsertReply := { profileError : option Exn }.

Record Answers := {
  signUpAnswer : Settled SignUpReply;
  insertAnswer : Settled InsertReply;
  deleteAnswer : Settled unit;
}.

(** [email.split('@')[0]] *)
Definition usernameOf (email : string) : string :=
  default EmptyString (head (split "@"%char email)).

Section HandleRegister.
(** [encodeURIComponent], of the platform. *)
Variable encodeURIComponent : string → string.

Definition profileRow (form : State) (u : User) : ProfileRow :=
  {| id := user_id u;
     username := usernameOf (email form);
     full_name := fullName form;
     role := roleText (formRole form);
     biography := EmptyString;
     city := EmptyString;
     visibility := true;
     avatar_url :=
       "https://ui-avatars.com/api/?name=" ++
       (encodeURIComponent (fullName form) ++ "&background=random") |}.

(** [handleRegister]; [form] is the state of the render the handler belongs
    to. *)
Definition handleRegister (form : State) (ans : Answers) : M (S := State) unit :=
  setLoading true ;;
  setError None ;;
  tryFinally
    (tryCatch
       (request (SignUp (email form) (password form) (fullName form)
                   (roleText (formRole form))) ;;
        authData <- await (signUpAnswer ans) ;;
        match authError authData with
        | Some e => throw e
        | None =>
            match user authData with
            | None => throw (ErrorObject "No user data returned")
            | Some u =>
                request (InsertProfile (profileRow form u)) ;;
                reply <- await (insertAnswer ans) ;;
                match profileError reply with
                | Some e =>
                    request (DeleteUser (user_id u)) ;;
                    _ <- await (deleteAnswer ans) ;;
                    throw e
                | None => setUser (Some u) ;; navigate "/dashboard"
                end
            end
        end)
       (λ e, setError (Some (messageOr "An error occurred during registration" e))))
    (setLoading false).

End HandleRegister.

End Register.


(** ** The dashboard (src/pages/Dashboard.tsx) *)

Module Dashboard.
Import Page.
Local Open Scope page_scope.

Record UserMetadata := {
  meta_full_name : option string;
  meta_role : option string;
}.

Record User := {
  user_id : string;
  user_metadata : UserMetadata;
}.

Record Profile := { role : string }.

Record DashboardItem := {
  id : string;
  title : string;
  status : string;
  created_at : string;
}.

(** A row of [wishlists], selected with its embedded announcement. *)
Record WishlistRow := { announcements : DashboardItem }.

Record ProfileRow := {
  row_id : string;
  row_username : string;
  row_full_name : string;
  row_role : string;
  row_biography : string;
  row_city : string;
  row_visibility : bool;
  row_avatar_url : string;
}.

Inductive Request :=
| GetUser
| SelectProfileRole (id : string)
| InsertProfile (row : ProfileRow)
| SelectAnnouncements (user_id : string)
| SelectWishlists (user_id : string)
| SelectActivityLogs (limit : Z).

Record State := {
  items : list DashboardItem;
  profile : option Profile;
  loading : bool;
  error : option string;
  requests : list Request;
  navigations : list string;
  console : list string;
}.

Definition initialState : State :=
  {| items := []; profile := None; loading := true; error := None;
     requests := []; navigations := []; console := [] |}.

Definition setItems (l : list DashboardItem) : M (S := State) unit :=
  modify (λ s, {| items := l; profile := profile s; loading := loading s;
                  error := error s; requests := requests s;
                  navigations := navigations s; console := console s |}).

Definition setProfile (p : option Profile) : M (S := State) unit :=
  modify (λ s, {| items := items s; profile := p; loading := loading s;
                  error := error s; requests := requests s;
                  navigations := navigations s; console := console s |}).

Definition setLoading (b : bool) : M (S := State) unit :=
  modify (λ s, {| items := items s; profile := profile s; loading := b;
                  error := error s; requests := requests s;
                  navigations := navigations s; console := console s |}).

Definition setError (e : option string) : M (S := State) unit :=
  modify (λ s, {| items := items s; profile := profile s; loading := loading s;
                  error := e; requests := requests s;
                  navigations := navigations s; console := console s |}).

Definition request (r : Request) : M (S := State) unit :=
  modify (λ s, {| items := items s; profile := profile s; loading := loading s;
                  error := error s; requests := (requests s ++ [r])%list;
                  navigations := navigations s; console := console s |}).

Definition navigate (to : string) : M (S := State) unit :=
  modify (λ s, {| items := items s; profile := profile s; loading := loading s;
                  error := error s; requests := requests s;
                  navigations := (navigations s ++ [to])%list; console := console s |}).

Definition consoleError (line : string) : M (S := State) unit :=
  modify (λ s, {| items := items s; profile := profile s; loading := loading s;
                  error := error s; requests := requests s;
                  navigations := navigations s; console := (console s ++ [line])%list |}).

Record ProfileReply := { profileData : option Profile; profileError : option Exn }.
Record CreateReply := { newProfile : option Profile; createError : option Exn }.
Record ItemsReply := { itemsData : option (list DashboardItem); itemsError : option Exn }.
Record WishlistReply := { wishlistData : option (list WishlistRow); wishlistError : option Exn }.

Record Answers := {
  getUserAnswer : Settled (option User);
  profileAnswer : Settled ProfileReply;
  createAnswer : Settled CreateReply;
  announcementsAnswer : Settled ItemsReply;
  wishlistAnswer : Settled WishlistReply;
  logsAnswer : Settled ItemsReply;
}.

(** [x || fallback] for a string that may be missing: the empty string is
    falsy. *)
Definition orElse (fallback : string) (x : option string) : string :=
  match x with
  | Some s => if bool_decide (s = EmptyString) then fallback else s
  | None => fallback
  end.

(** The identifier [email] is free in [loadDashboardData]: the file declares
    no such variable.  Reading an undeclared identifier throws a
    [ReferenceError]; were it declared elsewhere, it would hold a string or
    [undefined]. *)
Inductive Ambient :=
| Undeclared
| Declared (value : option string).

Section LoadDashboardData.
Variable encodeURIComponent : string → string.
Variable email : Ambient.
(** The message of the [ReferenceError], which depends on the engine. *)
Variable referenceErrorMessage : string.

(** [email?.split('@')[0] || ''] *)
Definition usernameExpr : M (S := State) string :=
  match email with
  | Undeclared => throw (ErrorObject referenceErrorMessage)
  | Declared None => ret EmptyString
  | Declared (Some e) => ret (orElse EmptyString (head (split "@"%char e)))
  end.

Definition loadDashboardData (ans : Answers) : M (S := State) unit :=
  tryFinally
    (tryCatch
       (request GetUser ;;
        u <- await (getUserAnswer ans) ;;
        match u with
        | None => navigate "/login"
        | Some user =>
            let metadata := user_metadata user in
            request (SelectProfileRole (user_id user)) ;;
            reply <- await (profileAnswer ans) ;;
            match profileError reply with
            | Some e => throw e
            | None =>
                (match profileData reply with
                 | None =>
                     username <- usernameExpr ;;
                     request
                       (InsertProfile
                          {| row_id := user_id user;
                             row_username := username;
                             row_full_name := orElse EmptyString (meta_full_name metadata);
                             row_role := orElse "DONOR" (meta_role metadata);
                             row_biography := EmptyString;
                             row_city := EmptyString;
                             row_visibility := true;
                             row_avatar_url :=
                               "https://ui-avatars.com/api/?name=" ++
                               (encodeURIComponent
                                  (orElse EmptyString (meta_full_name metadata)) ++
                                "&background=random") |}) ;;
                     created <- await (createAnswer ans) ;;
                     match createError created with
                     | Some e => throw e
                     | None => setProfile (newProfile created)
                     end
                 | Some p => setProfile (Some p)
                 end) ;;
                let profileRole := role <$> profileData reply in
                let metadataRole :=
                  match profileData reply with
                  | None => meta_role metadata
                  | Some _ => None
                  end in
                if bool_decide (profileRole = Some "DONOR") ||
                   bool_decide (metadataRole = Some "DONOR")
                then
                  request (SelectAnnouncements (user_id user)) ;;
                  r <- await (announcementsAnswer ans) ;;
                  match itemsError r with
                  | Some e => throw e
                  | None => setItems (default [] (itemsData r))
                  end
                else if bool_decide (profileRole = Some "BENEFICIARY") ||
                        bool_decide (metadataRole = Some "BENEFICIARY")
                then
                  request (SelectWishlists (user_id user)) ;;
                  r <- await (wishlistAnswer ans) ;;
                  match wishlistError r with
                  | Some e => throw e
                  | None => setItems (default [] (fmap (M := list) announcements <$> wishlistData r))
                  end
                else if bool_decide (profileRole = Some "MANAGER")
                then
                  request (SelectActivityLogs 50) ;;
                  r <- await (logsAnswer ans) ;;
                  match itemsError r with
                  | Some e => throw e
                  | None => setItems (default [] (itemsData r))
                  end
                else ret tt
            end
        end)
       (λ e,
          consoleError "Error loading dashboard:" ;;
          setError (Some (messageOr "Failed to load dashboard data" e))))
    (setLoading false).

End LoadDashboardData.

(** The one query for the list, by role. *)
Definition listRequest (role : string) (user_id : string) : list Request :=
  if bool_decide (role = "DONOR") then [SelectAnnouncements user_id]
  else if bool_decide (role = "BENEFICIARY") then [SelectWishlists user_id]
  else if bool_decide (role = "MANAGER") then [SelectActivityLogs 50]
  else [].

End Dashboard.


(** ** The profile page (the [Profile] component) *)

Module Profile.
Import Page.
Local Open Scope page_scope.

Record User := { user_id : string }.

Record Profile := {
  username : string;
  full_name : string;
  avatar_url : string;
  biography : string;
  tagline : string;
  role : string;
  city : string;
  visibility : bool;
}.

(** [Partial<Profile>]: the keys an update carries. *)
Record Updates := {
  new_username : option string;
  new_full_name : option string;
  new_avatar_url : option string;
  new_biography : option string;
  new_tagline : option string;
  new_role : option string;
  new_city : option string;
  new_visibility : option bool;
}.

Definition noUpdates : Updates :=
  {| new_username := None; new_full_name := None; new_avatar_url := None;
     new_biography := None; new_tagline := None; new_role := None;
     new_city := None; new_visibility := None |}.

(** [{ ...prev, ...updates }] *)
Definition spread (prev : Profile) (updates : Updates) : Profile :=
  {| username := default (username prev) (new_username updates);
     full_name := default (full_name prev) (new_full_name updates);
     avatar_url := default (avatar_url prev) (new_avatar_url updates);
     biography := default (biography prev) (new_biography updates);
     tagline := default (tagline prev) (new_tagline updates);
     role := default (role prev) (new_role updates);
     city := default (city prev) (new_city updates);
     visibility := default (visibility prev) (new_visibility updates) |}.

Inductive Request :=
| UpdateProfile (updates : Updates) (id : option string).

Record State := {
  user : option User;
  profile : option Profile;
  loading : bool;
  editing : bool;
  bioLength : nat;
  requests : list Request;
  console : list string;
}.

Definition setProfile (f : option Profile → option Profile) : M (S := State) unit :=
  modify (λ s, {| user := user s; profile := f (profile s); loading := loading s;
                  editing := editing s; bioLength := bioLength s;
                  requests := requests s; console := console s |}).

Definition setEditing (b : bool) : M (S := State) unit :=
  modify (λ s, {| user := user s; profile := profile s; loading := loading s;
                  editing := b; bioLength := bioLength s;
                  requests := requests s; console := console s |}).

Definition setBioLength (n : nat) : M (S := State) unit :=
  modify (λ s, {| user := user s; profile := profile s; loading := loading s;
                  editing := editing s; bioLength := n;
                  requests := requests s; console := console s |}).

Definition request (r : Request) : M (S := State) unit :=
  modify (λ s, {| user := user s; profile := profile s; loading := loading s;
                  editing := editing s; bioLength := bioLength s;
                  requests := (requests s ++ [r])%list; console := console s |}).

Definition consoleError (line : string) : M (S := State) unit :=
  modify (λ s, {| user := user s; profile := profile s; loading := loading s;
                  editing := editing s; bioLength := bioLength s;
                  requests := requests s; console := (console s ++ [line])%list |}).

Record UpdateReply := { updateError : option Exn }.

(** [updateProfile]; [snapshot] is the state of the render the function
    belongs to (it reads [user?.id]). *)
Definition updateProfile (snapshot : State) (updates : Updates)
    (answer : Settled UpdateReply) : M (S := State) unit :=
  tryCatch
    (request (UpdateProfile updates (user_id <$> user snapshot)) ;;
     reply <- await answer ;;
     match updateError reply with
     | Some e => throw e
     | None => setProfile (λ prev, (λ p, spread p updates) <$> prev)
     end)
    (λ e, consoleError "Error updating profile:").

(** [!profile?.visibility] *)
Definition flippedVisibility (s : State) : bool :=
  negb (default false (visibility <$> profile s)).

(** The events of the page, the Generate button apart (it draws one of the
    example biographies at random).  An event that starts an update carries
    the reply to it; the reply is taken to settle before the next event. *)
Inductive Event :=
| EditClick
| SaveClick
| FullNameChange (v : string) (answer : Settled UpdateReply)
| BiographyChange (v : string) (answer : Settled UpdateReply)
| CityChange (v : string) (answer : Settled UpdateReply)
| VisibilityClick (answer : Settled UpdateReply).

Definition step (e : Event) (s : State) : State :=
  if loading s then s else
  match e with
  | EditClick => if editing s then s else exec (setEditing true) s
  | SaveClick => if editing s then exec (setEditing false) s else s
  | FullNameChange v answer =>
      if editing s
      then exec (updateProfile s
                   {| new_username := None; new_full_name := Some v; new_avatar_url := None;
                      new_biography := None; new_tagline := None; new_role := None;
                      new_city := None; new_visibility := None |} answer) s
      else s
  | BiographyChange v answer =>
      if editing s
      then exec (updateProfile s
                   {| new_username := None; new_full_name := None; new_avatar_url := None;
                      new_biography := Some v; new_tagline := None; new_role := None;
                      new_city := None; new_visibility := None |} answer ;;
                 setBioLength (lengthUtf16 v)) s
      else s
  | CityChange v answer =>
      if editing s
      then exec (updateProfile s
                   {| new_username := None; new_full_name := None; new_avatar_url := None;
                      new_biography := None; new_tagline := None; new_role := None;
                      new_city := Some v; new_visibility := None |} answer) s
      else s
  | VisibilityClick answer =>
      exec (updateProfile s
              {| new_username := None; new_full_name := None; new_avatar_url := None;
                 new_biography := None; new_tagline := None; new_role := None;
                 new_city := None; new_visibility := Some (flippedVisibility s) |} answer) s
  end.

(** An update call that fails. *)
Definition updateFails (answer : Settled UpdateReply) : bool :=
  match answer with
  | Fulfilled reply => bool_decide (is_Some (updateError reply))
  | Rejected _ => true
  end.

End Profile.

(** ** The navigation bar (src/components/Layout.tsx) *)

Module Layout.
Import Page.
Local Open Scope page_scope.

Record User := { user_id : string }.

Inductive Request := SignOut.

Record State := {
  isLanguageOpen : bool;
  user : option User;
  requests : list Request;
  navigations : list string;
  console : list string;
}.

Definition setUser (u : option User) : M (S := State) unit :=
  modify (λ s, {| isLanguageOpen := isLanguageOpen s; user := u;
                  requests := requests s; navigations := navigations s;
                  console := console s |}).

Definition request (r : Request) : M (S := State) unit :=
  modify (λ s, {| isLanguageOpen := isLanguageOpen s; user := user s;
                  requests := (requests s ++ [r])%list; navigations := navigations s;
                  console := console s |}).

Definition navigate (to : string) : M (S := State) unit :=
  modify (λ s, {| isLanguageOpen := isLanguageOpen s; user := user s;
                  requests := requests s; navigations := (navigations s ++ [to])%list;
                  console := console s |}).

Definition consoleError (line : string) : M (S := State) unit :=
  modify (λ s, {| isLanguageOpen := isLanguageOpen s; user := user s;
                  requests := requests s; navigations := navigations s;
                  console := (console s ++ [line])%list |}).

(** What [signOut] resolves to; the handler does not look at it. *)
Record SignOutReply := { signOutError : option Exn }.

(** [handleSignOut]; [confirmed] is the answer to [window.confirm]. *)
Definition handleSignOut (confirmed : bool) (answer : Settled SignOutReply) :
    M (S := State) unit :=
  if confirmed
  then
    tryCatch
      (request SignOut ;;
       _ <- await answer ;;
       setUser None ;;
       navigate "/")
      (λ e, consoleError "Error signing out:")
  else ret tt.

End Layout.


(** ** Further scenarios *)

(** The filter panel is open and one category is selected, on page 1. *)
Definition lampFiltered : World :=
  step (CategoryCheckboxClick "Books") (step FiltersButtonClick lampLoaded).

(** Next was clicked 100 ms ago: the search of page 2 is scheduled. *)
Definition lampSecondPage : World := elapse 100 (step NextClick lampLoaded).

(** On page 2, with the filter panel open. *)
Definition lampSecondPageFilters : World :=
  step FiltersButtonClick (elapse 300 (step NextClick lampLoaded)).

(** Two letters were typed: a suggestion call is in flight. *)
Definition lampTyping : World := step (InputChange "bo") lampLoaded.

Definition samplePhoto : CreateItem.File :=
  {| CreateItem.file_name := "table.jpg"; CreateItem.file_type := "image/jpeg";
     CreateItem.file_size := 204800 |}.

Definition sampleDocument : CreateItem.File :=
  {| CreateItem.file_name := "notes.pdf"; CreateItem.file_type := "application/pdf";
     CreateItem.file_size := 1000 |}.

Definition samplePublicUrl (bucket path : string) : string :=
  "https://cdn.example/" ++ (bucket ++ ("/" ++ path)).

Definition goodAnswers : CreateItem.Answers :=
  {| CreateItem.getUserAnswer := Page.Fulfilled (Some {| CreateItem.user_id := "u1" |});
     CreateItem.randomStem := λ _, "k3x9";
     CreateItem.uploadAnswer := λ i, (i, Page.Fulfilled {| CreateItem.uploadError := None |});
     CreateItem.insertAnswer := Page.Fulfilled {| CreateItem.insertError := None |} |}.

Definition failingUploadAnswers : CreateItem.Answers :=
  {| CreateItem.getUserAnswer := Page.Fulfilled (Some {| CreateItem.user_id := "u1" |});
     CreateItem.randomStem := λ _, "k3x9";
     CreateItem.uploadAnswer := λ i, (i, Page.Rejected (Page.ErrorObject "Payload too large"));
     CreateItem.insertAnswer := Page.Fulfilled {| CreateItem.insertError := None |} |}.

(** The form after one valid photo was chosen. *)
Definition onePhoto : CreateItem.State :=
  CreateItem.step samplePublicUrl (CreateItem.PhotoChange (Some [samplePhoto]))
    CreateItem.initialState.

Definition registerForm : Register.State :=
  {| Register.email := "dana@example.org"; Register.password := "secret";
     Register.fullName := "Dana"; Register.formRole := Register.DONOR;
     Register.loading := false; Register.error := None; Register.storeUser := None;
     Register.requests := []; Register.navigations := [] |}.

Definition rejectedProfile : Register.Answers :=
  {| Register.signUpAnswer :=
       Page.Fulfilled {| Register.user := Some {| Register.user_id := "u1" |};
                         Register.authError := None |};
     Register.insertAnswer :=
       Page.Fulfilled {| Register.profileError := Some (Page.PlainValue "row-level security") |};
     Register.deleteAnswer := Page.Fulfilled tt |}.

Definition dashboardUser : Dashboard.User :=
  {| Dashboard.user_id := "u1";
     Dashboard.user_metadata :=
       {| Dashboard.meta_full_name := Some "Dana"; Dashboard.meta_role := Some "DONOR" |} |}.

Definition noItems : Page.Settled Dashboard.ItemsReply :=
  Page.Fulfilled {| Dashboard.itemsData := Some []; Dashboard.itemsError := None |}.

Definition dashboardAnswers (u : option Dashboard.User) (p : option Dashboard.Profile) :
    Dashboard.Answers :=
  {| Dashboard.getUserAnswer := Page.Fulfilled u;
     Dashboard.profileAnswer :=
       Page.Fulfilled {| Dashboard.profileData := p; Dashboard.profileError := None |};
     Dashboard.createAnswer :=
       Page.Fulfilled {| Dashboard.newProfile := None; Dashboard.createError := None |};
     Dashboard.announcementsAnswer := noItems;
     Dashboard.wishlistAnswer :=
       Page.Fulfilled {| Dashboard.wishlistData := Some []; Dashboard.wishlistError := None |};
     Dashboard.logsAnswer := noItems |}.

Definition sampleProfile : Profile.Profile :=
  {| Profile.username := "dana"; Profile.full_name := "Dana";
     Profile.avatar_url := EmptyString; Profile.biography := "Hello";
     Profile.tagline := EmptyString; Profile.role := "DONOR"; Profile.city := "Paris";
     Profile.visibility := true |}.

Definition profileEditing : Profile.State :=
  {| Profile.user := Some {| Profile.user_id := "u1" |};
     Profile.profile := Some sampleProfile; Profile.loading := false;
     Profile.editing := true; Profile.bioLength := 5;
     Profile.requests := []; Profile.console := [] |}.

Definition updateOk : Page.Settled Profile.UpdateReply :=
  Page.Fulfilled {| Profile.updateError := None |}.

Definition updateRefused : Page.Settled Profile.UpdateReply :=
  Page.Fulfilled {| Profile.updateError := Some (Page.PlainValue "denied") |}.

(** * Properties *)

(** ** Basic facts about rendering and handlers *)

Lemma render_view w : view (render w) = view w.
Proof.
  unfold render, useEffectStep, useCallbackStep.
  repeat (case_decide; cbn); reflexivity.
Qed.

Lemma render_searchCalls w : searchCalls (render w) = searchCalls w.
Proof.
  unfold render, useEffectStep, useCallbackStep.
  repeat (case_decide; cbn); reflexivity.
Qed.

Lemma render_suggestCalls w : suggestCalls (render w) = suggestCalls w.
Proof.
  unfold render, useEffectStep, useCallbackStep.
  repeat (case_decide; cbn); reflexivity.
Qed.

Lemma render_nextCall w : nextCall (render w) = nextCall w.
Proof.
  unfold render, useEffectStep, useCallbackStep.
  repeat (case_decide; cbn); reflexivity.
Qed.

Lemma render_unhandled w : unhandled (render w) = unhandled w.
Proof.
  unfold render, useEffectStep, useCallbackStep.
  repeat (case_decide; cbn); reflexivity.
Qed.

Lemma render_console w : console (render w) = console w.
Proof.
  unfold render, useEffectStep, useCallbackStep.
  repeat (case_decide; cbn); reflexivity.
Qed.

Lemma useCallbackStep_view w : view (useCallbackStep w) = view w.
Proof. unfold useCallbackStep. case_decide; reflexivity. Qed.

Lemma useCallbackStep_effectDeps w : effectDeps (useCallbackStep w) = effectDeps w.
Proof. unfold useCallbackStep. case_decide; reflexivity. Qed.

(** After a render the memoised function is the one of the current page. *)
Lemma render_dpage w : dpage (debouncedSearch (render w)) = page (view w).
Proof.
  unfold render, useEffectStep, useCallbackStep.
  repeat (case_decide; cbn); done.
Qed.

Lemma render_rendered w : rendered (render w).
Proof.
  unfold rendered, render, useEffectStep, useCallbackStep.
  repeat (case_decide; cbn); done.
Qed.

Lemma render_id w : rendered w → render w = w.
Proof.
  intros [Hp He]. unfold render, useCallbackStep.
  rewrite decide_True by done. unfold useEffectStep.
  rewrite decide_True by done. reflexivity.
Qed.

Lemma step_rendered e w : rendered (step e w).
Proof. apply render_rendered. Qed.

(** The second part of the search never throws. *)
Lemma searchResume_returns r w : fst (searchResume r w) = Returned tt.
Proof.
  destruct r as [[d [e|] c]|e]; reflexivity.
Qed.

Lemma searchResume_failing r w :
  failing r →
  let w' := snd (searchResume r w) in
  loading (view w') = false ∧ resultPage w' = resultPage w ∧
  (∃ line, console w' = (console w ++ [line])%list) ∧
  searchCalls w' = searchCalls w ∧ unhandled w' = unhandled w.
Proof.
  destruct r as [[d [e|] c]|e]; cbn.
  - intros _. repeat split. eexists. reflexivity.
  - intros [? [=]].
  - intros _. repeat split. eexists. reflexivity.
Qed.

Lemma searchResume_success reply w :
  error reply = None →
  let w' := snd (searchResume (Fulfilled reply) w) in
  loading (view w') = false ∧ resultPage w' = pageOf reply ∧
  searchCalls w' = searchCalls w ∧ unhandled w' = unhandled w.
Proof.
  destruct reply as [d e c]; cbn. intros ->. cbn. done.
Qed.

Lemma runHandler_searchResume r w :
  runHandler (searchResume r) w = snd (searchResume r w).
Proof.
  unfold runHandler. pose proof (searchResume_returns r w) as H.
  destruct (searchResume r w) as [[u|e] w']; cbn in *; [done | discriminate].
Qed.

(** ** C3: the empty query *)

(** C3. When the debounced search is invoked with the empty query string it
    returns at its guard: the world is left exactly as it was, so no remote
    call is issued (no call is added, no call number is consumed) and the
    displayed results and total are untouched; the same holds when the
    invocation comes from the timer of the debounced function firing. *)
Theorem empty_query_no_fetch (p : Z) (g : nat) (w : World) :
  invoke p EmptyString w = w ∧
  searchCalls (invoke p EmptyString w) = searchCalls w ∧
  nextCall (invoke p EmptyString w) = nextCall w ∧
  resultPage (invoke p EmptyString w) = resultPage w ∧
  loading (view (invoke p EmptyString w)) = loading (view w) ∧
  let armed :=
    withSuperseded []
      (withDebounced {| dpage := p; dgen := g; pending := Some (EmptyString, 1%nat) |} w) in
  pending (debouncedSearch (tick armed)) = None ∧
  searchCalls (tick armed) = searchCalls w ∧
  nextCall (tick armed) = nextCall w ∧
  resultPage (tick armed) = resultPage w.
Proof.
  assert (invoke p EmptyString w = w) as H by (destruct w; reflexivity).
  rewrite H. repeat split; reflexivity.
Qed.

(** ** C4: a failing search *)

(** C4. When a search call in flight fails (its promise rejects, or its
    reply carries an error), the async function catches the failure: it
    returns normally, nothing is left unhandled, one diagnostic is logged,
    [loading] is false afterwards and the displayed results and total are
    the ones shown before. *)
Theorem failed_search_is_contained (w : World) (call : nat) (r : Settled SearchReply) :
  is_Some (searchCalls w !! call) →
  failing r →
  let w' := step (SearchSettled call r) w in
  (∀ w0, fst (searchResume r w0) = Returned tt) ∧
  unhandled w' = unhandled w ∧
  loading (view w') = false ∧
  resultPage w' = resultPage w ∧
  (∃ line, console w' = (console w ++ [line])%list).
Proof.
  intros [req Hreq] Hfail. cbn zeta.
  split; [intros; apply searchResume_returns|].
  unfold step, resultPage. rewrite render_unhandled, render_view, render_console.
  cbn [handle]. unfold searchSettled. rewrite Hreq.
  rewrite runHandler_searchResume.
  destruct (searchResume_failing r
    (withSearchCalls (delete call (searchCalls w)) (nextCall w) w) Hfail)
    as (Hl & Hp & Hc & _ & Hu).
  unfold resultPage in Hp. cbn in Hp, Hc, Hu. auto.
Qed.

Lemma failed_search_is_contained_witness :
  let w' := step (SearchSettled 1 (Rejected "Failed to fetch")) lampRacing in
  unhandled w' = unhandled lampRacing ∧ loading (view w') = false ∧
  resultPage w' = resultPage lampRacing.
Proof.
  assert (is_Some (searchCalls lampRacing !! 1%nat)) as Hin by (vm_compute; eauto).
  pose proof (failed_search_is_contained lampRacing 1 (Rejected "Failed to fetch") Hin I)
    as H.
  destruct H as (_ & Hu & Hl & Hp & _).
  exact (conj Hu (conj Hl Hp)).
Defined.

(** ** C5: the page count *)

Lemma pageCount_unfold total : pageCount total = - ((- total) / 12).
Proof.
  unfold pageCount, Qround.Qceiling, Qround.Qfloor. cbn.
  rewrite Z.mul_1_r. reflexivity.
Qed.

Lemma pageCount_isCeiling total : isCeiling total (pageCount total).
Proof.
  unfold isCeiling, ITEMS_PER_PAGE. rewrite pageCount_unfold.
  pose proof (Z.div_mod (- total) 12 ltac:(lia)) as Hdm.
  pose proof (Z.mod_pos_bound (- total) 12 ltac:(lia)) as Hb.
  lia.
Qed.

Lemma isCeiling_unique total k k' : isCeiling total k → isCeiling total k' → k = k'.
Proof. unfold isCeiling, ITEMS_PER_PAGE. lia. Qed.




(** ** C8: toggling a filter twice *)

Lemma without_app_fresh (c : string) (l : list string) :
  c ∉ l → without c (l ++ [c])%list = l.
Proof.
  intros Hc. unfold without. rewrite filter_app. cbn.
  rewrite decide_False by (intros H; by apply H). rewrite app_nil_r.
  induction l as [|x l IH]; [done|].
  rewrite filter_cons. apply not_elem_of_cons in Hc as [Hx Hl].
  rewrite decide_True by done. f_equal. by apply IH.
Qed.

Lemma elem_of_without (c x : string) (l : list string) :
  x ∈ without c l ↔ x ∈ l ∧ x ≠ c.
Proof. unfold without. rewrite list_elem_of_filter. tauto. Qed.

Lemma selectedCategories_click c w :
  selectedCategories (view (clickCategory c w)) = toggled c (selectedCategories (view w)).
Proof.
  unfold clickCategory, toggled, categoryChecked.
  destruct (bool_decide (c ∈ selectedCategories (view w))); reflexivity.
Qed.

Lemma selectedConditions_click c w :
  selectedConditions (view (clickCondition c w)) = toggled c (selectedConditions (view w)).
Proof.
  unfold clickCondition, toggled, conditionChecked.
  destruct (bool_decide (c ∈ selectedConditions (view w))); reflexivity.
Qed.

(** On then off gives back the very list. *)
Lemma toggled_on_off c l : c ∉ l → toggled c (toggled c l) = l.
Proof.
  intros Hc. unfold toggled at 2. rewrite bool_decide_eq_false_2 by done. cbn.
  unfold toggled. rewrite bool_decide_eq_true_2 by set_solver. cbn.
  by apply without_app_fresh.
Qed.

(** Off then on gives back the same elements, the toggled one moved last. *)
Lemma toggled_off_on c l : c ∈ l → toggled c (toggled c l) = (without c l ++ [c])%list.
Proof.
  intros Hc. unfold toggled at 2. rewrite bool_decide_eq_true_2 by done. cbn.
  unfold toggled. rewrite bool_decide_eq_false_2; [done|].
  rewrite elem_of_without. tauto.
Qed.

Lemma toggled_twice_set c l :
  list_to_set (C := gset string) (toggled c (toggled c l)) = list_to_set l.
Proof.
  destruct (decide (c ∈ l)) as [Hc|Hc].
  - rewrite toggled_off_on by done. apply set_eq. intros x.
    rewrite list_to_set_app_L, elem_of_union, !elem_of_list_to_set,
      elem_of_without, list_elem_of_singleton.
    destruct (decide (x = c)) as [->|]; tauto.
  - by rewrite toggled_on_off.
Qed.

(** C8. For every category and every condition value, and whatever is
    selected, clicking the same checkbox twice (on then off when the value
    was not selected, off then on when it was) leaves the set of selected
    categories, and the set of selected conditions, as it was. *)
Theorem toggle_twice_restores_set (c : string) (w : World) :
  list_to_set (C := gset string)
    (selectedCategories (view (clickCategory c (clickCategory c w)))) =
  list_to_set (selectedCategories (view w)) ∧
  list_to_set (C := gset string)
    (selectedConditions (view (clickCondition c (clickCondition c w)))) =
  list_to_set (selectedConditions (view w)).
Proof.
  rewrite !selectedCategories_click, !selectedConditions_click.
  split; apply toggled_twice_set.
Qed.

(** ** C9: the Previous and Next buttons *)

(** C9. When the pagination controls are rendered, Previous is disabled
    exactly when the page is 1 and Next is disabled exactly when the page is
    at least the page count, which is the ceiling of [total / 12]. *)
Theorem pagination_buttons (st : State) (items : list SearchResult) (p : Pagination) :
  renderResults st = Cards items (Some p) →
  (previousDisabled p = true ↔ page st = 1) ∧
  (nextDisabled p = true ↔ page st >= pageCount (totalResults st)) ∧
  (∀ k, isCeiling (totalResults st) k → (nextDisabled p = true ↔ page st >= k)) ∧
  (previousEnabled st = true ↔ page st ≠ 1) ∧
  (nextEnabled st = true ↔ page st < pageCount (totalResults st)).
Proof.
  intros Hr.
  assert (renderPagination st = Some p) as Hp.
  { unfold renderResults in Hr. destruct (loading st); [done|].
    case_bool_decide; [|done]. by injection Hr. }
  unfold previousEnabled, nextEnabled. rewrite Hr.
  unfold renderPagination in Hp. case_bool_decide; [|done].
  injection Hp as <-. cbn.
  rewrite !negb_true_iff, !bool_decide_eq_true, !bool_decide_eq_false.
  split; [done|]. split; [done|]. split; [|split; [done|lia]].
  intros k Hk. rewrite bool_decide_eq_true.
  rewrite (isCeiling_unique _ _ _ Hk (pageCount_isCeiling (totalResults st))). done.
Qed.

Lemma pagination_buttons_witness :
  let page2of13 :=
    {| searchParams := Some "lamp"; results := [sampleItem "lamp 13"]; loading := false;
       viewMode := grid; showFilters := false; suggestions := []; totalResults := 13;
       page := 2; selectedCategories := []; selectedConditions := []; sortBy := newest;
       priceRange := (0, 1000) |} in
  previousEnabled page2of13 = true ∧ nextEnabled page2of13 = false.
Proof.
  cbn zeta.
  match goal with |- previousEnabled ?st = _ ∧ _ =>
    destruct (pagination_buttons st [sampleItem "lamp 13"]
      {| previousDisabled := false; pageLabel := (2, 2); nextDisabled := true |}
      eq_refl) as (_ & _ & _ & Hp & Hn)
  end.
  split.
  - apply Hp. discriminate.
  - apply not_true_is_false. rewrite Hn. vm_compute. discriminate.
Defined.

(** ** C1: two searches in flight *)

Lemma step_searchSettled_success w call reply :
  is_Some (searchCalls w !! call) →
  error reply = None →
  let w' := step (SearchSettled call (Fulfilled reply)) w in
  resultPage w' = pageOf reply ∧ loading (view w') = false ∧
  searchCalls w' = delete call (searchCalls w).
Proof.
  intros [req Hreq] Herr. cbn zeta.
  unfold step, resultPage. rewrite render_view, render_searchCalls.
  cbn [handle]. unfold searchSettled. rewrite Hreq, runHandler_searchResume.
  destruct (searchResume_success reply
    (withSearchCalls (delete call (searchCalls w)) (nextCall w) w) Herr)
    as (Hl & Hp & Hc & _).
  unfold resultPage in Hp. cbn in Hc. auto.
Qed.

(** C1 as the specification words it does not hold of the page: with the
    searches of page 2 and page 3 in flight and page 3 current, the reply
    of page 3 arrives first and the reply of page 2 after it; the rows of
    page 2 end up on display. *)
Lemma stale_response_overwrites :
  searchCalls lampRacing !! 1%nat = Some (searchRequest 2 "lamp") ∧
  searchCalls lampRacing !! 2%nat = Some (searchRequest 3 "lamp") ∧
  let w' := run [SearchSettled 2 page3Reply; SearchSettled 1 page2Reply] lampRacing in
  page (view w') = 3 ∧
  results (view w') = [sampleItem "lamp 13"] ∧
  results (view w') ≠ [sampleItem "lamp 25"].
Proof. vm_compute. repeat split; discriminate. Qed.

(** C1, amended. For two searches in flight, A dispatched before B, both
    succeeding, the result page on display after both replies is the one of
    the reply that arrived last: B's when the replies arrive in dispatch
    order, A's when A's reply arrives after B's.  No reply is discarded. *)
Theorem last_settled_response_wins (w : World) (a b : nat) (ra rb : SearchReply) :
  (a < b)%nat →
  is_Some (searchCalls w !! a) →
  is_Some (searchCalls w !! b) →
  error ra = None →
  error rb = None →
  resultPage (run [SearchSettled a (Fulfilled ra); SearchSettled b (Fulfilled rb)] w)
    = pageOf rb ∧
  resultPage (run [SearchSettled b (Fulfilled rb); SearchSettled a (Fulfilled ra)] w)
    = pageOf ra.
Proof.
  intros Hab Ha Hb Hea Heb. cbn [run foldl].
  destruct (step_searchSettled_success w a ra Ha Hea) as (_ & _ & Hca).
  destruct (step_searchSettled_success w b rb Hb Heb) as (_ & _ & Hcb).
  split.
  - apply step_searchSettled_success; [|done].
    rewrite Hca, lookup_delete_ne by lia. done.
  - apply step_searchSettled_success; [|done].
    rewrite Hcb, lookup_delete_ne by lia. done.
Qed.

Lemma last_settled_response_wins_witness :
  resultPage (run [SearchSettled 1 page2Reply; SearchSettled 2 page3Reply] lampRacing)
    = ([sampleItem "lamp 25"], 30) ∧
  resultPage (run [SearchSettled 2 page3Reply; SearchSettled 1 page2Reply] lampRacing)
    = ([sampleItem "lamp 13"], 30).
Proof.
  apply (last_settled_response_wins lampRacing 1 2
           {| data := Some [sampleItem "lamp 13"]; error := None; count := Some 30 |}
           {| data := Some [sampleItem "lamp 25"]; error := None; count := Some 30 |}).
  - lia.
  - vm_compute. eauto.
  - vm_compute. eauto.
  - reflexivity.
  - reflexivity.
Defined.

(** ** C7: the suggestion fetcher *)

(** On a text of ASCII characters the length is the number of characters. *)
Lemma lengthUtf16_ascii (s : string) :
  Forall (λ byte, (Ascii.nat_of_ascii byte < 128)%nat) (String.list_ascii_of_string s) →
  lengthUtf16 s = String.length s.
Proof.
  induction s as [|byte s IH]; cbn [String.list_ascii_of_string lengthUtf16 String.length];
    [reflexivity|].
  intros H. apply Forall_cons_1 in H as [Hb Hs]. rewrite (IH Hs). unfold utf16Units.
  apply Nat.ltb_lt in Hb. cbn zeta. by rewrite Hb.
Qed.

Lemma loadSuggestions_guard (v : string) :
  bool_decide (v = EmptyString) || (lengthUtf16 v <? 2)%nat = bool_decide (lengthUtf16 v < 2)%nat.
Proof.
  destruct v as [|a v]; [reflexivity|].
  rewrite bool_decide_eq_false_2 by discriminate. cbn [orb].
  destruct (lengthUtf16 (String a v) <? 2)%nat eqn:E.
  - apply Nat.ltb_lt in E. by rewrite bool_decide_eq_true_2.
  - apply Nat.ltb_ge in E. rewrite bool_decide_eq_false_2; [done | lia].
Qed.

(** C7. Typing a text of length at least 2 sends one suggestion request at
    once, in the same event (while no search request is sent by it): the
    request asks for at most 5 rows, and when the reply carries no more rows
    than asked for, the suggestion list becomes its titles, at most 5.
    Typing a text of length below 2 (the empty text included) empties the
    suggestion list in the same event and sends nothing.  The length is the
    one the code tests, [query.length], in UTF-16 code units. *)
Theorem suggestion_fetcher_contract (w : World) (v : string) :
  let w' := step (InputChange v) w in
  ((2 ≤ lengthUtf16 v)%nat →
     suggestCalls w' = <[nextCall w := suggestRequest v]> (suggestCalls w) ∧
     nextCall w' = S (nextCall w) ∧
     searchCalls w' = searchCalls w ∧
     sg_limit (suggestRequest v) = 5 ∧
     sg_textSearch (suggestRequest v) = ("title", v) ∧
     ∀ rows, Z.of_nat (length rows) ≤ sg_limit (suggestRequest v) →
       let w'' := step (SuggestSettled (nextCall w) (titlesReply rows)) w' in
       suggestions (view w'') = rows ∧
       (length (suggestions (view w'')) ≤ 5)%nat ∧
       suggestCalls w'' = delete (nextCall w) (suggestCalls w')) ∧
  ((lengthUtf16 v < 2)%nat →
     suggestions (view w') = [] ∧
     suggestCalls w' = suggestCalls w ∧
     nextCall w' = nextCall w ∧
     searchCalls w' = searchCalls w).
Proof.
  cbn zeta. unfold step.
  rewrite !render_suggestCalls, !render_nextCall, !render_searchCalls, !render_view.
  cbn [handle]. unfold onInputChange, loadSuggestionsBegin.
  rewrite loadSuggestions_guard. split; intros Hlen.
  - rewrite bool_decide_eq_false_2 by lia. cbn.
    repeat (split; [reflexivity|]).
    intros rows Hrows. unfold suggestSettled.
    rewrite render_suggestCalls. cbn. rewrite lookup_insert_eq. cbn.
    rewrite !render_view, !render_suggestCalls. cbn.
    repeat split. lia.
  - rewrite bool_decide_eq_true_2 by lia. cbn. done.
Qed.

Lemma suggestion_fetcher_contract_witness :
  suggestCalls (step (InputChange "bo") lampLoaded) =
    <[nextCall lampLoaded := suggestRequest "bo"]> (suggestCalls lampLoaded) ∧
  suggestions
    (view (step (SuggestSettled (nextCall lampLoaded) (titlesReply ["Bookshelf"; "Boots"]))
             (step (InputChange "bo") lampLoaded))) = ["Bookshelf"; "Boots"] ∧
  suggestions (view (step (InputChange "b") lampLoaded)) = [] ∧
  suggestCalls (step (InputChange "é") lampLoaded) = suggestCalls lampLoaded.
Proof.
  assert (2 ≤ lengthUtf16 "bo")%nat as H2 by (vm_compute; lia).
  assert (lengthUtf16 "b" < 2)%nat as H1 by (vm_compute; lia).
  assert (lengthUtf16 "é" < 2)%nat as H1' by (vm_compute; lia).
  assert (Z.of_nat (length ["Bookshelf"; "Boots"]) ≤ sg_limit (suggestRequest "bo")) as H5
    by (cbn; lia).
  pose proof (proj1 (suggestion_fetcher_contract lampLoaded "bo") H2) as Hbo.
  pose proof (proj2 (suggestion_fetcher_contract lampLoaded "b") H1) as Hb.
  pose proof (proj2 (suggestion_fetcher_contract lampLoaded "é") H1') as He.
  destruct Hbo as (Hcall & _ & _ & _ & _ & Hrows).
  exact (conj Hcall (conj (proj1 (Hrows _ H5)) (conj (proj1 Hb) (proj1 (proj2 He))))).
Defined.

(** ** C10: a new query starts at page 1 *)

Lemma handleSearch_effect (s : string) (m : M unit) (w : World) :
  (∀ w0, fst (m w0) = Returned tt ∧
         searchParams (view (snd (m w0))) = searchParams (view w0) ∧
         page (view (snd (m w0))) = page (view w0) ∧
         debouncedSearch (snd (m w0)) = debouncedSearch w0 ∧
         effectDeps (snd (m w0)) = effectDeps w0) →
  let h := runHandler (handleSearch s ;; m) w in
  searchParams (view h) = Some s ∧ page (view h) = 1 ∧
  debouncedSearch h = debouncedSearch w ∧ effectDeps h = effectDeps w.
Proof.
  intros Hm. cbn zeta. unfold runHandler, handleSearch, bind. cbn.
  match goal with |- context [m ?w0] => specialize (Hm w0); destruct (m w0) as [[u|e] w1] end;
    cbn in *; [|destruct Hm as [[=] _]].
  destruct Hm as (_ & -> & -> & -> & ->). done.
Qed.

Lemma query_handlers_effect (w : World) (e : Event) (s : string) :
  e = InputChange s ∨ (∃ i, e = SuggestionClick i ∧ suggestions (view w) !! i = Some s) →
  let h := handle e w in
  searchParams (view h) = Some s ∧ page (view h) = 1 ∧
  debouncedSearch h = debouncedSearch w ∧ effectDeps h = effectDeps w.
Proof.
  intros [-> | (i & -> & Hi)]; cbn [handle].
  - apply handleSearch_effect. intros w0. unfold loadSuggestionsBegin.
    destruct (bool_decide (s = EmptyString) || (lengthUtf16 s <? 2)%nat); done.
  - rewrite Hi. apply handleSearch_effect. done.
Qed.

(** C10. Typing in the search box and picking a suggestion both make the
    text the new query and set the page to 1; the debounced search of the
    render that follows is the one of page 1, whose requests ask for the
    rows 0 to 11, and when the text differs from the previous query that
    search is scheduled with the new text. *)
Theorem query_change_resets_page (w : World) (e : Event) (s : string) :
  e = InputChange s ∨ (∃ i, e = SuggestionClick i ∧ suggestions (view w) !! i = Some s) →
  let w' := step e w in
  queryOf (view w') = s ∧
  page (view w') = 1 ∧
  dpage (debouncedSearch w') = 1 ∧
  (∀ q, sr_range (searchRequest (dpage (debouncedSearch w')) q) = (0, 11)) ∧
  (rendered w → searchParams (view w) ≠ Some s →
   pending (debouncedSearch w') = Some (s, wait)).
Proof.
  intros He. cbn zeta.
  destruct (query_handlers_effect w e s He) as (Hq & Hp & Hd & Hdeps).
  unfold step. rewrite render_view, render_dpage, Hp. unfold queryOf. rewrite Hq.
  repeat (split; [done|]).
  intros [_ Hr] Hne. unfold render, useEffectStep.
  rewrite decide_False; [unfold queryOf; rewrite useCallbackStep_view, Hq; done|].
  rewrite useCallbackStep_view, useCallbackStep_effectDeps, Hdeps, Hr, Hq.
  intros [= ? _]. congruence.
Qed.

(** ** Time: timers firing *)

Lemma invoke_frame p q w :
  debouncedSearch (invoke p q w) = debouncedSearch w ∧
  effectDeps (invoke p q w) = effectDeps w ∧
  superseded (invoke p q w) = superseded w ∧
  searchParams (view (invoke p q w)) = searchParams (view w) ∧
  page (view (invoke p q w)) = page (view w) ∧
  (nextCall w ≤ nextCall (invoke p q w))%nat.
Proof.
  unfold invoke, searchBegin. case_decide; cbn; repeat split; lia.
Qed.

Lemma invoke_calls p q w :
  q ≠ EmptyString →
  searchCalls (invoke p q w) = <[nextCall w := searchRequest p q]> (searchCalls w) ∧
  nextCall (invoke p q w) = S (nextCall w).
Proof.
  intros Hq. unfold invoke, searchBegin. rewrite decide_False by done. done.
Qed.

Lemma invoke_engine p q w1 w2 :
  engine w1 = engine w2 → engine (invoke p q w1) = engine (invoke p q w2).
Proof.
  unfold engine. intros [= ? ? ? ? ? ? ?].
  unfold invoke, searchBegin. case_decide; cbn; congruence.
Qed.

Lemma fireSuperseded_frame ts w :
  debouncedSearch (snd (fireSuperseded ts w)) = debouncedSearch w ∧
  effectDeps (snd (fireSuperseded ts w)) = effectDeps w ∧
  superseded (snd (fireSuperseded ts w)) = superseded w ∧
  searchParams (view (snd (fireSuperseded ts w))) = searchParams (view w) ∧
  page (view (snd (fireSuperseded ts w))) = page (view w) ∧
  (nextCall w ≤ nextCall (snd (fireSuperseded ts w)))%nat.
Proof.
  revert w. induction ts as [|t ts IH]; intros w; cbn [fireSuperseded].
  - cbn. repeat split; lia.
  - case_decide.
    + destruct (IH (invoke (tpage t) (targs t) w)) as (-> & -> & -> & -> & -> & Hn).
      destruct (invoke_frame (tpage t) (targs t) w) as (-> & -> & -> & -> & -> & Hn').
      repeat split; lia.
    + specialize (IH w). destruct (fireSuperseded ts w) as [keep w']. exact IH.
Qed.

Lemma fireSuperseded_engine ts w1 w2 :
  engine w1 = engine w2 →
  fst (fireSuperseded ts w1) = fst (fireSuperseded ts w2) ∧
  engine (snd (fireSuperseded ts w1)) = engine (snd (fireSuperseded ts w2)).
Proof.
  revert w1 w2. induction ts as [|t ts IH]; intros w1 w2 He; cbn [fireSuperseded].
  - done.
  - case_decide.
    + apply IH. by apply invoke_engine.
    + specialize (IH w1 w2 He).
      destruct (fireSuperseded ts w1) as [k1 v1], (fireSuperseded ts w2) as [k2 v2].
      cbn in *. destruct IH as [-> ->]. done.
Qed.

Lemma tick_engine w1 w2 : engine w1 = engine w2 → engine (tick w1) = engine (tick w2).
Proof.
  intros He. unfold tick.
  assert (superseded w1 = superseded w2) as Hs by (unfold engine in He; congruence).
  rewrite Hs.
  destruct (fireSuperseded_engine (superseded w2) w1 w2 He) as [Hk Hv].
  destruct (fireSuperseded (superseded w2) w1) as [k1 v1],
           (fireSuperseded (superseded w2) w2) as [k2 v2].
  cbn in Hk, Hv. subst k2. cbn [debouncedSearch withSuperseded].
  assert (debouncedSearch v1 = debouncedSearch v2) as Hd by (unfold engine in Hv; congruence).
  rewrite Hd. destruct (pending (debouncedSearch v2)) as [[a n]|].
  - case_decide.
    + apply invoke_engine. unfold engine in *. cbn. congruence.
    + unfold engine in *. cbn. congruence.
  - unfold engine in *. cbn. congruence.
Qed.

Lemma render_engine w1 w2 : engine w1 = engine w2 → engine (render w1) = engine (render w2).
Proof.
  destruct w1 as [[] ? ? ? ? ? ? ? ?], w2 as [[] ? ? ? ? ? ? ? ?].
  unfold engine, render, useEffectStep, useCallbackStep, callDebounced, queryOf. cbn.
  intros [= -> -> -> -> -> -> ->].
  repeat (case_decide; cbn); first [reflexivity | done].
Qed.

Lemma elapse_S n w : elapse (S n) w = elapse n (step Tick w).
Proof. reflexivity. Qed.

Lemma elapse_snoc n w : elapse (S n) w = step Tick (elapse n w).
Proof.
  unfold elapse, run. rewrite replicate_S_end, foldl_app. reflexivity.
Qed.

Lemma elapse_engine n w1 w2 :
  engine w1 = engine w2 → engine (elapse n w1) = engine (elapse n w2).
Proof.
  revert w1 w2. induction n as [|n IH]; intros w1 w2 He; [done|].
  rewrite !elapse_S. apply IH. unfold step. cbn [handle].
  by apply render_engine, tick_engine.
Qed.

Lemma tick_frame w :
  dpage (debouncedSearch (tick w)) = dpage (debouncedSearch w) ∧
  dgen (debouncedSearch (tick w)) = dgen (debouncedSearch w) ∧
  effectDeps (tick w) = effectDeps w ∧
  searchParams (view (tick w)) = searchParams (view w) ∧
  page (view (tick w)) = page (view w) ∧
  (nextCall w ≤ nextCall (tick w))%nat.
Proof.
  unfold tick.
  pose proof (fireSuperseded_frame (superseded w) w) as Hf.
  destruct (fireSuperseded (superseded w) w) as [keep w1]. cbn in Hf.
  destruct Hf as (Hd & He & _ & Hq & Hp & Hn).
  cbn [debouncedSearch withSuperseded]. rewrite Hd.
  destruct (pending (debouncedSearch w)) as [[a n]|]; [case_decide|].
  - match goal with |- context [invoke ?p ?q ?x] =>
      destruct (invoke_frame p q x) as (-> & -> & _ & -> & -> & Hn') end.
    cbn in *. repeat split; (done || lia).
  - cbn. repeat split; (done || lia).
  - cbn. rewrite Hd. repeat split; (done || lia).
Qed.

Lemma tick_rendered w : rendered w → rendered (tick w).
Proof.
  intros [Hp He]. destruct (tick_frame w) as (Hd & Hg & He' & Hq & Hp' & _).
  unfold rendered. rewrite Hd, Hg, He', Hq, Hp'. done.
Qed.

Lemma step_Tick_rendered w : rendered w → step Tick w = tick w.
Proof. intros H. unfold step. cbn [handle]. by apply render_id, tick_rendered. Qed.

(** While more than a millisecond is left the timer just counts down. *)
Lemma tick_waiting w a m :
  pending (debouncedSearch w) = Some (a, m) → (1 < m)%nat →
  pending (debouncedSearch (tick w)) = Some (a, pred m).
Proof.
  intros Hpend Hm. unfold tick.
  pose proof (fireSuperseded_frame (superseded w) w) as Hf.
  destruct (fireSuperseded (superseded w) w) as [keep w1]. cbn in Hf.
  destruct Hf as (Hd & _). cbn [debouncedSearch withSuperseded].
  rewrite Hd, Hpend. rewrite decide_False by lia. reflexivity.
Qed.

(** On its last millisecond the timer fires: the function of the captured
    page is invoked with the last arguments. *)
Lemma tick_firing w a m :
  pending (debouncedSearch w) = Some (a, m) → (m ≤ 1)%nat →
  pending (debouncedSearch (tick w)) = None ∧
  (a ≠ EmptyString →
   ∃ call, (nextCall w ≤ call)%nat ∧
     searchCalls (tick w) !! call = Some (searchRequest (dpage (debouncedSearch w)) a)).
Proof.
  intros Hpend Hm. unfold tick.
  pose proof (fireSuperseded_frame (superseded w) w) as Hf.
  destruct (fireSuperseded (superseded w) w) as [keep w1]. cbn in Hf.
  destruct Hf as (Hd & _ & _ & _ & _ & Hn). cbn [debouncedSearch withSuperseded].
  rewrite Hd, Hpend. rewrite decide_True by lia.
  match goal with |- context [invoke ?p ?q ?x] =>
    destruct (invoke_frame p q x) as (Hd' & _);
    pose proof (invoke_calls p q x) as Hc end.
  rewrite Hd'. split; [reflexivity|].
  intros Ha. destruct (Hc Ha) as [-> _]. cbn.
  exists (nextCall w1). split; [done|]. apply lookup_insert_eq.
Qed.

Lemma elapse_waiting n : ∀ w a m,
  rendered w →
  pending (debouncedSearch w) = Some (a, m) → (n < m)%nat →
  rendered (elapse n w) ∧
  pending (debouncedSearch (elapse n w)) = Some (a, (m - n)%nat) ∧
  dpage (debouncedSearch (elapse n w)) = dpage (debouncedSearch w) ∧
  (nextCall w ≤ nextCall (elapse n w))%nat.
Proof.
  induction n as [|n IH]; intros w a m Hr Hpend Hn.
  - cbn. rewrite Nat.sub_0_r. done.
  - rewrite elapse_S, step_Tick_rendered by done.
    destruct (tick_frame w) as (Hd & _ & _ & _ & _ & Hnc).
    destruct (IH (tick w) a (pred m)) as (Hr' & Hp' & Hd' & Hn').
    + by apply tick_rendered.
    + apply tick_waiting; [done | lia].
    + lia.
    + rewrite Hd', Hd, Hp'.
      split; [done|]. split; [f_equal; f_equal; lia|]. split; [done | lia].
Qed.

(** A render in which the page differs from the page of the memoised
    function: a new debounced function is made and the effect calls it. *)
Lemma render_page_changed h sp pg :
  dpage (debouncedSearch h) ≠ page (view h) →
  effectDeps h = Some (sp, pg, dgen (debouncedSearch h)) →
  debouncedSearch (render h) =
    {| dpage := page (view h); dgen := S (dgen (debouncedSearch h));
       pending := Some (queryOf (view h), wait) |}.
Proof.
  intros Hne He. unfold render, useCallbackStep. rewrite decide_False by done.
  unfold useEffectStep. cbn. rewrite He, decide_False; [reflexivity|].
  intros [= _ _ Hg]. lia.
Qed.

(** ** C2: what the search request depends on *)

(** C2. Take two worlds with the same timers and calls in flight whose
    states agree on the query text and on the page, and differ at will in
    the selected categories and conditions, the price range and the sort
    mode (and in fact in any other cell).  The request the debounced search
    builds is the same for both, and as time passes the same search
    requests are sent under the same call numbers. *)
Theorem request_ignores_filters (w1 w2 : World) (n : nat) :
  searchParams (view w1) = searchParams (view w2) →
  page (view w1) = page (view w2) →
  debouncedSearch w1 = debouncedSearch w2 →
  effectDeps w1 = effectDeps w2 →
  superseded w1 = superseded w2 →
  searchCalls w1 = searchCalls w2 →
  nextCall w1 = nextCall w2 →
  searchRequest (page (view w1)) (queryOf (view w1)) =
    searchRequest (page (view w2)) (queryOf (view w2)) ∧
  searchCalls (elapse n w1) = searchCalls (elapse n w2) ∧
  nextCall (elapse n w1) = nextCall (elapse n w2).
Proof.
  intros Hq Hp Hd He Hs Hc Hn.
  split; [unfold queryOf; by rewrite Hq, Hp|].
  assert (engine w1 = engine w2) as Heng by (unfold engine; congruence).
  apply (elapse_engine n) in Heng. unfold engine in Heng.
  injection Heng as _ _ _ _ _ Hc' Hn'. done.
Qed.

Lemma request_ignores_filters_witness :
  let w1 := step (InputChange "lamp") (mount None) in
  let w2 := withFilters ["Books"] ["GOOD"] (5, 20) oldest w1 in
  searchCalls (elapse 300 w1) = searchCalls (elapse 300 w2) ∧
  searchCalls (elapse 300 w2) !! 1%nat = Some (searchRequest 1 "lamp").
Proof.
  cbn zeta. split.
  - exact (proj1 (proj2 (request_ignores_filters
      (step (InputChange "lamp") (mount None))
      (withFilters ["Books"] ["GOOD"] (5, 20) oldest (step (InputChange "lamp") (mount None)))
      300 eq_refl eq_refl eq_refl eq_refl eq_refl eq_refl eq_refl))).
  - vm_compute. reflexivity.
Defined.

(** ** Filters along a whole session *)

Lemma render_withFilters cats conds price sort w :
  render (withFilters cats conds price sort w) = withFilters cats conds price sort (render w).
Proof.
  destruct w as [[] ? ? ? ? ? ? ? ?].
  unfold render, useEffectStep, useCallbackStep, callDebounced, queryOf, withFilters. cbn.
  repeat (case_decide; cbn); first [reflexivity | done].
Qed.

Lemma invoke_withFilters p q cats conds price sort w :
  invoke p q (withFilters cats conds price sort w) =
  withFilters cats conds price sort (invoke p q w).
Proof.
  unfold invoke, searchBegin. case_decide; reflexivity.
Qed.

Lemma fireSuperseded_withFilters ts cats conds price sort w :
  fireSuperseded ts (withFilters cats conds price sort w) =
  (fst (fireSuperseded ts w), withFilters cats conds price sort (snd (fireSuperseded ts w))).
Proof.
  revert w. induction ts as [|t ts IH]; intros w; cbn [fireSuperseded]; [done|].
  case_decide.
  - rewrite invoke_withFilters. apply IH.
  - rewrite IH. destruct (fireSuperseded ts w). reflexivity.
Qed.

Lemma tick_withFilters cats conds price sort w :
  tick (withFilters cats conds price sort w) = withFilters cats conds price sort (tick w).
Proof.
  unfold tick. change (superseded (withFilters cats conds price sort w)) with (superseded w).
  rewrite fireSuperseded_withFilters.
  destruct (fireSuperseded (superseded w) w) as [keep w1]. cbn [fst snd].
  change (debouncedSearch (withSuperseded keep (withFilters cats conds price sort w1)))
    with (debouncedSearch (withSuperseded keep w1)).
  destruct (pending (debouncedSearch (withSuperseded keep w1))) as [[a n]|]; [case_decide|].
  - apply (invoke_withFilters _ _ cats conds price sort
             (withDebounced _ (withSuperseded keep w1))).
  - reflexivity.
  - reflexivity.
Qed.

Lemma handle_withFilters e cats conds price sort w :
  operatesChip e = false →
  ∃ cats' conds' price' sort',
    handle e (withFilters cats conds price sort w) =
    withFilters cats' conds' price' sort' (handle e w).
Proof.
  intros He. destruct e; try discriminate; cbn [handle].
  all: try (destruct w as [[] ? ? ? ? ? ? ? ?]; cbn;
       repeat match goal with
       | |- context [if ?b then _ else _] => destruct b eqn:?; cbn
       | |- context [match ?o with Some _ => _ | None => _ end] => destruct o eqn:?; cbn
       end; do 4 eexists; unfold withFilters; cbn; reflexivity).
  - unfold onInputChange, loadSuggestionsBegin.
    destruct (bool_decide (v = EmptyString) || (lengthUtf16 v <? 2)%nat);
      do 4 eexists; reflexivity.
  - change (previousEnabled (view (withFilters cats conds price sort w)))
      with (previousEnabled (view w)).
    destruct (previousEnabled (view w)); do 4 eexists; reflexivity.
  - change (nextEnabled (view (withFilters cats conds price sort w)))
      with (nextEnabled (view w)).
    destruct (nextEnabled (view w)); do 4 eexists; reflexivity.
  - do 4 eexists. apply tick_withFilters.
  - unfold searchSettled.
    change (searchCalls (withFilters cats conds price sort w)) with (searchCalls w).
    destruct (searchCalls w !! call); [|do 4 eexists; reflexivity].
    destruct r as [[d [e|] c]|e]; do 4 eexists; reflexivity.
  - unfold suggestSettled.
    change (suggestCalls (withFilters cats conds price sort w)) with (suggestCalls w).
    destruct (suggestCalls w !! call); [|do 4 eexists; reflexivity].
    destruct r as [[d [e|]]|e]; do 4 eexists; reflexivity.
Qed.

(** Filters never reach a request: from two worlds that differ in the filter
    cells only, the same events (those that exist in both renders, which
    leaves out clicks on the chips of selected filters) lead to worlds that
    again differ in the filter cells only. *)
Lemma run_withFilters es : ∀ cats conds price sort w,
  forallb (λ e, negb (operatesChip e)) es = true →
  ∃ cats' conds' price' sort',
    run es (withFilters cats conds price sort w) =
    withFilters cats' conds' price' sort' (run es w).
Proof.
  induction es as [|e es IH]; intros cats conds price sort w Hes.
  - by do 4 eexists.
  - cbn in Hes. apply andb_true_iff in Hes as [He Hes]. apply negb_true_iff in He.
    destruct (handle_withFilters e cats conds price sort w He)
      as (cats' & conds' & price' & sort' & Hh).
    change (run (e :: es) (withFilters cats conds price sort w))
      with (run es (render (handle e (withFilters cats conds price sort w)))).
    change (run (e :: es) w) with (run es (render (handle e w))).
    rewrite Hh, render_withFilters.
    apply (IH cats' conds' price' sort' (render (handle e w)) Hes).
Qed.

Lemma filters_never_reach_requests es cats conds price sort w :
  forallb (λ e, negb (operatesChip e)) es = true →
  searchCalls (run es (withFilters cats conds price sort w)) = searchCalls (run es w).
Proof.
  intros Hes.
  destruct (run_withFilters es cats conds price sort w Hes) as (? & ? & ? & ? & ->).
  reflexivity.
Qed.

(** ** C6: changing the page *)

Lemma page_change_schedule (h : World) sp pg :
  dpage (debouncedSearch h) ≠ page (view h) →
  effectDeps h = Some (sp, pg, dgen (debouncedSearch h)) →
  let w1 := render h in
  let q := queryOf (view h) in
  (∀ n, (n < wait)%nat →
     pending (debouncedSearch (elapse n w1)) = Some (q, (wait - n)%nat) ∧
     dpage (debouncedSearch (elapse n w1)) = page (view h)) ∧
  pending (debouncedSearch (elapse wait w1)) = None ∧
  (q ≠ EmptyString →
   ∃ call, (nextCall h ≤ call)%nat ∧
     searchCalls (elapse wait w1) !! call = Some (searchRequest (page (view h)) q)).
Proof.
  intros Hne He. cbn zeta.
  pose proof (render_page_changed h sp pg Hne He) as Hd.
  pose proof (render_rendered h) as Hr.
  assert (pending (debouncedSearch (render h)) = Some (queryOf (view h), wait)) as Hpend
    by (rewrite Hd; reflexivity).
  assert (dpage (debouncedSearch (render h)) = page (view h)) as Hdp
    by (rewrite Hd; reflexivity).
  split.
  - intros n Hn.
    destruct (elapse_waiting n (render h) _ _ Hr Hpend Hn) as (_ & -> & -> & _). done.
  - change wait with (S 299). rewrite elapse_snoc.
    destruct (elapse_waiting 299 (render h) _ _ Hr Hpend ltac:(unfold wait; lia))
      as (Hr' & Hp' & Hd' & Hn').
    rewrite step_Tick_rendered by done.
    destruct (tick_firing (elapse 299 (render h)) (queryOf (view h)) 1 Hp' ltac:(lia))
      as [Hnone Hcall].
    split; [done|]. intros Hq. destruct (Hcall Hq) as (call & Hge & Hlook).
    exists call. rewrite render_nextCall in Hn'. split; [lia|].
    rewrite Hlook, Hd', Hdp. done.
Qed.

(** C6 as the specification words it does not hold of the page: Next is
    clicked on page 1 of the lamp search; no request is sent by the click,
    none during the next 299 ms, and the request for the rows 12 to 23 is
    sent at 300 ms. *)
Lemma page_change_is_debounced :
  let w1 := step NextClick lampLoaded in
  page (view w1) = 2 ∧
  searchCalls lampLoaded = ∅ ∧
  searchCalls w1 = ∅ ∧
  searchCalls (elapse 299 w1) = ∅ ∧
  searchCalls (elapse 300 w1) !! 1%nat = Some (searchRequest 2 "lamp") ∧
  sr_range (searchRequest 2 "lamp") = (12, 23).
Proof. vm_compute. repeat split. Qed.

(** C6, amended. Changing the page with Previous or Next replaces the
    debounced search by one made for the new page and schedules the search
    through it: the click sends no request; for the next 300 ms the timer
    of that function is still armed, so it has not been invoked; at 300 ms,
    when nothing else has happened meanwhile, it fires, and if the query is
    not empty it sends the request for the inclusive row range
    [(page-1)*12, page*12 - 1] of the new page. *)
Theorem page_change_fetches_after_wait (w : World) (e : Event) (p' : Z) :
  rendered w →
  (e = NextClick ∧ nextEnabled (view w) = true ∧ p' = page (view w) + 1) ∨
  (e = PreviousClick ∧ previousEnabled (view w) = true ∧ p' = page (view w) - 1) →
  let w1 := step e w in
  let q := queryOf (view w) in
  page (view w1) = p' ∧
  searchCalls w1 = searchCalls w ∧
  nextCall w1 = nextCall w ∧
  (∀ n, (n < wait)%nat →
     pending (debouncedSearch (elapse n w1)) = Some (q, (wait - n)%nat) ∧
     dpage (debouncedSearch (elapse n w1)) = p') ∧
  pending (debouncedSearch (elapse wait w1)) = None ∧
  (q ≠ EmptyString →
   ∃ call, (nextCall w ≤ call)%nat ∧
     searchCalls (elapse wait w1) !! call = Some (searchRequest p' q)) ∧
  sr_range (searchRequest p' q) = ((p' - 1) * 12, p' * 12 - 1).
Proof.
  intros [Hdp Hdeps] He. cbn zeta. unfold step.
  rewrite render_view, render_searchCalls, render_nextCall.
  assert (∃ h, handle e w = h ∧ page (view h) = p' ∧
               searchParams (view h) = searchParams (view w) ∧
               debouncedSearch h = debouncedSearch w ∧ effectDeps h = effectDeps w ∧
               searchCalls h = searchCalls w ∧ nextCall h = nextCall w ∧
               p' ≠ page (view w)) as (h & -> & Hp & Hq & Hd & Hed & Hc & Hn & Hne).
  { destruct He as [(-> & Hen & ->) | (-> & Hen & ->)]; cbn [handle]; rewrite Hen;
      (eexists; split; [reflexivity|]); cbn; repeat split; lia. }
  destruct (page_change_schedule h (searchParams (view w)) (page (view w)))
    as (Hwait & Hnone & Hcall).
  { rewrite Hd, Hdp, Hp. done. }
  { rewrite Hed, Hd. done. }
  unfold queryOf in *. rewrite Hq, Hp, Hn in *.
  repeat (split; [done|]). reflexivity.
Qed.

Lemma page_change_fetches_after_wait_witness :
  let w1 := step NextClick lampLoaded in
  page (view w1) = 2 ∧ searchCalls w1 = searchCalls lampLoaded ∧
  pending (debouncedSearch (elapse wait w1)) = None.
Proof.
  assert (rendered lampLoaded) as Hr by apply step_rendered.
  assert (nextEnabled (view lampLoaded) = true) as Hen by (vm_compute; reflexivity).
  assert (2 = page (view lampLoaded) + 1) as Hp by (vm_compute; reflexivity).
  pose proof (page_change_fetches_after_wait lampLoaded NextClick 2 Hr
                (or_introl (conj eq_refl (conj Hen Hp)))) as H.
  destruct H as (H1 & H2 & _ & _ & H5 & _).
  exact (conj H1 (conj H2 H5)).
Defined.

Lemma query_change_resets_page_witness :
  let w' := step (InputChange "table") (step NextClick lampLoaded) in
  queryOf (view w') = "table" ∧ page (view w') = 1 ∧ dpage (debouncedSearch w') = 1.
Proof.
  pose proof (query_change_resets_page (step NextClick lampLoaded) (InputChange "table")
                "table" (or_introl eq_refl)) as H.
  destruct H as (H1 & H2 & H3 & _).
  exact (conj H1 (conj H2 H3)).
Defined.

Lemma tick_quiet w a m :
  superseded w = [] → pending (debouncedSearch w) = Some (a, m) → (1 < m)%nat →
  tick w =
  withDebounced {| dpage := dpage (debouncedSearch w); dgen := dgen (debouncedSearch w);
                   pending := Some (a, pred m) |} w.
Proof.
  intros Hs Hp Hm. destruct w as [st d deps ts sc gc nc co un]. cbn in *. subst ts.
  unfold tick. cbn. rewrite Hp, decide_False by lia. reflexivity.
Qed.

Lemma tick_fire_quiet w a m :
  superseded w = [] → pending (debouncedSearch w) = Some (a, m) → (m ≤ 1)%nat →
  tick w =
  invoke (dpage (debouncedSearch w)) a
    (withDebounced {| dpage := dpage (debouncedSearch w); dgen := dgen (debouncedSearch w);
                      pending := None |} w).
Proof.
  intros Hs Hp Hm. destruct w as [st d deps ts sc gc nc co un]. cbn in *. subst ts.
  unfold tick. cbn. rewrite Hp, decide_True by lia. reflexivity.
Qed.

Lemma tick_idle w :
  superseded w = [] → pending (debouncedSearch w) = None → tick w = w.
Proof.
  intros Hs Hp. destruct w as [st d deps ts sc gc nc co un]. cbn in *. subst ts.
  unfold tick. cbn. rewrite Hp. reflexivity.
Qed.

Lemma elapse_quiet n : ∀ w a m,
  rendered w → superseded w = [] →
  pending (debouncedSearch w) = Some (a, m) → (n < m)%nat →
  elapse n w =
  withDebounced {| dpage := dpage (debouncedSearch w); dgen := dgen (debouncedSearch w);
                   pending := Some (a, (m - n)%nat) |} w.
Proof.
  induction n as [|n IH]; intros w a m Hr Hs Hp Hn.
  - destruct w as [st [dp dg pe] deps ts sc gc nc co un]. cbn in *. subst pe.
    rewrite Nat.sub_0_r. reflexivity.
  - rewrite elapse_S, step_Tick_rendered by done.
    rewrite (tick_quiet w a m) by (done || lia).
    rewrite (IH _ a (pred m)).
    + cbn. replace (pred m - n)%nat with (m - S n)%nat by lia. reflexivity.
    + destruct Hr as [H1 H2]. split; cbn; done.
    + done.
    + done.
    + lia.
Qed.

Lemma elapse_idle n : ∀ w,
  rendered w → superseded w = [] → pending (debouncedSearch w) = None →
  elapse n w = w.
Proof.
  induction n as [|n IH]; intros w Hr Hs Hp; [done|].
  rewrite elapse_S, step_Tick_rendered by done.
  rewrite tick_idle by done. by apply IH.
Qed.


Lemma elapse_add n m w : elapse (n + m) w = elapse m (elapse n w).
Proof. unfold elapse, run. rewrite replicate_add, foldl_app. reflexivity. Qed.

(** A scheduled search with no other timer around: nothing is sent while
    the timer counts down, and the request goes out when it fires. *)
Lemma scheduled_fires w a m :
  rendered w → superseded w = [] →
  pending (debouncedSearch w) = Some (a, S m) →
  (∀ k, (k ≤ m)%nat →
     searchCalls (elapse k w) = searchCalls w ∧ nextCall (elapse k w) = nextCall w ∧
     view (elapse k w) = view w) ∧
  pending (debouncedSearch (elapse (S m) w)) = None ∧
  superseded (elapse (S m) w) = [] ∧
  rendered (elapse (S m) w) ∧
  (a ≠ EmptyString →
     searchCalls (elapse (S m) w) =
       <[nextCall w := searchRequest (dpage (debouncedSearch w)) a]> (searchCalls w) ∧
     loading (view (elapse (S m) w)) = true) ∧
  (a = EmptyString →
     searchCalls (elapse (S m) w) = searchCalls w ∧ view (elapse (S m) w) = view w).
Proof.
  intros Hr Hs Hp.
  assert (∀ k, (k ≤ m)%nat → elapse k w =
    withDebounced {| dpage := dpage (debouncedSearch w); dgen := dgen (debouncedSearch w);
                     pending := Some (a, (S m - k)%nat) |} w) as Hq.
  { intros k Hk. apply elapse_quiet; (done || lia). }
  split; [intros k Hk; rewrite (Hq k Hk); done|].
  rewrite elapse_snoc, (Hq m) by lia.
  replace (S m - m)%nat with 1%nat by lia.
  rewrite step_Tick_rendered by (destruct Hr; split; done).
  rewrite (tick_fire_quiet _ a 1) by (done || lia). cbn [debouncedSearch withDebounced dpage dgen].
  unfold invoke, searchBegin. case_decide as Ha; cbn.
  - repeat split; try done; try (by destruct Hr).
  - repeat split; try done; try (by destruct Hr).
Qed.


Lemma mount_state q :
  rendered (mount q) ∧ superseded (mount q) = [] ∧
  pending (debouncedSearch (mount q)) = Some (queryOf (initialState q), wait) ∧
  dpage (debouncedSearch (mount q)) = 1 ∧
  searchCalls (mount q) = ∅ ∧ suggestCalls (mount q) = ∅ ∧ nextCall (mount q) = 0%nat ∧
  view (mount q) = initialState q.
Proof. split; [apply render_rendered|]. repeat split. Qed.

(** X12. Opening the page on a non-empty [q] parameter sends nothing and shows
    no spinner during the debounce wait, sends exactly one search call at the
    end of it, for page 1 and that text, with [loading] set, and sends no other
    call however long the page is then left alone. *)
Theorem mount_sends_one_search (q : string) :
  q ≠ EmptyString →
  (∀ n, (n < wait)%nat →
     searchCalls (elapse n (mount (Some q))) = ∅ ∧
     loading (view (elapse n (mount (Some q)))) = false) ∧
  searchCalls (elapse wait (mount (Some q))) = {[ 0%nat := searchRequest 1 q ]} ∧
  loading (view (elapse wait (mount (Some q)))) = true ∧
  ∀ n, (wait ≤ n)%nat →
    searchCalls (elapse n (mount (Some q))) = {[ 0%nat := searchRequest 1 q ]}.
Proof.
  intros Hq.
  destruct (mount_state (Some q)) as (Hr & Hs & Hp & Hd & Hc & _ & Hn & Hv).
  destruct (scheduled_fires (mount (Some q)) q 299 Hr Hs Hp)
    as (Hquiet & Hnone & Hs' & Hr' & Hfire & _).
  destruct (Hfire Hq) as [Hcalls Hload].
  rewrite Hd, Hc, Hn in Hcalls.
  split; [|split; [exact Hcalls | split; [exact Hload|]]].
  - intros n Hlt. destruct (Hquiet n) as (-> & _ & ->); [unfold wait in Hlt; lia|].
    rewrite Hc, Hv. split; reflexivity.
  - intros n Hn'. replace n with (wait + (n - wait))%nat by lia.
    rewrite elapse_add, elapse_idle by done. exact Hcalls.
Qed.

(** X13. Opening the page without a [q] parameter, or with an empty one, never
    sends a search call, however long the page is left alone: the results stay
    empty, the total 0 and [loading] false. *)
Theorem mount_without_query_sends_nothing (q : option string) (n : nat) :
  queryOf (initialState q) = EmptyString →
  searchCalls (elapse n (mount q)) = ∅ ∧
  resultPage (elapse n (mount q)) = ([], 0) ∧
  loading (view (elapse n (mount q))) = false.
Proof.
  intros Hq.
  destruct (mount_state q) as (Hr & Hs & Hp & Hd & Hc & _ & Hn & Hv).
  destruct (scheduled_fires (mount q) _ 299 Hr Hs Hp)
    as (Hquiet & Hnone & Hs' & Hr' & _ & Hempty).
  destruct (Hempty Hq) as [Hcalls Hview].
  destruct (decide (n < wait)%nat) as [Hlt|Hge].
  - destruct (Hquiet n) as (Hc' & _ & Hv'); [unfold wait in Hlt; lia|].
    unfold resultPage. rewrite Hc', Hv', Hc, Hv. repeat split; reflexivity.
  - replace n with (wait + (n - wait))%nat by lia.
    rewrite elapse_add, elapse_idle by done.
    unfold resultPage. change (S 299) with wait in *. rewrite Hcalls, Hview, Hc, Hv.
    repeat split; reflexivity.
Qed.


Lemma handle_InputChange_frame v w :
  superseded (handle (InputChange v) w) = superseded w ∧
  searchCalls (handle (InputChange v) w) = searchCalls w ∧
  (nextCall w ≤ nextCall (handle (InputChange v) w))%nat.
Proof.
  cbn [handle]. unfold onInputChange, loadSuggestionsBegin.
  destruct (bool_decide (v = EmptyString) || (lengthUtf16 v <? 2)%nat); cbn;
    repeat split; lia.
Qed.

Lemma render_superseded_same w :
  dpage (debouncedSearch w) = page (view w) ∨ pending (debouncedSearch w) = None →
  superseded (render w) = superseded w.
Proof.
  intros H. unfold render.
  assert (∀ x, superseded (useEffectStep x) = superseded x) as ->
    by (intros x; unfold useEffectStep; case_decide; reflexivity).
  unfold useCallbackStep. case_decide as Hd; [reflexivity|]. cbn.
  destruct H as [H|H]; [done|]. rewrite H. apply app_nil_r.
Qed.

(** A render after the query changed: the effect calls the debounced
    function with the new query. *)
Lemma render_query_changed h sp pg g :
  effectDeps h = Some (sp, pg, g) → sp ≠ searchParams (view h) →
  pending (debouncedSearch (render h)) = Some (queryOf (view h), wait).
Proof.
  intros He Hne. unfold render, useEffectStep.
  rewrite useCallbackStep_view, useCallbackStep_effectDeps, He.
  rewrite decide_False; [reflexivity|]. intros [= ? _]. congruence.
Qed.

(** Typing a new text with no superseded timer around: the one debounced
    function of page 1 is armed with the text. *)
Lemma input_schedules w v :
  rendered w → superseded w = [] →
  page (view w) = 1 ∨ pending (debouncedSearch w) = None →
  searchParams (view w) ≠ Some v →
  let w1 := step (InputChange v) w in
  rendered w1 ∧ page (view w1) = 1 ∧ searchParams (view w1) = Some v ∧
  pending (debouncedSearch w1) = Some (v, wait) ∧
  dpage (debouncedSearch w1) = 1 ∧
  superseded w1 = [] ∧ searchCalls w1 = searchCalls w.
Proof.
  intros Hr Hs Hor Hne. cbn zeta.
  destruct (query_handlers_effect w (InputChange v) v (or_introl eq_refl))
    as (Hq' & Hp' & Hd' & Hdeps').
  destruct (handle_InputChange_frame v w) as (Hs' & Hc' & _).
  split; [apply step_rendered|]. unfold step.
  rewrite render_view, render_dpage, render_searchCalls.
  split; [done|]. split; [done|]. split.
  { rewrite (render_query_changed _ (searchParams (view w)) (page (view w))
               (dgen (debouncedSearch w))).
    - unfold queryOf. by rewrite Hq'.
    - rewrite Hdeps'. by destruct Hr.
    - rewrite Hq'. done. }
  split; [done|].
  rewrite render_superseded_same, Hs', Hs; [done|].
  rewrite Hd', Hp'. destruct Hr as [Hdp _]. destruct Hor as [H1|H1]; [left; congruence | by right].
Qed.

(** X1. Two texts typed less than the debounce wait apart collapse into one
    search.  From a rendered world with no timer armed, [v1] is typed, then
    [v2] after [n < wait] ticks: no search call is added before [wait] ticks
    after the second keystroke, exactly one call is added at that tick, for page
    1 and the text [v2], and no further call follows as time passes; [v1] is
    never searched. *)
Theorem typing_within_window_collapses (w : World) (v1 v2 : string) (n : nat) :
  rendered w → superseded w = [] → pending (debouncedSearch w) = None →
  searchParams (view w) ≠ Some v1 → v1 ≠ v2 → v2 ≠ EmptyString → (n < wait)%nat →
  let w2 := step (InputChange v2) (elapse n (step (InputChange v1) w)) in
  (∀ k, (k < wait)%nat → searchCalls (elapse k w2) = searchCalls w) ∧
  searchCalls (elapse wait w2) = <[nextCall w2 := searchRequest 1 v2]> (searchCalls w) ∧
  ∀ k, (wait ≤ k)%nat →
    searchCalls (elapse k w2) = <[nextCall w2 := searchRequest 1 v2]> (searchCalls w).
Proof.
  intros Hr Hs Hp Hne1 Hne Hv2 Hn. cbn zeta.
  destruct (input_schedules w v1 Hr Hs (or_intror Hp) Hne1)
    as (Hr1 & Hp1 & Hq1 & Hpend1 & Hd1 & Hs1 & Hc1).
  set (w1 := step (InputChange v1) w) in *.
  pose proof (elapse_quiet n w1 v1 wait Hr1 Hs1 Hpend1 Hn) as Hx.
  set (x := elapse n w1) in *.
  assert (rendered x ∧ superseded x = [] ∧ page (view x) = 1 ∧
          searchParams (view x) = Some v1 ∧ searchCalls x = searchCalls w) as
    (Hrx & Hsx & Hpx & Hqx & Hcx).
  { rewrite Hx. destruct Hr1 as [H1 H2]. repeat split; cbn; congruence. }
  destruct (input_schedules x v2 Hrx Hsx (or_introl Hpx)) as (Hr2 & Hp2 & Hq2 & Hpend2 & Hd2 & Hs2 & Hc2).
  { rewrite Hqx. congruence. }
  set (w2 := step (InputChange v2) x) in *.
  destruct (scheduled_fires w2 v2 299 Hr2 Hs2 Hpend2)
    as (Hquiet & Hnone & Hs' & Hr' & Hfire & _).
  destruct (Hfire Hv2) as [Hcalls _]. rewrite Hd2, Hc2, Hcx in Hcalls.
  split; [|split; [exact Hcalls|]].
  - intros k Hk. destruct (Hquiet k) as (-> & _); [unfold wait in Hk; lia|]. congruence.
  - intros k Hk. replace k with (wait + (k - wait))%nat by lia.
    rewrite elapse_add, elapse_idle by done. exact Hcalls.
Qed.


(** ** Superseded timers *)

Lemma invoke_lookup_below p q w k :
  (k < nextCall w)%nat → searchCalls (invoke p q w) !! k = searchCalls w !! k.
Proof.
  intros Hk. unfold invoke, searchBegin. case_decide; [done|]. cbn.
  apply lookup_insert_ne. lia.
Qed.

Lemma fireSuperseded_lookup_below ts : ∀ w k,
  (k < nextCall w)%nat →
  searchCalls (snd (fireSuperseded ts w)) !! k = searchCalls w !! k.
Proof.
  induction ts as [|t ts IH]; intros w k Hk; cbn [fireSuperseded]; [done|].
  case_decide.
  - rewrite IH; [by apply invoke_lookup_below|].
    destruct (invoke_frame (tpage t) (targs t) w) as (_ & _ & _ & _ & _ & Hn). lia.
  - specialize (IH w k Hk). destruct (fireSuperseded ts w). exact IH.
Qed.

Lemma fireSuperseded_fires ts : ∀ w t,
  t ∈ ts → (tleft t ≤ 1)%nat → targs t ≠ EmptyString →
  ∃ call, (call < nextCall (snd (fireSuperseded ts w)))%nat ∧
    searchCalls (snd (fireSuperseded ts w)) !! call =
      Some (searchRequest (tpage t) (targs t)).
Proof.
  induction ts as [|t0 ts IH]; intros w t Hin Hle Hq; [by apply elem_of_nil in Hin|].
  cbn [fireSuperseded]. apply elem_of_cons in Hin as [->|Hin].
  - rewrite decide_True by done.
    destruct (invoke_calls (tpage t0) (targs t0) w Hq) as [Hc Hn].
    pose proof (fireSuperseded_frame ts (invoke (tpage t0) (targs t0) w))
      as (_ & _ & _ & _ & _ & Hmono).
    exists (nextCall w). split; [lia|].
    rewrite fireSuperseded_lookup_below by lia. rewrite Hc. apply lookup_insert_eq.
  - case_decide.
    + by apply IH.
    + specialize (IH w t Hin Hle Hq). destruct (fireSuperseded ts w). exact IH.
Qed.

Lemma fireSuperseded_keeps ts : ∀ w t,
  t ∈ ts → (1 < tleft t)%nat →
  {| tpage := tpage t; targs := targs t; tleft := pred (tleft t) |}
    ∈ fst (fireSuperseded ts w).
Proof.
  induction ts as [|t0 ts IH]; intros w t Hin Hlt; [by apply elem_of_nil in Hin|].
  cbn [fireSuperseded]. apply elem_of_cons in Hin as [->|Hin].
  - rewrite decide_False by lia. destruct (fireSuperseded ts w). cbn. apply elem_of_cons. by left.
  - case_decide.
    + by apply IH.
    + specialize (IH w t Hin Hlt). destruct (fireSuperseded ts w). cbn in *.
      apply elem_of_cons. by right.
Qed.

Lemma tick_superseded w : superseded (tick w) = fst (fireSuperseded (superseded w) w).
Proof.
  unfold tick. destruct (fireSuperseded (superseded w) w) as [keep w1]. cbn.
  destruct (pending (debouncedSearch w1)) as [[a n]|]; [case_decide|]; try reflexivity.
  match goal with |- context [invoke ?p ?q ?x] =>
    destruct (invoke_frame p q x) as (_ & _ & -> & _) end. reflexivity.
Qed.

Lemma tick_fires_superseded w t :
  t ∈ superseded w → (tleft t ≤ 1)%nat → targs t ≠ EmptyString →
  ∃ call, searchCalls (tick w) !! call = Some (searchRequest (tpage t) (targs t)).
Proof.
  intros Hin Hle Hq. unfold tick.
  destruct (fireSuperseded_fires (superseded w) w t Hin Hle Hq) as (call & Hlt & Hcall).
  destruct (fireSuperseded (superseded w) w) as [keep w1]. cbn in *.
  exists call.
  destruct (pending (debouncedSearch w1)) as [[a n]|]; [case_decide|]; try exact Hcall.
  rewrite invoke_lookup_below by (cbn; lia). exact Hcall.
Qed.

Lemma superseded_fires n : ∀ w t,
  rendered w → t ∈ superseded w → tleft t = S n → targs t ≠ EmptyString →
  ∃ call, searchCalls (elapse (S n) w) !! call = Some (searchRequest (tpage t) (targs t)).
Proof.
  induction n as [|n IH]; intros w t Hr Hin Hleft Hq.
  - rewrite elapse_S, step_Tick_rendered by done. cbn.
    apply tick_fires_superseded; (done || lia).
  - rewrite elapse_S, step_Tick_rendered by done.
    apply (IH (tick w) {| tpage := tpage t; targs := targs t; tleft := pred (tleft t) |}).
    + by apply tick_rendered.
    + rewrite tick_superseded. apply fireSuperseded_keeps; [done | lia].
    + cbn. lia.
    + done.
Qed.

Lemma render_supersedes h a m :
  dpage (debouncedSearch h) ≠ page (view h) →
  pending (debouncedSearch h) = Some (a, m) →
  superseded (render h) =
    (superseded h ++ [ {| tpage := dpage (debouncedSearch h); targs := a; tleft := m |} ])%list.
Proof.
  intros Hne Hp. unfold render.
  assert (∀ x, superseded (useEffectStep x) = superseded x) as ->
    by (intros x; unfold useEffectStep; case_decide; reflexivity).
  unfold useCallbackStep. rewrite decide_False by done. cbn. rewrite Hp. reflexivity.
Qed.

(** X2. A page change does not cancel the search that is already scheduled.
    With a search of the text [a] armed for the current page, an enabled
    Previous or Next click changes the page, and when the old timer runs out
    the request for the page that was left is still sent: the re-created
    debounced function owns a new timer and the old one is never cleared. *)
Theorem page_change_keeps_old_timer (w : World) (e : Event) (a : string) (n : nat) :
  rendered w →
  pending (debouncedSearch w) = Some (a, S n) →
  a ≠ EmptyString →
  (e = NextClick ∧ nextEnabled (view w) = true) ∨
  (e = PreviousClick ∧ previousEnabled (view w) = true) →
  page (view (step e w)) ≠ page (view w) ∧
  ∃ call,
    searchCalls (elapse (S n) (step e w)) !! call = Some (searchRequest (page (view w)) a).
Proof.
  intros [Hdp Hdeps] Hp Ha He.
  assert (∃ h, handle e w = h ∧ page (view h) ≠ page (view w) ∧
               debouncedSearch h = debouncedSearch w ∧ superseded h = superseded w)
    as (h & Hh & Hne & Hd & Hs).
  { destruct He as [(-> & Hen) | (-> & Hen)]; cbn [handle]; rewrite Hen;
      (eexists; split; [reflexivity|]); cbn; repeat split; lia. }
  unfold step. rewrite Hh, render_view. split; [done|].
  rewrite <- Hdp.
  apply (superseded_fires n (render h)
           {| tpage := dpage (debouncedSearch w); targs := a; tleft := S n |}).
  - apply render_rendered.
  - rewrite (render_supersedes h a (S n)); [|rewrite Hd; congruence|rewrite Hd; done].
    rewrite Hd. apply elem_of_app. right. apply list_elem_of_singleton. reflexivity.
  - reflexivity.
  - done.
Qed.


(** ** Invariants of the page *)

Lemma invoke_pagesFromOne p q w : 1 ≤ p → pagesFromOne w → pagesFromOne (invoke p q w).
Proof.
  intros Hp (H1 & H2 & H3 & H4). unfold invoke, searchBegin.
  case_decide; [done|]. cbn. repeat split; try done.
  apply map_Forall_insert_2; [|done]. by exists p, q.
Qed.

Lemma fireSuperseded_pagesFromOne ts : ∀ w,
  Forall (λ t, 1 ≤ tpage t) ts → pagesFromOne w →
  Forall (λ t, 1 ≤ tpage t) (fst (fireSuperseded ts w)) ∧
  pagesFromOne (snd (fireSuperseded ts w)).
Proof.
  induction ts as [|t ts IH]; intros w Hts Hw; cbn [fireSuperseded]; [done|].
  apply Forall_cons in Hts as [Ht Hts]. case_decide.
  - apply IH; [done|]. by apply invoke_pagesFromOne.
  - specialize (IH w Hts Hw). destruct (fireSuperseded ts w) as [keep w1].
    cbn in *. destruct IH. split; [|done]. by apply Forall_cons.
Qed.

Lemma tick_pagesFromOne w : pagesFromOne w → pagesFromOne (tick w).
Proof.
  intros Hw. unfold tick.
  destruct (fireSuperseded_pagesFromOne (superseded w) w) as [Hk Hw1];
    [by destruct Hw as (_ & _ & ? & _) | done |].
  destruct (fireSuperseded (superseded w) w) as [keep w1]. cbn in *.
  destruct Hw1 as (H1 & H2 & H3 & H4).
  destruct (pending (debouncedSearch w1)) as [[a n]|]; [case_decide|].
  - apply invoke_pagesFromOne; [done|]. repeat split; done.
  - repeat split; done.
  - repeat split; done.
Qed.

Lemma render_pagesFromOne w : pagesFromOne w → pagesFromOne (render w).
Proof.
  intros (H1 & H2 & H3 & H4).
  unfold render, useEffectStep, useCallbackStep, callDebounced.
  repeat (case_decide; cbn); repeat split; try done.
  all: apply Forall_app; split; [done|];
    destruct (pending (debouncedSearch w)) as [[a n]|]; [|done];
    by apply Forall_singleton.
Qed.

Lemma searchSettled_pagesFromOne call r w :
  pagesFromOne w → pagesFromOne (searchSettled call r w).
Proof.
  intros (H1 & H2 & H3 & H4). unfold searchSettled.
  destruct (searchCalls w !! call); [|done].
  assert (map_Forall (λ _ r, wellFormedRequest r) (delete call (searchCalls w))) as Hd
    by (by apply map_Forall_delete).
  destruct r as [[d [e|] c]|e]; repeat split; done.
Qed.

Lemma suggestSettled_pagesFromOne call r w :
  pagesFromOne w → pagesFromOne (suggestSettled call r w).
Proof.
  intros (H1 & H2 & H3 & H4). unfold suggestSettled.
  destruct (suggestCalls w !! call); [|done].
  destruct r as [[d [e|]]|e]; repeat split; done.
Qed.

Lemma previousEnabled_page st : previousEnabled st = true → page st ≠ 1.
Proof.
  unfold previousEnabled, renderResults, renderPagination.
  destruct (loading st); [done|]. case_bool_decide; [|done]. case_bool_decide; [|done].
  cbn. rewrite negb_true_iff, bool_decide_eq_false. done.
Qed.

Lemma nextEnabled_page st : nextEnabled st = true → page st < pageCount (totalResults st).
Proof.
  unfold nextEnabled, renderResults, renderPagination.
  destruct (loading st); [done|]. case_bool_decide; [|done]. case_bool_decide; [|done].
  cbn. rewrite negb_true_iff, bool_decide_eq_false. lia.
Qed.

Lemma handle_pagesFromOne e w : pagesFromOne w → pagesFromOne (handle e w).
Proof.
  intros Hw. destruct e; cbn [handle];
    try (by apply tick_pagesFromOne);
    try (by apply searchSettled_pagesFromOne);
    try (by apply suggestSettled_pagesFromOne).
  all: destruct Hw as (H1 & H2 & H3 & H4).
  - unfold onInputChange, loadSuggestionsBegin.
    destruct (bool_decide (v = EmptyString) || (lengthUtf16 v <? 2)%nat);
      repeat split; done.
  - destruct (suggestions (view w) !! index); repeat split; done.
  - repeat split; done.
  - repeat split; done.
  - repeat split; done.
  - destruct (showFilters (view w) && bool_decide (c ∈ categories)); repeat split; done.
  - destruct (showFilters (view w) && bool_decide (c ∈ value <$> conditions));
      repeat split; done.
  - destruct (showFilters (view w)); repeat split; done.
  - destruct (showFilters (view w)); repeat split; done.
  - destruct (showFilters (view w) && bool_decide (c ∈ selectedCategories (view w)));
      repeat split; done.
  - destruct (showFilters (view w) && bool_decide (c ∈ selectedConditions (view w)));
      repeat split; done.
  - destruct (previousEnabled (view w)) eqn:E; [|repeat split; done].
    apply previousEnabled_page in E. repeat split; try done. cbn. lia.
  - destruct (nextEnabled (view w)) eqn:E; [|repeat split; done].
    repeat split; try done. cbn. lia.
Qed.

Lemma step_pagesFromOne e w : pagesFromOne w → pagesFromOne (step e w).
Proof. intros H. by apply render_pagesFromOne, handle_pagesFromOne. Qed.

Lemma run_pagesFromOne es : ∀ w, pagesFromOne w → pagesFromOne (run es w).
Proof.
  induction es as [|e es IH]; intros w Hw; [done|].
  apply (IH (step e w)). by apply step_pagesFromOne.
Qed.

Lemma mount_pagesFromOne q : pagesFromOne (mount q).
Proof.
  apply render_pagesFromOne. repeat split; try done.
Qed.

(** X3. Whatever the events since the page was opened, the page number is at
    least 1 and every search call in flight asks for the rows of some page
    [p >= 1], a range [12 (p - 1) .. 12 (p - 1) + 11] that starts at a row that
    is not negative. *)
Theorem page_never_below_one (q : option string) (es : list Event) :
  let w := run es (mount q) in
  1 ≤ page (view w) ∧
  ∀ call r, searchCalls w !! call = Some r →
    ∃ p, 1 ≤ p ∧ sr_range r = (12 * (p - 1), 12 * (p - 1) + 11) ∧
         0 ≤ fst (sr_range r).
Proof.
  cbn zeta.
  destruct (run_pagesFromOne es (mount q) (mount_pagesFromOne q)) as (H1 & _ & _ & H4).
  split; [done|]. intros call r Hr.
  destruct (H4 call r Hr) as (p & a & Hp & ->). exists p.
  unfold searchRequest, ITEMS_PER_PAGE. cbn. repeat split; (done || f_equal; lia).
Qed.


(** ** The selected filters *)

Lemma toggled_NoDup c l : NoDup l → NoDup (toggled c l).
Proof.
  intros Hl. unfold toggled. case_bool_decide as Hc; cbn.
  - by apply NoDup_filter.
  - apply NoDup_app. split; [done|]. split; [|apply NoDup_singleton].
    intros x Hx Hx'. apply list_elem_of_singleton in Hx'. congruence.
Qed.

Lemma toggled_subseteq c l k : c ∈ k → l ⊆ k → toggled c l ⊆ k.
Proof.
  intros Hc Hl x. unfold toggled. case_bool_decide; cbn.
  - rewrite elem_of_without. intros [Hx _]. by apply Hl.
  - rewrite elem_of_app, list_elem_of_singleton. intros [Hx| ->]; [by apply Hl | done].
Qed.

Lemma without_subseteq c l k : l ⊆ k → without c l ⊆ k.
Proof. intros Hl x. rewrite elem_of_without. intros [Hx _]. by apply Hl. Qed.

Lemma tick_selected w :
  selectedCategories (view (tick w)) = selectedCategories (view w) ∧
  selectedConditions (view (tick w)) = selectedConditions (view w).
Proof.
  assert (w = withFilters (selectedCategories (view w)) (selectedConditions (view w))
                (priceRange (view w)) (sortBy (view w)) w) as E
    by (destruct w as [[] ? ? ? ? ? ? ? ?]; reflexivity).
  pose proof (tick_withFilters (selectedCategories (view w)) (selectedConditions (view w))
                (priceRange (view w)) (sortBy (view w)) w) as H.
  rewrite <- E in H. rewrite H. split; reflexivity.
Qed.

Lemma handle_filtersTidy e w : filtersTidy (view w) → filtersTidy (view (handle e w)).
Proof.
  intros (H1 & H2 & H3 & H4). destruct e; cbn [handle].
  - unfold onInputChange, loadSuggestionsBegin.
    destruct (bool_decide (v = EmptyString) || (lengthUtf16 v <? 2)%nat); done.
  - destruct (suggestions (view w) !! index); done.
  - done.
  - done.
  - done.
  - destruct (showFilters (view w)); [|done]. cbn [andb].
    case_bool_decide as Hc; [|done].
    unfold filtersTidy. rewrite selectedCategories_click.
    split; [by apply toggled_NoDup|]. split; [by apply toggled_subseteq|].
    unfold clickCondition, clickCategory.
    destruct (categoryChecked (view w) c); done.
  - destruct (showFilters (view w)); [|done]. cbn [andb].
    case_bool_decide as Hc; [|done].
    unfold filtersTidy. rewrite selectedConditions_click.
    assert (selectedCategories (view (clickCondition c w)) = selectedCategories (view w)) as ->
      by (unfold clickCondition; destruct (conditionChecked (view w) c); reflexivity).
    split; [done|]. split; [done|].
    split; [by apply toggled_NoDup | by apply toggled_subseteq].
  - destruct (showFilters (view w)); done.
  - destruct (showFilters (view w)); done.
  - destruct (showFilters (view w) && bool_decide (c ∈ selectedCategories (view w))); [|done].
    split; [by apply NoDup_filter|]. split; [by apply without_subseteq|]. done.
  - destruct (showFilters (view w) && bool_decide (c ∈ selectedConditions (view w))); [|done].
    split; [done|]. split; [done|].
    split; [by apply NoDup_filter | by apply without_subseteq].
  - destruct (previousEnabled (view w)); done.
  - destruct (nextEnabled (view w)); done.
  - destruct (tick_selected w) as [E1 E2]. unfold filtersTidy. rewrite E1, E2. done.
  - unfold searchSettled. destruct (searchCalls w !! call); [|done].
    destruct r as [[d [e|] c]|e]; done.
  - unfold suggestSettled. destruct (suggestCalls w !! call); [|done].
    destruct r as [[d [e|]]|e]; done.
Qed.

Lemma run_filtersTidy es : ∀ w, filtersTidy (view w) → filtersTidy (view (run es w)).
Proof.
  induction es as [|e es IH]; intros w Hw; [done|].
  apply (IH (step e w)). unfold step. rewrite render_view. by apply handle_filtersTidy.
Qed.

(** X4. Whatever the events since the page was opened, the selected categories
    and the selected conditions hold no value twice and only values of the
    lists the checkboxes are drawn from. *)
Theorem filters_stay_tidy (q : option string) (es : list Event) :
  filtersTidy (view (run es (mount q))).
Proof.
  apply run_filtersTidy. unfold mount. rewrite render_view.
  repeat split; try apply NoDup_nil_2; apply list_subseteq_nil.
Qed.




Lemma handle_changesFilter e w :
  changesFilter e = true →
  debouncedSearch (handle e w) = debouncedSearch w ∧
  effectDeps (handle e w) = effectDeps w ∧
  superseded (handle e w) = superseded w ∧
  searchCalls (handle e w) = searchCalls w ∧
  suggestCalls (handle e w) = suggestCalls w ∧
  nextCall (handle e w) = nextCall w ∧
  searchParams (view (handle e w)) = searchParams (view w) ∧
  resultPage (handle e w) = resultPage w ∧
  (page (view (handle e w)) = page (view w) ∨ page (view (handle e w)) = 1).
Proof.
  intros He. destruct e; try discriminate; cbn [handle].
  - repeat split; by left.
  - destruct (showFilters (view w) && bool_decide (c ∈ categories)); [|repeat split; by left].
    unfold clickCategory. destruct (categoryChecked (view w) c); repeat split; by right.
  - destruct (showFilters (view w) && bool_decide (c ∈ value <$> conditions));
      [|repeat split; by left].
    unfold clickCondition. destruct (conditionChecked (view w) c); repeat split; by right.
  - destruct (showFilters (view w)); repeat split; by left.
  - destruct (showFilters (view w)); repeat split; by left.
  - destruct (showFilters (view w) && bool_decide (c ∈ selectedCategories (view w)));
      [repeat split; by right | repeat split; by left].
  - destruct (showFilters (view w) && bool_decide (c ∈ selectedConditions (view w)));
      [repeat split; by right | repeat split; by left].
Qed.

(** X6. On page 1, an event that changes a filter, the price range or the sort
    order leaves the query, the page, the timers and the calls in flight as
    they are, and the displayed results and total with them: it schedules and
    sends nothing. *)
Theorem filter_change_on_first_page_is_silent (w : World) (e : Event) :
  rendered w → page (view w) = 1 → changesFilter e = true →
  engine (step e w) = engine w ∧ resultPage (step e w) = resultPage w.
Proof.
  intros [Hdp Hdeps] Hp He.
  destruct (handle_changesFilter e w He) as (Hd & Hed & Hs & Hc & _ & Hn & Hq & Hr & Hpg).
  assert (page (view (handle e w)) = page (view w)) as Hpage
    by (destruct Hpg; congruence).
  unfold step. rewrite render_id.
  - unfold engine, resultPage in *. rewrite Hd, Hed, Hs, Hc, Hn, Hq, Hpage. split; [done|].
    exact Hr.
  - split; rewrite ?Hd, ?Hed, ?Hq, ?Hpage; done.
Qed.

(** X7. From a page other than 1, clicking a category checkbox sets the page to
    1, which re-creates the debounced search and schedules the search of the
    current query for page 1, a full wait ahead; the click itself sends
    nothing. *)
Theorem filter_toggle_reschedules (w : World) (c : string) :
  rendered w → page (view w) ≠ 1 → showFilters (view w) = true → c ∈ categories →
  let w1 := step (CategoryCheckboxClick c) w in
  page (view w1) = 1 ∧
  debouncedSearch w1 =
    {| dpage := 1; dgen := S (dgen (debouncedSearch w));
       pending := Some (queryOf (view w), wait) |} ∧
  searchCalls w1 = searchCalls w.
Proof.
  intros [Hdp Hdeps] Hp Hshow Hc. cbn zeta. unfold step.
  rewrite render_view, render_searchCalls. cbn [handle].
  rewrite Hshow, bool_decide_eq_true_2 by done. cbn [andb].
  assert (page (view (clickCategory c w)) = 1 ∧
          debouncedSearch (clickCategory c w) = debouncedSearch w ∧
          effectDeps (clickCategory c w) = effectDeps w ∧
          searchCalls (clickCategory c w) = searchCalls w ∧
          queryOf (view (clickCategory c w)) = queryOf (view w)) as (H1 & H2 & H3 & H4 & H5)
    by (unfold clickCategory; destruct (categoryChecked (view w) c); done).
  split; [done|]. split; [|done].
  rewrite (render_page_changed _ (searchParams (view w)) (page (view w))).
  - by rewrite H1, H2, H5.
  - rewrite H1, H2. congruence.
  - by rewrite H2, H3.
Qed.

(** X8. A suggestion call that rejects, or whose reply carries an error, leaves
    the suggestions, the results, the total and the loading flag as they were,
    logs one console line, raises nothing unhandled and is no longer in
    flight. *)
Theorem failed_suggestion_is_contained (w : World) (call : nat) (r : Settled SuggestReply) :
  is_Some (suggestCalls w !! call) →
  suggestFailing r →
  let w' := step (SuggestSettled call r) w in
  suggestions (view w') = suggestions (view w) ∧
  unhandled w' = unhandled w ∧
  (∃ line, console w' = (console w ++ [line])%list) ∧
  suggestCalls w' = delete call (suggestCalls w) ∧
  resultPage w' = resultPage w ∧ loading (view w') = loading (view w).
Proof.
  intros [req Hreq] Hfail. cbn zeta. unfold step, resultPage.
  rewrite render_view, render_unhandled, render_console, render_suggestCalls.
  cbn [handle]. unfold suggestSettled. rewrite Hreq.
  destruct r as [[d [e|]]|e]; cbn in *.
  - repeat split. eexists. reflexivity.
  - destruct Hfail as [? [=]].
  - repeat split. eexists. reflexivity.
Qed.

Lemma step_suggestSettled_success w call rows :
  is_Some (suggestCalls w !! call) →
  let w' := step (SuggestSettled call (titlesReply rows)) w in
  suggestions (view w') = rows ∧ searchParams (view w') = searchParams (view w).
Proof.
  intros [req Hreq]. cbn zeta. unfold step. rewrite render_view. cbn [handle].
  unfold suggestSettled. rewrite Hreq. done.
Qed.

Lemma step_InputChange_suggest w v :
  ((2 ≤ lengthUtf16 v)%nat →
   suggestCalls (step (InputChange v) w) =
     <[nextCall w := suggestRequest v]> (suggestCalls w)) ∧
  ((lengthUtf16 v < 2)%nat →
   suggestions (view (step (InputChange v) w)) = [] ∧
   suggestCalls (step (InputChange v) w) = suggestCalls w) ∧
  searchParams (view (step (InputChange v) w)) = Some v.
Proof.
  unfold step. rewrite render_suggestCalls, render_view. cbn [handle].
  unfold onInputChange, loadSuggestionsBegin. rewrite loadSuggestions_guard.
  case_bool_decide; repeat split; (done || lia).
Qed.

(** X9. A suggestion reply is applied whatever was typed since it was asked
    for.  After a text of length 2 or more and then one of length below 2
    (lengths as the code tests them, in UTF-16 code units), the suggestions
    are empty; when the reply to the first text's call then arrives, its titles
    become the suggestions although the input holds the shorter text. *)
Theorem late_suggestions_are_shown (w : World) (v v' : string) (rows : list string) :
  (2 ≤ lengthUtf16 v)%nat → (lengthUtf16 v' < 2)%nat →
  let typed := step (InputChange v') (step (InputChange v) w) in
  suggestions (view typed) = [] ∧
  queryOf (view typed) = v' ∧
  let late := step (SuggestSettled (nextCall w) (titlesReply rows)) typed in
  suggestions (view late) = rows ∧ queryOf (view late) = v'.
Proof.
  intros Hv Hv'. cbn zeta.
  destruct (step_InputChange_suggest (step (InputChange v) w) v') as (_ & Hshort & Hq).
  destruct (Hshort Hv') as (Hnil & Hcalls').
  destruct (step_InputChange_suggest w v) as (Hlong & _ & _).
  unfold queryOf at 1. rewrite Hq. split; [done|]. split; [done|].
  destruct (step_suggestSettled_success (step (InputChange v') (step (InputChange v) w))
              (nextCall w) rows) as [Hs Hsp].
  { rewrite Hcalls', (Hlong Hv), lookup_insert_eq. eauto. }
  split; [done|]. unfold queryOf. by rewrite Hsp, Hq.
Qed.

(** X10. With two search calls in flight, the first reply to arrive, success or
    failure, sets [loading] to false while the other call is still in flight, so
    the result area no longer shows the spinner. *)
Theorem spinner_cleared_by_first_reply (w : World) (a b : nat) (r : Settled SearchReply) :
  a ≠ b →
  is_Some (searchCalls w !! a) → is_Some (searchCalls w !! b) →
  let w' := step (SearchSettled a r) w in
  loading (view w') = false ∧ searchCalls w' !! b = searchCalls w !! b ∧
  renderResults (view w') ≠ Spinner.
Proof.
  intros Hab [ra Ha] [rb Hb]. cbn zeta. unfold step.
  rewrite render_view, render_searchCalls. cbn [handle]. unfold searchSettled. rewrite Ha.
  assert (loading (view (runHandler (searchResume r)
            (withSearchCalls (delete a (searchCalls w)) (nextCall w) w))) = false ∧
          searchCalls (runHandler (searchResume r)
            (withSearchCalls (delete a (searchCalls w)) (nextCall w) w)) =
          delete a (searchCalls w)) as [Hl Hc]
    by (destruct r as [[d [e|] c]|e]; done).
  rewrite Hc, lookup_delete_ne by done. split; [done|]. split; [done|].
  unfold renderResults. rewrite Hl. case_bool_decide; discriminate.
Qed.

(** X11. From a page between 1 and the page count, a Previous or Next click
    leaves the total unchanged and the page between 1 and the page count, and
    moves the page by at most one. *)
Theorem pagination_stays_in_range (w : World) (e : Event) :
  e = PreviousClick ∨ e = NextClick →
  1 ≤ page (view w) ≤ pageCount (totalResults (view w)) →
  totalResults (view (step e w)) = totalResults (view w) ∧
  1 ≤ page (view (step e w)) ≤ pageCount (totalResults (view w)) ∧
  (page (view (step e w)) - page (view w) = -1 ∨
   page (view (step e w)) - page (view w) = 0 ∨
   page (view (step e w)) - page (view w) = 1).
Proof.
  intros He Hp. unfold step. rewrite render_view.
  destruct He as [-> | ->]; cbn [handle].
  - destruct (previousEnabled (view w)) eqn:E; [|repeat split; lia].
    apply previousEnabled_page in E. cbn. repeat split; lia.
  - destruct (nextEnabled (view w)) eqn:E; [|repeat split; lia].
    apply nextEnabled_page in E. cbn. repeat split; lia.
Qed.


(** * Properties of the item-creation page *)

Lemma filterIndex_above {A} (l : list A) : ∀ m n, (n < m)%nat →
  snd <$> filter (λ p, fst p ≠ n) (imap (λ j y, ((m + j)%nat, y)) l) = l.
Proof.
  induction l as [|x l IH]; intros m n Hn; [done|].
  cbn [imap]. rewrite filter_cons. cbn [fst]. rewrite decide_True by lia.
  cbn. f_equal.
  rewrite (imap_ext _ (λ j y, ((S m + j)%nat, y))) by (intros; cbn; f_equal; lia).
  apply IH. lia.
Qed.

Lemma filterIndex_shift {A} (l : list A) : ∀ k i,
  snd <$> filter (λ p, fst p ≠ (k + i)%nat) (imap (λ j x, ((k + j)%nat, x)) l) = delete i l.
Proof.
  induction l as [|x l IH]; intros k i; [by destruct i|].
  cbn [imap]. rewrite filter_cons. cbn [fst].
  rewrite (imap_ext _ (λ j y, ((S k + j)%nat, y))) by (intros; cbn; f_equal; lia).
  destruct i as [|i].
  - rewrite decide_False by lia. cbn [delete list_delete].
    apply filterIndex_above. lia.
  - rewrite decide_True by lia. cbn. f_equal.
    replace (k + S i)%nat with (S k + i)%nat by lia. apply IH.
Qed.

(** [filter((_, i) => i !== index)] removes the element at [index]. *)
Lemma filterIndex_delete {A} (index : nat) (l : list A) :
  CreateItem.filterIndex index l = delete index l.
Proof.
  unfold CreateItem.filterIndex.
  rewrite (imap_ext _ (λ j y, ((0 + j)%nat, y))) by done.
  apply (filterIndex_shift l 0 index).
Qed.


Section CreateItemFacts.
Import CreateItem.
Variable publicUrl : string → string → string.

Lemma requestAll_exec rs s :
  requestAll rs s =
  (Page.Returned tt,
   {| loading := loading s; error := error s; photoPreview := photoPreview s;
      formData := formData s; requests := (requests s ++ rs)%list;
      navigations := navigations s; console := console s |}).
Proof.
  revert s. induction rs as [|r rs IH]; intros s.
  - cbn. rewrite app_nil_r. by destruct s.
  - cbn. unfold Page.bind, request, Page.modify. rewrite IH. cbn.
    rewrite <- app_assoc. reflexivity.
Qed.

(** What a submit leaves behind, case by case. *)
Lemma handleSubmit_exec form ans s :
  let s' := Page.exec (handleSubmit publicUrl form ans) s in
  Page.threw (handleSubmit publicUrl form ans) s = false ∧
  loading s' = false ∧ formData s' = formData s ∧ photoPreview s' = photoPreview s ∧
  match getUserAnswer ans with
  | Page.Rejected reason =>
      requests s' = (requests s ++ [GetUser])%list ∧ navigations s' = navigations s ∧
      error s' = Some (Page.messageOr "Failed to create listing" reason)
  | Page.Fulfilled None =>
      requests s' = (requests s ++ [GetUser])%list ∧ navigations s' = navigations s ∧
      error s' = Some "Please sign in to create a listing"
  | Page.Fulfilled (Some user) =>
      match Page.promiseAll (imap (uploadOutcome publicUrl user ans) (photos form)) with
      | Page.Thrown e =>
          requests s' =
            (requests s ++ GetUser :: uploadRequests user ans (photos form))%list ∧
          navigations s' = navigations s ∧
          error s' = Some (Page.messageOr "Failed to create listing" e)
      | Page.Returned photoUrls =>
          requests s' =
            (requests s ++ GetUser :: uploadRequests user ans (photos form) ++
               [Insert "announcements" (announcementRow form user photoUrls)])%list ∧
          match insertAnswer ans with
          | Page.Rejected reason =>
              navigations s' = navigations s ∧
              error s' = Some (Page.messageOr "Failed to create listing" reason)
          | Page.Fulfilled reply =>
              match insertError reply with
              | Some e =>
                  navigations s' = navigations s ∧
                  error s' = Some (Page.messageOr "Failed to create listing" e)
              | None =>
                  navigations s' = (navigations s ++ ["/dashboard"])%list ∧
                  error s' = None
              end
          end
      end
  end.
Proof.
  cbn zeta. unfold Page.exec, Page.threw, handleSubmit.
  unfold Page.tryFinally, Page.tryCatch, Page.bind, Page.await.
  cbn -[requestAll Page.promiseAll imap uploadRequests].
  destruct (getUserAnswer ans) as [[user|]|reason];
    cbn -[requestAll Page.promiseAll imap uploadRequests]; try done.
  rewrite requestAll_exec. cbn -[Page.promiseAll imap uploadRequests].
  destruct (Page.promiseAll (imap (uploadOutcome publicUrl user ans) (photos form)))
    as [photoUrls|e]; cbn -[imap uploadRequests].
  - destruct (insertAnswer ans) as [[[e|]]|reason]; cbn -[imap uploadRequests];
      rewrite <- ?app_assoc; cbn -[imap uploadRequests]; rewrite <- ?app_assoc; done.
  - rewrite <- ?app_assoc. done.
Qed.


Lemma firstRejection_None {A} (l : list (nat * Page.Outcome A)) :
  Page.firstRejection l = None ↔ Forall (λ p, ∃ a, snd p = Page.Returned a) l.
Proof.
  induction l as [|[t [a|e]] l IH]; cbn.
  - split; [constructor | done].
  - rewrite IH. split.
    + intros H. constructor; [by exists a | done].
    + intros H. by inversion H.
  - split.
    + destruct (Page.firstRejection l) as [[t' e']|]; [case_match|];
        intros Hnone; discriminate Hnone.
    + intros H. inversion H as [|? ? [a Ha] ?]. discriminate.
Qed.

Lemma values_all_returned {A B} (f : nat → B → nat * Page.Outcome A) (g : nat → B → A)
    (l : list B) :
  (∀ i x, l !! i = Some x → snd (f i x) = Page.Returned (g i x)) →
  Page.values (imap f l) = imap g l.
Proof.
  revert f g. induction l as [|x l IH]; intros f g H; [done|].
  cbn [imap Page.values]. pose proof (H 0%nat x eq_refl) as H0.
  destruct (f 0%nat x) as [t o]. cbn in H0. subst o. f_equal.
  apply IH. intros i y Hy. apply (H (S i) y Hy).
Qed.

(** All uploads fulfil without error exactly when [Promise.all] fulfils, and
    then with the public URLs in the order of the photos. *)
Lemma promiseAll_uploads user ans (l : list File) :
  (∀ i photo, l !! i = Some photo → uploadOk ans i = true) →
  Page.promiseAll (imap (uploadOutcome publicUrl user ans) l) =
  Page.Returned (imap (λ i photo, publicUrl "item-photos" (filePath user ans i photo)) l).
Proof.
  intros Hok.
  assert (∀ i photo, l !! i = Some photo →
            snd (uploadOutcome publicUrl user ans i photo) =
            Page.Returned (publicUrl "item-photos" (filePath user ans i photo))) as Hret.
  { intros i photo Hi. specialize (Hok i photo Hi). unfold uploadOk in Hok.
    unfold uploadOutcome. cbn. destruct (snd (uploadAnswer ans i)) as [[[e|]]|]; done. }
  unfold Page.promiseAll.
  destruct (Page.firstRejection (imap (uploadOutcome publicUrl user ans) l)) as [[t e]|] eqn:E.
  - assert (Page.firstRejection (imap (uploadOutcome publicUrl user ans) l) = None) as E'.
    { apply firstRejection_None, Forall_lookup. intros i p Hp.
      rewrite list_lookup_imap in Hp.
      destruct (l !! i) as [photo|] eqn:Hi; [|done]. cbn in Hp. injection Hp as <-.
      eexists. by apply Hret. }
    congruence.
  - f_equal. by apply values_all_returned.
Qed.

Lemma promiseAll_failed_upload user ans (l : list File) i photo :
  l !! i = Some photo → uploadOk ans i = false →
  ∃ e, Page.promiseAll (imap (uploadOutcome publicUrl user ans) l) = Page.Thrown e.
Proof.
  intros Hi Hbad. unfold Page.promiseAll.
  destruct (Page.firstRejection (imap (uploadOutcome publicUrl user ans) l)) as [[t e]|] eqn:E;
    [by exists e|].
  apply firstRejection_None in E. rewrite Forall_lookup in E.
  destruct (E i (uploadOutcome publicUrl user ans i photo)) as [a Ha].
  { rewrite list_lookup_imap, Hi. done. }
  unfold uploadOutcome, uploadOk in *. cbn in Ha.
  destruct (snd (uploadAnswer ans i)) as [[[e|]]|]; done.
Qed.


Lemma filter_valid_Forall (l : list File) :
  Forall (λ file, validFile file = true) (filter (λ file, validFile file = true) l).
Proof. apply Forall_forall. intros x Hx. by apply list_elem_of_filter in Hx as [? _]. Qed.

Lemma filter_valid_all (l : list File) :
  Forall (λ file, validFile file = true) l → filter (λ file, validFile file = true) l = l.
Proof.
  induction 1 as [|x l Hx Hl IH]; [done|].
  rewrite filter_cons, decide_True by done. by rewrite IH.
Qed.

Lemma filter_valid_length (l : list File) :
  length (filter (λ file, validFile file = true) l) = length l →
  Forall (λ file, validFile file = true) l.
Proof.
  induction l as [|x l IH]; [constructor|].
  rewrite filter_cons. case_decide as Hx; cbn.
  - intros [= H]. constructor; [done | by apply IH].
  - intros H. pose proof (length_filter (λ file, validFile file = true) l). lia.
Qed.

(** What [handlePhotoChange] leaves, for a batch that fits and one that does
    not. *)
Lemma handlePhotoChange_exec (s : State) (files : list File) :
  let s' := Page.exec (handlePhotoChange (formData s) (Some files)) s in
  loading s' = loading s ∧ photoPreview s' = photoPreview s ∧
  requests s' = requests s ∧ navigations s' = navigations s ∧
  availability (formData s') = availability (formData s) ∧
  if (5 <? length files + length (photos (formData s)))%nat
  then formData s' = formData s ∧ error s' = Some "Maximum 5 photos allowed"
  else
    photos (formData s') =
      take 5 (photos (formData s) ++ filter (λ file, validFile file = true) files) ∧
    error s' =
      if bool_decide (length (filter (λ file, validFile file = true) files) ≠ length files)
      then Some "Some files were skipped. Please ensure all files are images under 5MB."
      else error s.
Proof.
  cbn zeta. unfold Page.exec, handlePhotoChange.
  change (default [] (Some files)) with files. cbn zeta.
  destruct (5 <? length files + length (photos (formData s)))%nat; [by repeat split|].
  unfold Page.bind. case_bool_decide; by repeat split.
Qed.

Lemma step_photosTidy e s : photosTidy s → photosTidy (step publicUrl e s).
Proof.
  intros (H1 & H2 & H3). destruct e; cbn [step]; try done.
  - destruct (existsb _ _); [|done].
    destruct (handlePhotoChange_exec s (default [] target_files)) as (_ & Hp & _ & _ & _ & H).
    replace (handlePhotoChange (formData s) target_files) with
            (handlePhotoChange (formData s) (Some (default [] target_files)))
      by (by destruct target_files).
    unfold photosTidy. rewrite Hp. destruct (5 <? _)%nat.
    + destruct H as [-> _]. done.
    + destruct H as [-> _]. split; [rewrite length_take; lia|]. split; [done|].
      apply Forall_take, Forall_app. split; [done | apply filter_valid_Forall].
  - split; [done|]. split; [|done]. cbn. rewrite length_take. lia.
  - destruct (slotFilled s index); [|done]. unfold photosTidy. cbn -[filterIndex].
    rewrite !filterIndex_delete.
    assert (∀ {A} (l : list A), (length (delete index l) ≤ length l)%nat) as Hlen
      by (intros A l; rewrite delete_take_drop, length_app, length_take, length_drop; lia).
    split; [etrans; [apply Hlen | done]|].
    split; [etrans; [apply Hlen | done] | by apply Forall_delete].
  - destruct (handleSubmit_exec (formData s) ans s) as (_ & _ & Hf & Hp & _).
    unfold photosTidy. rewrite Hf, Hp. done.
Qed.

Lemma run_photosTidy es : ∀ s, photosTidy s → photosTidy (run publicUrl es s).
Proof.
  induction es as [|e es IH]; intros s Hs; [done|].
  apply (IH (step publicUrl e s)). by apply step_photosTidy.
Qed.

(** X14. Whatever the events on the item-creation page, the form holds at most
    five photos, every one of them an image of at most 5 MB, and at most five
    previews. *)
Theorem photos_stay_valid (es : list Event) :
  photosTidy (run publicUrl es initialState).
Proof. apply run_photosTidy. repeat split; cbn; (lia || constructor). Qed.


(** X15. A batch of chosen files.  When the batch and the photos of the form
    together exceed five, the form is left as it was and the error is
    "Maximum 5 photos allowed".  Otherwise the valid files of the batch are
    appended, in order; the error is left as it was when every file is valid
    and is the "Some files were skipped" message when one is not. *)
Theorem photo_batch_outcome (s : State) (files : list File) :
  let s' := Page.exec (handlePhotoChange (formData s) (Some files)) s in
  let valid := filter (λ file, validFile file = true) files in
  ((5 < length files + length (photos (formData s)))%nat →
     formData s' = formData s ∧ error s' = Some "Maximum 5 photos allowed") ∧
  ((length files + length (photos (formData s)) ≤ 5)%nat →
     photos (formData s') = (photos (formData s) ++ valid)%list ∧
     (Forall (λ file, validFile file = true) files → error s' = error s) ∧
     (¬ Forall (λ file, validFile file = true) files →
      error s' =
        Some "Some files were skipped. Please ensure all files are images under 5MB.")).
Proof.
  cbn zeta. destruct (handlePhotoChange_exec s files) as (_ & _ & _ & _ & _ & H).
  split; intros Hlen.
  - rewrite (proj2 (Nat.ltb_lt _ _) Hlen) in H. exact H.
  - rewrite (proj2 (Nat.ltb_ge _ _) Hlen) in H. destruct H as [Hp He].
    pose proof (length_filter (λ file, validFile file = true) files) as Hf.
    split; [|split].
    + rewrite Hp. apply take_ge. rewrite length_app. lia.
    + intros Hall. rewrite He, filter_valid_all by done.
      by rewrite bool_decide_eq_false_2 by (intros Hne; by apply Hne).
    + intros Hnot. rewrite He, bool_decide_eq_true_2; [done|].
      intros Heq. by apply Hnot, filter_valid_length.
Qed.

(** X16. [removePhoto index] deletes position [index] of the photos and of the
    previews: the positions below keep their photo, the positions from [index]
    on take the photo that followed, the length drops by one exactly when
    [index] was in range, and previews that were aligned with the photos stay
    aligned. *)
Theorem removePhoto_removes_slot (s : State) (index : nat) :
  let s' := Page.exec (removePhoto index) s in
  photos (formData s') = delete index (photos (formData s)) ∧
  photoPreview s' = delete index (photoPreview s) ∧
  length (photos (formData s')) =
    (length (photos (formData s)) -
     (if bool_decide (index < length (photos (formData s)))%nat then 1 else 0))%nat ∧
  (∀ j, (j < index)%nat → photos (formData s') !! j = photos (formData s) !! j) ∧
  (∀ j, (index ≤ j)%nat → photos (formData s') !! j = photos (formData s) !! S j) ∧
  ∀ (preview : File → option string),
    delete index (preview <$> photos (formData s)) = preview <$> photos (formData s').
Proof.
  cbn zeta.
  assert (photos (formData (Page.exec (removePhoto index) s)) =
            delete index (photos (formData s)) ∧
          photoPreview (Page.exec (removePhoto index) s) = delete index (photoPreview s))
    as [-> ->].
  { unfold Page.exec, removePhoto, Page.bind. cbn -[filterIndex].
    by rewrite !filterIndex_delete. }
  split; [done|]. split; [done|]. split; [|split; [|split]].
  - case_bool_decide as E.
    + rewrite length_delete by (by apply lookup_lt_is_Some). reflexivity.
    + rewrite delete_take_drop, take_ge, drop_ge, app_nil_r by lia. lia.
  - intros j Hj. by apply list_lookup_delete_lt.
  - intros j Hj. by apply list_lookup_delete_ge.
  - intros preview. by rewrite list_fmap_delete.
Qed.

(** X17. Whatever the remote side answers, [handleSubmit] throws nothing, ends
    with [loading] false and the form unchanged, and either navigates to
    /dashboard with no error shown, or shows an error and does not navigate. *)
Theorem submit_shows_error_or_navigates (form : CreateItemForm) (ans : Answers) (s : State) :
  let s' := Page.exec (handleSubmit publicUrl form ans) s in
  Page.threw (handleSubmit publicUrl form ans) s = false ∧
  loading s' = false ∧
  formData s' = formData s ∧
  ((error s' = None ∧ navigations s' = (navigations s ++ ["/dashboard"])%list) ∨
   (is_Some (error s') ∧ navigations s' = navigations s)).
Proof.
  cbn zeta. destruct (handleSubmit_exec form ans s) as (Ht & Hl & Hf & _ & H).
  repeat (split; [done|]).
  destruct (getUserAnswer ans) as [[user|]|reason].
  - destruct (Page.promiseAll _) as [urls|e].
    + destruct H as [_ H]. destruct (insertAnswer ans) as [[[e|]]|reason];
        destruct H as [-> ->]; eauto.
    + destruct H as (_ & -> & ->). eauto.
  - destruct H as (_ & -> & ->). eauto.
  - destruct H as (_ & -> & ->). eauto.
Qed.

(** X18. When the upload of one photo fails, every photo's upload has
    nevertheless been requested, no row is inserted, the page does not navigate
    and an error is shown. *)
Theorem submit_failed_upload (form : CreateItemForm) (ans : Answers) (s : State)
    (user : User) (i : nat) (photo : File) :
  getUserAnswer ans = Page.Fulfilled (Some user) →
  photos form !! i = Some photo →
  uploadOk ans i = false →
  let s' := Page.exec (handleSubmit publicUrl form ans) s in
  requests s' = (requests s ++ GetUser :: uploadRequests user ans (photos form))%list ∧
  length (uploadRequests user ans (photos form)) = length (photos form) ∧
  (∀ table row, Insert table row ∈ requests s' → Insert table row ∈ requests s) ∧
  navigations s' = navigations s ∧
  is_Some (error s').
Proof.
  intros Hu Hi Hbad. cbn zeta.
  destruct (handleSubmit_exec form ans s) as (_ & _ & _ & _ & H). rewrite Hu in H.
  destruct (promiseAll_failed_upload user ans (photos form) i photo Hi Hbad) as [e He].
  rewrite He in H. destruct H as (-> & -> & ->).
  split; [done|]. split; [unfold uploadRequests; by rewrite length_imap|].
  split; [|split; [done | eauto]].
  intros table row Hin. apply elem_of_app in Hin as [Hin|Hin]; [done|].
  apply elem_of_cons in Hin as [Hin|Hin]; [discriminate|].
  unfold uploadRequests in Hin. apply list_elem_of_lookup in Hin as [j Hj].
  rewrite list_lookup_imap in Hj. destruct (photos form !! j); discriminate.
Qed.

(** X19. When the user is signed in, every upload succeeds and the insert
    reports no error, the submit requests the user, one upload per photo in the
    order of the photos, and one insert into [announcements] of a row that holds
    the user's id and one public URL per photo, also in that order; it then
    navigates to /dashboard with no error and [loading] false. *)
Theorem submit_success (form : CreateItemForm) (ans : Answers) (s : State) (user : User) :
  getUserAnswer ans = Page.Fulfilled (Some user) →
  (∀ i photo, photos form !! i = Some photo → uploadOk ans i = true) →
  insertAnswer ans = Page.Fulfilled {| insertError := None |} →
  let s' := Page.exec (handleSubmit publicUrl form ans) s in
  let urls := imap (λ i photo, publicUrl "item-photos" (filePath user ans i photo))
                (photos form) in
  requests s' =
    (requests s ++ GetUser :: uploadRequests user ans (photos form) ++
       [Insert "announcements" (announcementRow form user urls)])%list ∧
  length urls = length (photos form) ∧
  row_user_id (announcementRow form user urls) = user_id user ∧
  navigations s' = (navigations s ++ ["/dashboard"])%list ∧
  error s' = None ∧ loading s' = false.
Proof.
  intros Hu Hok Hins. cbn zeta.
  destruct (handleSubmit_exec form ans s) as (_ & Hl & _ & _ & H). rewrite Hu in H.
  rewrite (promiseAll_uploads user ans (photos form) Hok), Hins in H. cbn in H.
  destruct H as (-> & -> & ->). rewrite length_imap. done.
Qed.

Lemma step_statusUntouched e s : statusUntouched s → statusUntouched (step publicUrl e s).
Proof.
  intros [Ha Hr]. destruct e; cbn [step]; try done.
  - destruct (existsb _ _); [|done].
    replace (handlePhotoChange (formData s) target_files) with
            (handlePhotoChange (formData s) (Some (default [] target_files)))
      by (by destruct target_files).
    destruct (handlePhotoChange_exec s (default [] target_files)) as (_ & _ & Hq & _ & Hav & _).
    split; [congruence|]. by rewrite Hq.
  - destruct (slotFilled s index); done.
  - destruct (handleSubmit_exec (formData s) ans s) as (_ & _ & Hf & _ & H).
    split; [by rewrite Hf|]. intros table row Hin.
    assert (Insert table row ∈ requests s ∨
            ∃ user urls, row = announcementRow (formData s) user urls) as [Hold|(u & l & ->)].
    { destruct (getUserAnswer ans) as [[user|]|reason].
      - destruct (Page.promiseAll _) as [urls|e].
        + destruct H as [Hq _]. rewrite Hq in Hin.
          apply elem_of_app in Hin as [Hin|Hin]; [by left|].
          apply elem_of_cons in Hin as [Hin|Hin]; [discriminate|].
          apply elem_of_app in Hin as [Hin|Hin].
          * unfold uploadRequests in Hin. apply list_elem_of_lookup in Hin as [j Hj].
            rewrite list_lookup_imap in Hj. destruct (photos (formData s) !! j); discriminate.
          * apply list_elem_of_singleton in Hin. injection Hin as _ ->. right. eauto.
        + destruct H as (Hq & _). rewrite Hq in Hin.
          apply elem_of_app in Hin as [Hin|Hin]; [by left|].
          apply elem_of_cons in Hin as [Hin|Hin]; [discriminate|].
          unfold uploadRequests in Hin. apply list_elem_of_lookup in Hin as [j Hj].
          rewrite list_lookup_imap in Hj. destruct (photos (formData s) !! j); discriminate.
      - destruct H as (Hq & _). rewrite Hq in Hin.
        apply elem_of_app in Hin as [Hin|Hin]; [by left|].
        apply list_elem_of_singleton in Hin. discriminate.
      - destruct H as (Hq & _). rewrite Hq in Hin.
        apply elem_of_app in Hin as [Hin|Hin]; [by left|].
        apply list_elem_of_singleton in Hin. discriminate. }
    + by apply (Hr table).
    + cbn. by rewrite Ha.
Qed.

Lemma run_statusUntouched es : ∀ s, statusUntouched s → statusUntouched (run publicUrl es s).
Proof.
  induction es as [|e es IH]; intros s Hs; [done|].
  apply (IH (step publicUrl e s)). by apply step_statusUntouched.
Qed.

(** X20. Whatever the events on the item-creation page, every row it hands to
    [insert] has the status "AVAILABLE" (the form has no control for the
    availability), a value the CHECK constraint on [announcements.status] in
    the migration does not admit. *)
Theorem inserted_status_fails_check (es : list Event) (table : string) (row : AnnouncementRow) :
  Insert table row ∈ requests (run publicUrl es initialState) →
  row_status row = "AVAILABLE" ∧ statusCheck (row_status row) = false.
Proof.
  intros Hin.
  destruct (run_statusUntouched es initialState) as [_ Hr].
  { split; [done|]. intros t r Hr. by apply elem_of_nil in Hr. }
  rewrite (Hr table row Hin). done.
Qed.

End CreateItemFacts.


(** * Properties of the registration page *)

Lemma split_cases (sep : Ascii.ascii) (s : string) :
  ∃ h t, Page.split sep s = h :: t.
Proof.
  destruct s as [|c s]; cbn; [eauto|].
  case_decide; [eauto|]. destruct (Page.split sep s); eauto.
Qed.

Lemma join_split (sep : Ascii.ascii) (s : string) : Page.join sep (Page.split sep s) = s.
Proof.
  induction s as [|c s IH]; [done|]. cbn [Page.split].
  destruct (split_cases sep s) as (h & t & E). rewrite E in *.
  case_decide as Hc.
  - subst c.
    change (Page.join sep (EmptyString :: h :: t)) with (String sep (Page.join sep (h :: t))).
    by rewrite IH.
  - destruct t as [|p t].
    + cbn in *. by rewrite IH.
    + change (Page.join sep (String c h :: p :: t))
        with (String c (Page.join sep (h :: p :: t))).
      by rewrite IH.
Qed.

Lemma split_no_sep (sep : Ascii.ascii) (s : string) :
  Forall (λ p, Page.hasChar sep p = false) (Page.split sep s).
Proof.
  induction s as [|c s IH]; [by repeat constructor|]. cbn [Page.split].
  destruct (split_cases sep s) as (h & t & E). rewrite E in *.
  apply Forall_cons in IH as [Hh Ht].
  case_decide as Hc.
  - constructor; [done|]. by constructor.
  - constructor; [|done]. cbn. rewrite bool_decide_eq_false_2 by done. done.
Qed.

Lemma split_without_sep (sep : Ascii.ascii) (s : string) :
  Page.hasChar sep s = false → Page.split sep s = [s].
Proof.
  induction s as [|c s IH]; [done|]. cbn. intros H.
  apply orb_false_iff in H as [Hc Hs]. apply bool_decide_eq_false in Hc.
  rewrite decide_False by done. by rewrite IH.
Qed.

(** X21. The user name written to the profile, [email.split('@')[0]], holds no
    [@], is the e-mail itself or what precedes an [@] in it, and for an e-mail
    [name@domain] whose [name] holds no [@] it is [name]. *)
Theorem username_is_local_part (email : string) :
  Page.hasChar "@"%char (Register.usernameOf email) = false ∧
  (email = Register.usernameOf email ∨
   ∃ rest, email = Register.usernameOf email ++ String "@"%char rest) ∧
  ∀ name domain,
    Page.hasChar "@"%char name = false →
    Register.usernameOf (name ++ String "@"%char domain) = name.
Proof.
  unfold Register.usernameOf.
  pose proof (join_split "@"%char email) as Hj.
  pose proof (split_no_sep "@"%char email) as Hn.
  destruct (split_cases "@"%char email) as (h & t & E). rewrite E in *. cbn [head default].
  apply Forall_cons in Hn as [Hh _].
  split; [done|]. split.
  - destruct t as [|p t]; cbn in Hj; [by left | right; eauto].
  - intros name domain. clear.
    induction name as [|c name IH]; intros Hname; cbn in *.
    + repeat case_decide; done.
    + apply orb_false_iff in Hname as [Hc Hs]. apply bool_decide_eq_false in Hc.
      change (String c name ++ String "@"%char domain)
        with (String c (name ++ String "@"%char domain)).
      cbn [Page.split]. rewrite decide_False by done. specialize (IH Hs).
      destruct (split_cases "@"%char (name ++ String "@"%char domain)) as (h & t & E).
      rewrite E in *. cbn in *. by subst h.
Qed.


Section RegisterFacts.
Import Register.
Variable encodeURIComponent : string → string.

Lemma handleRegister_exec form ans s :
  let s' := Page.exec (handleRegister encodeURIComponent form ans) s in
  let fallback := "An error occurred during registration" in
  let signUp := SignUp (email form) (password form) (fullName form)
                  (roleText (formRole form)) in
  Page.threw (handleRegister encodeURIComponent form ans) s = false ∧
  loading s' = false ∧
  match signUpAnswer ans with
  | Page.Rejected reason =>
      requests s' = (requests s ++ [signUp])%list ∧ navigations s' = navigations s ∧
      storeUser s' = storeUser s ∧ error s' = Some (Page.messageOr fallback reason)
  | Page.Fulfilled authData =>
      match authError authData, user authData with
      | Some e, _ =>
          requests s' = (requests s ++ [signUp])%list ∧ navigations s' = navigations s ∧
          storeUser s' = storeUser s ∧ error s' = Some (Page.messageOr fallback e)
      | None, None =>
          requests s' = (requests s ++ [signUp])%list ∧ navigations s' = navigations s ∧
          storeUser s' = storeUser s ∧ error s' = Some "No user data returned"
      | None, Some u =>
          let insert := InsertProfile (profileRow encodeURIComponent form u) in
          match insertAnswer ans with
          | Page.Rejected reason =>
              requests s' = (requests s ++ [signUp; insert])%list ∧
              navigations s' = navigations s ∧ storeUser s' = storeUser s ∧
              error s' = Some (Page.messageOr fallback reason)
          | Page.Fulfilled reply =>
              match profileError reply with
              | Some e =>
                  requests s' =
                    (requests s ++ [signUp; insert; DeleteUser (user_id u)])%list ∧
                  navigations s' = navigations s ∧ storeUser s' = storeUser s ∧
                  error s' =
                    Some (Page.messageOr fallback
                            match deleteAnswer ans with
                            | Page.Fulfilled _ => e
                            | Page.Rejected reason => reason
                            end)
              | None =>
                  requests s' = (requests s ++ [signUp; insert])%list ∧
                  navigations s' = (navigations s ++ ["/dashboard"])%list ∧
                  storeUser s' = Some u ∧ error s' = None
              end
          end
      end
  end.
Proof.
  cbn zeta. unfold Page.exec, Page.threw, handleRegister.
  unfold Page.tryFinally, Page.tryCatch, Page.bind, Page.await. cbn.
  destruct (signUpAnswer ans) as [[[u|] [e|]]|reason]; cbn; try done.
  destruct (insertAnswer ans) as [[[e|]]|reason]; cbn; rewrite <- ?app_assoc; try done.
  destruct (deleteAnswer ans) as [[]|reason]; cbn; rewrite <- ?app_assoc; done.
Qed.

(** X22. When sign-up returns a user and the profile insert reports an error,
    registration requests, in this order, the sign-up, the profile insert and
    the deletion of the user just created; the store's user and the route are
    left as they were, an error is shown and [loading] ends false. *)
Theorem register_compensates (form : State) (ans : Answers) (s : State)
    (u : User) (e : Page.Exn) :
  signUpAnswer ans = Page.Fulfilled {| user := Some u; authError := None |} →
  insertAnswer ans = Page.Fulfilled {| profileError := Some e |} →
  let s' := Page.exec (handleRegister encodeURIComponent form ans) s in
  requests s' =
    (requests s ++
       [SignUp (email form) (password form) (fullName form) (roleText (formRole form));
        InsertProfile (profileRow encodeURIComponent form u);
        DeleteUser (user_id u)])%list ∧
  storeUser s' = storeUser s ∧
  navigations s' = navigations s ∧
  is_Some (error s') ∧
  loading s' = false.
Proof.
  intros Hs Hi. cbn zeta.
  destruct (handleRegister_exec form ans s) as (_ & Hl & H).
  rewrite Hs in H. cbn in H. rewrite Hi in H. cbn in H.
  destruct H as (-> & -> & -> & ->). eauto.
Qed.

(** X23. Whatever the remote side answers, [handleRegister] throws nothing and
    ends with [loading] false, and either stores a user and navigates to
    /dashboard with no error and without asking for a deletion, or shows an
    error and leaves the store's user and the route as they were. *)
Theorem register_sets_user_only_on_success (form : State) (ans : Answers) (s : State) :
  let s' := Page.exec (handleRegister encodeURIComponent form ans) s in
  Page.threw (handleRegister encodeURIComponent form ans) s = false ∧
  loading s' = false ∧
  ((error s' = None ∧ is_Some (storeUser s') ∧
    navigations s' = (navigations s ++ ["/dashboard"])%list ∧
    ∀ id, DeleteUser id ∉ drop (length (requests s)) (requests s')) ∨
   (is_Some (error s') ∧ storeUser s' = storeUser s ∧ navigations s' = navigations s)).
Proof.
  cbn zeta. destruct (handleRegister_exec form ans s) as (Ht & Hl & H).
  split; [done|]. split; [done|].
  destruct (signUpAnswer ans) as [[[u|] [e|]]|reason]; cbn in H.
  - destruct H as (_ & -> & -> & ->); right; eauto.
  - destruct (insertAnswer ans) as [[[e|]]|reason]; cbn in H.
    + destruct H as (_ & -> & -> & ->); right; eauto.
    + destruct H as (-> & -> & -> & ->). left. repeat split; eauto.
      intros id. rewrite drop_app_length. intros Hin.
      apply elem_of_cons in Hin as [Hin|Hin]; [discriminate|].
      apply list_elem_of_singleton in Hin. discriminate.
    + destruct H as (_ & -> & -> & ->); right; eauto.
  - destruct H as (_ & -> & -> & ->); right; eauto.
  - destruct H as (_ & -> & -> & ->); right; eauto.
  - destruct H as (_ & -> & -> & ->); right; eauto.
Qed.

End RegisterFacts.


(** A [try] whose [catch] and [finally] clauses do not throw: the whole
    statement returns, and the state is the one its [finally] clause left. *)
Lemma handled_settles {S : Type} (body : Page.M (S := S) unit)
    (handler : Page.Exn → Page.M (S := S) unit) (cleanup : Page.M (S := S) unit) (s : S) :
  (∀ e s0, ∃ s', handler e s0 = (Page.Returned tt, s')) →
  (∀ s0, ∃ s', cleanup s0 = (Page.Returned tt, s')) →
  ∃ s1 s2,
    Page.tryFinally (Page.tryCatch body handler) cleanup s = (Page.Returned tt, s2) ∧
    cleanup s1 = (Page.Returned tt, s2).
Proof.
  intros Hh Hc. unfold Page.tryFinally, Page.tryCatch.
  destruct (body s) as [[[]|e] s1].
  - destruct (Hc s1) as [s2 E]. exists s1, s2. by rewrite E.
  - destruct (Hh e s1) as [s1' E1]. rewrite E1.
    destruct (Hc s1') as [s2 E]. exists s1', s2. by rewrite E.
Qed.

(** * Properties of the dashboard *)

Section DashboardFacts.
Import Dashboard.
Variable encodeURIComponent : string → string.
Variable email : Ambient.
Variable referenceErrorMessage : string.

Local Abbreviation load := (loadDashboardData encodeURIComponent email referenceErrorMessage).

Ltac run_load :=
  unfold Page.exec, Page.threw, loadDashboardData, usernameExpr;
  unfold Page.tryFinally, Page.tryCatch, Page.bind, Page.await, Page.throw, Page.ret;
  cbn.

(** X24. Whatever the remote side answers and whether or not the identifier
    [email] is bound, [loadDashboardData] throws nothing to its caller and ends
    with [loading] false. *)
Theorem dashboard_always_settles (ans : Answers) (s : State) :
  Page.threw (load ans) s = false ∧
  loading (Page.exec (load ans) s) = false.
Proof.
  unfold Page.threw, Page.exec, loadDashboardData.
  match goal with |- context [Page.tryFinally (Page.tryCatch ?body ?handler) ?cleanup s] =>
    destruct (handled_settles body handler cleanup s) as (s1 & s2 & -> & Hc);
      [intros e s0; eexists; reflexivity | intros s0; eexists; reflexivity |]
  end.
  cbn. injection Hc as <-. done.
Qed.

(** X25. Without a signed-in user the dashboard navigates to /login after
    the one [getUser] request, and reads no table; [loading] ends false and the
    error, the items and the profile are left as they were. *)
Theorem dashboard_without_session (ans : Answers) (s : State) :
  getUserAnswer ans = Page.Fulfilled None →
  let s' := Page.exec (load ans) s in
  navigations s' = (navigations s ++ ["/login"])%list ∧
  requests s' = (requests s ++ [GetUser])%list ∧
  loading s' = false ∧ error s' = error s ∧
  items s' = items s ∧ profile s' = profile s.
Proof.
  intros Hu. cbn zeta. run_load. rewrite Hu. done.
Qed.

(** X26. With a profile row found, its role alone decides the list that is
    read: after [getUser] and the profile query, the own announcements for
    DONOR, the wishlist for BENEFICIARY, the last 50 activity logs for MANAGER,
    and nothing for any other role; the profile shown is the row found. *)
Theorem dashboard_role_decides_table (ans : Answers) (s : State) (user : User) (r : string) :
  getUserAnswer ans = Page.Fulfilled (Some user) →
  profileAnswer ans =
    Page.Fulfilled {| profileData := Some {| role := r |}; profileError := None |} →
  let s' := Page.exec (load ans) s in
  requests s' =
    (requests s ++ [GetUser; SelectProfileRole (user_id user)] ++
       listRequest r (user_id user))%list ∧
  profile s' = Some {| role := r |} ∧
  navigations s' = navigations s ∧
  loading s' = false.
Proof.
  intros Hu Hp. cbn zeta. run_load. rewrite Hu. cbn. rewrite Hp. cbn.
  unfold listRequest.
  assert (∀ x : string, bool_decide (Some r = Some x) = bool_decide (r = x)) as Hb.
  { intros x. apply bool_decide_ext. split; [by intros [=] | by intros ->]. }
  assert (∀ (x : string) (d : Decision (@None string = Some x)),
            @bool_decide _ d = false) as Hn
    by (intros x d; by apply bool_decide_eq_false_2).
  rewrite !Hb, !Hn, !orb_false_r.
  destruct (bool_decide (r = "DONOR")); cbn.
  { destruct (announcementsAnswer ans) as [[d [e|]]|e]; cbn; rewrite <- ?app_assoc;
      repeat split; reflexivity. }
  destruct (bool_decide (r = "BENEFICIARY")); cbn.
  { destruct (wishlistAnswer ans) as [[d [e|]]|e]; cbn; rewrite <- ?app_assoc;
      repeat split; reflexivity. }
  destruct (bool_decide (r = "MANAGER")); cbn.
  { destruct (logsAnswer ans) as [[d [e|]]|e]; cbn; rewrite <- ?app_assoc;
      repeat split; reflexivity. }
  rewrite <- ?app_assoc. repeat split; reflexivity.
Qed.

End DashboardFacts.

(** X27. For a signed-in user without profile row, with no binding of [email]
    in scope, building the row to insert throws the reference error: no insert
    and no list query is sent, the error shown is the reference error's
    message, and the profile and the items are left as they were. *)
Theorem dashboard_missing_profile_fails (encodeURIComponent : string → string)
    (message : string) (ans : Dashboard.Answers) (s : Dashboard.State) (user : Dashboard.User) :
  Dashboard.getUserAnswer ans = Page.Fulfilled (Some user) →
  Dashboard.profileAnswer ans =
    Page.Fulfilled {| Dashboard.profileData := None; Dashboard.profileError := None |} →
  let s' :=
    Page.exec
      (Dashboard.loadDashboardData encodeURIComponent Dashboard.Undeclared message ans) s in
  Dashboard.requests s' =
    (Dashboard.requests s ++
       [Dashboard.GetUser; Dashboard.SelectProfileRole (Dashboard.user_id user)])%list ∧
  Dashboard.error s' = Some message ∧
  Dashboard.profile s' = Dashboard.profile s ∧
  Dashboard.items s' = Dashboard.items s ∧
  Dashboard.loading s' = false.
Proof.
  intros Hu Hp. cbn zeta.
  unfold Page.exec, Dashboard.loadDashboardData, Dashboard.usernameExpr.
  unfold Page.tryFinally, Page.tryCatch, Page.bind, Page.await, Page.throw, Page.ret. cbn.
  rewrite Hu. cbn. rewrite Hp. cbn. rewrite <- ?app_assoc. done.
Qed.


(** * Properties of the profile page and of the navigation bar *)

(** X28. Two clicks on the visibility toggle, each update succeeding before the
    next click, show the negated visibility after the first and the original
    profile after the second, and send two update requests. *)
Theorem visibility_toggle_twice (s : Profile.State) (p : Profile.Profile)
    (a1 a2 : Page.Settled Profile.UpdateReply) :
  Profile.loading s = false →
  Profile.profile s = Some p →
  Profile.updateFails a1 = false → Profile.updateFails a2 = false →
  let s1 := Profile.step (Profile.VisibilityClick a1) s in
  let s2 := Profile.step (Profile.VisibilityClick a2) s1 in
  Profile.visibility <$> Profile.profile s1 = Some (negb (Profile.visibility p)) ∧
  Profile.profile s2 = Some p ∧
  length (Profile.requests s2) = (length (Profile.requests s) + 2)%nat.
Proof.
  intros Hl Hp H1 H2. cbn zeta.
  destruct a1 as [[[e1|]]|r1]; try discriminate.
  destruct a2 as [[[e2|]]|r2]; try discriminate.
  destruct s as [u pr ld ed bl rq co]. cbn in Hl, Hp. subst ld pr.
  destruct p as [un fn av bi tg ro ci vi]. cbn.
  destruct vi; (split; [reflexivity|]); (split; [reflexivity|]);
    rewrite <- app_assoc, length_app; cbn; lia.
Qed.

(** X29. An update that fails, by rejection or by an error in the reply, leaves
    the profile on display as it was, whichever field was edited, and logs one
    console line; for the biography the character count is nevertheless set to
    the length of the text typed, in UTF-16 code units. *)
Theorem failed_update_keeps_profile (s : Profile.State) (v : string)
    (a : Page.Settled Profile.UpdateReply) :
  Profile.updateFails a = true →
  Profile.loading s = false →
  Profile.editing s = true →
  Profile.profile (Profile.step (Profile.FullNameChange v a) s) = Profile.profile s ∧
  Profile.profile (Profile.step (Profile.CityChange v a) s) = Profile.profile s ∧
  Profile.profile (Profile.step (Profile.VisibilityClick a) s) = Profile.profile s ∧
  let s' := Profile.step (Profile.BiographyChange v a) s in
  Profile.profile s' = Profile.profile s ∧
  Profile.bioLength s' = lengthUtf16 v ∧
  Profile.console s' = (Profile.console s ++ ["Error updating profile:"])%list.
Proof.
  intros Ha Hl He. cbn zeta. unfold Profile.step. rewrite Hl, He.
  destruct a as [[[x|]]|r]; try discriminate; done.
Qed.

(** X30. Signing out.  When the confirmation is declined nothing happens.  When
    it is accepted, one sign-out request is sent; if the call resolves, whatever
    it reports, the user is cleared and the page navigates to /; if the call
    rejects, the user and the route are kept and one console line is logged.
    The handler throws nothing. *)
Theorem sign_out_outcomes (confirmed : bool) (answer : Page.Settled Layout.SignOutReply)
    (s : Layout.State) :
  let s' := Page.exec (Layout.handleSignOut confirmed answer) s in
  Page.threw (Layout.handleSignOut confirmed answer) s = false ∧
  match confirmed, answer with
  | false, _ => s' = s
  | true, Page.Fulfilled _ =>
      Layout.user s' = None ∧
      Layout.navigations s' = (Layout.navigations s ++ ["/"])%list ∧
      Layout.requests s' = (Layout.requests s ++ [Layout.SignOut])%list ∧
      Layout.console s' = Layout.console s
  | true, Page.Rejected _ =>
      Layout.user s' = Layout.user s ∧
      Layout.navigations s' = Layout.navigations s ∧
      Layout.requests s' = (Layout.requests s ++ [Layout.SignOut])%list ∧
      Layout.console s' = (Layout.console s ++ ["Error signing out:"])%list
  end.
Proof.
  cbn zeta. destruct confirmed; [|done].
  destruct answer as [reply|reason]; done.
Qed.


(** * Concrete instances *)

Lemma typing_within_window_collapses_witness :
  searchCalls (elapse wait (step (InputChange "tab") (elapse 120 (step (InputChange "ta") lampLoaded))))
  = <[nextCall (step (InputChange "tab") (elapse 120 (step (InputChange "ta") lampLoaded)))
        := searchRequest 1 "tab"]> (searchCalls lampLoaded).
Proof.
  assert (rendered lampLoaded) as H1 by apply step_rendered.
  assert (superseded lampLoaded = []) as H2 by (vm_compute; reflexivity).
  assert (pending (debouncedSearch lampLoaded) = None) as H3 by (vm_compute; reflexivity).
  assert (searchParams (view lampLoaded) ≠ Some "ta") as H4 by (vm_compute; discriminate).
  assert ("ta" ≠ "tab") as H5 by discriminate.
  assert ("tab" ≠ EmptyString) as H6 by discriminate.
  assert (120 < wait)%nat as H7 by (unfold wait; lia).
  exact (proj1 (proj2 (typing_within_window_collapses lampLoaded "ta" "tab" 120
                         H1 H2 H3 H4 H5 H6 H7))).
Defined.

Lemma page_change_keeps_old_timer_witness :
  page (view (step NextClick lampSecondPage)) ≠ page (view lampSecondPage) ∧
  ∃ call, searchCalls (elapse 200 (step NextClick lampSecondPage)) !! call =
            Some (searchRequest (page (view lampSecondPage)) "lamp").
Proof.
  assert (rendered lampSecondPage) as H1.
  { unfold lampSecondPage.
    destruct (elapse_waiting 100 (step NextClick lampLoaded) "lamp" wait) as [H _];
      [apply step_rendered | vm_compute; reflexivity | unfold wait; lia | exact H]. }
  assert (pending (debouncedSearch lampSecondPage) = Some ("lamp", 200%nat)) as H2
    by (vm_compute; reflexivity).
  assert ("lamp" ≠ EmptyString) as H3 by discriminate.
  assert (nextEnabled (view lampSecondPage) = true) as H4 by (vm_compute; reflexivity).
  exact (page_change_keeps_old_timer lampSecondPage NextClick "lamp" 199 H1 H2 H3
           (or_introl (conj eq_refl H4))).
Defined.


Lemma filter_change_on_first_page_is_silent_witness :
  engine (step (SortChange oldest) lampFiltered) = engine lampFiltered.
Proof.
  assert (rendered lampFiltered) as H1 by apply step_rendered.
  assert (page (view lampFiltered) = 1) as H2 by (vm_compute; reflexivity).
  exact (proj1 (filter_change_on_first_page_is_silent lampFiltered (SortChange oldest)
                  H1 H2 eq_refl)).
Defined.

Lemma filter_toggle_reschedules_witness :
  page (view (step (CategoryCheckboxClick "Toys") lampSecondPageFilters)) = 1.
Proof.
  assert (rendered lampSecondPageFilters) as H1 by apply step_rendered.
  assert (page (view lampSecondPageFilters) ≠ 1) as H2 by (vm_compute; discriminate).
  assert (showFilters (view lampSecondPageFilters) = true) as H3 by (vm_compute; reflexivity).
  assert ("Toys" ∈ categories) as H4 by (apply list_elem_of_In; cbn; tauto).
  exact (proj1 (filter_toggle_reschedules lampSecondPageFilters "Toys" H1 H2 H3 H4)).
Defined.

Lemma failed_suggestion_is_contained_witness :
  suggestions (view (step (SuggestSettled 1 (Rejected "Failed to fetch")) lampTyping)) =
  suggestions (view lampTyping).
Proof.
  assert (is_Some (suggestCalls lampTyping !! 1%nat)) as H1 by (vm_compute; eauto).
  exact (proj1 (failed_suggestion_is_contained lampTyping 1 (Rejected "Failed to fetch")
                  H1 I)).
Defined.

Lemma late_suggestions_are_shown_witness :
  suggestions (view (step (InputChange "é") (step (InputChange "éc") lampLoaded))) = [] ∧
  suggestions
    (view (step (SuggestSettled (nextCall lampLoaded) (titlesReply ["Écharpe"]))
             (step (InputChange "é") (step (InputChange "éc") lampLoaded)))) = ["Écharpe"].
Proof.
  assert (2 ≤ lengthUtf16 "éc")%nat as H1 by (vm_compute; lia).
  assert (lengthUtf16 "é" < 2)%nat as H2 by (vm_compute; lia).
  pose proof (late_suggestions_are_shown lampLoaded "éc" "é" ["Écharpe"] H1 H2) as H.
  exact (conj (proj1 H) (proj1 (proj2 (proj2 H)))).
Defined.

Lemma spinner_cleared_by_first_reply_witness :
  loading (view (step (SearchSettled 1 page2Reply) lampRacing)) = false.
Proof.
  assert (1%nat ≠ 2%nat) as H0 by lia.
  assert (is_Some (searchCalls lampRacing !! 1%nat)) as H1 by (vm_compute; eauto).
  assert (is_Some (searchCalls lampRacing !! 2%nat)) as H2 by (vm_compute; eauto).
  exact (proj1 (spinner_cleared_by_first_reply lampRacing 1 2 page2Reply H0 H1 H2)).
Defined.

Lemma pagination_stays_in_range_witness :
  totalResults (view (step NextClick lampLoaded)) = totalResults (view lampLoaded).
Proof.
  assert (1 ≤ page (view lampLoaded) ≤ pageCount (totalResults (view lampLoaded))) as H1
    by (vm_compute; split; discriminate).
  exact (proj1 (pagination_stays_in_range lampLoaded NextClick (or_intror eq_refl) H1)).
Defined.

Lemma mount_sends_one_search_witness :
  searchCalls (elapse wait (mount (Some "lamp"))) = {[ 0%nat := searchRequest 1 "lamp" ]}.
Proof.
  assert ("lamp" ≠ EmptyString) as H1 by discriminate.
  exact (proj1 (proj2 (mount_sends_one_search "lamp" H1))).
Defined.

Lemma mount_without_query_sends_nothing_witness :
  searchCalls (elapse 1000 (mount None)) = ∅.
Proof.
  exact (proj1 (mount_without_query_sends_nothing None 1000 eq_refl)).
Defined.


Lemma photo_batch_outcome_witness :
  CreateItem.photos
    (CreateItem.formData
       (Page.exec (CreateItem.handlePhotoChange (CreateItem.formData onePhoto)
                     (Some [samplePhoto; sampleDocument])) onePhoto))
  = [samplePhoto; samplePhoto] ∧
  CreateItem.formData
    (Page.exec (CreateItem.handlePhotoChange (CreateItem.formData onePhoto)
                  (Some (replicate 5 samplePhoto))) onePhoto)
  = CreateItem.formData onePhoto.
Proof.
  assert (length [samplePhoto; sampleDocument] +
          length (CreateItem.photos (CreateItem.formData onePhoto)) ≤ 5)%nat as H1
    by (vm_compute; lia).
  assert (5 < length (replicate 5 samplePhoto) +
              length (CreateItem.photos (CreateItem.formData onePhoto)))%nat as H2
    by (vm_compute; lia).
  split.
  - rewrite (proj1 (proj2 (photo_batch_outcome onePhoto [samplePhoto; sampleDocument]) H1)).
    vm_compute. reflexivity.
  - exact (proj1 (proj1 (photo_batch_outcome onePhoto (replicate 5 samplePhoto)) H2)).
Defined.

Lemma submit_failed_upload_witness :
  CreateItem.navigations
    (Page.exec (CreateItem.handleSubmit samplePublicUrl (CreateItem.formData onePhoto)
                  failingUploadAnswers) onePhoto)
  = CreateItem.navigations onePhoto.
Proof.
  assert (CreateItem.photos (CreateItem.formData onePhoto) !! 0%nat = Some samplePhoto) as H1
    by (vm_compute; reflexivity).
  pose proof (submit_failed_upload samplePublicUrl (CreateItem.formData onePhoto)
                failingUploadAnswers onePhoto {| CreateItem.user_id := "u1" |} 0 samplePhoto
                eq_refl H1 eq_refl) as H.
  exact (proj1 (proj2 (proj2 (proj2 H)))).
Defined.

Lemma submit_success_witness :
  CreateItem.navigations
    (Page.exec (CreateItem.handleSubmit samplePublicUrl (CreateItem.formData onePhoto)
                  goodAnswers) onePhoto)
  = (CreateItem.navigations onePhoto ++ ["/dashboard"])%list.
Proof.
  pose proof (submit_success samplePublicUrl (CreateItem.formData onePhoto) goodAnswers
                onePhoto {| CreateItem.user_id := "u1" |} eq_refl
                (λ i photo _, eq_refl) eq_refl) as H.
  exact (proj1 (proj2 (proj2 (proj2 H)))).
Defined.

Lemma inserted_status_fails_check_witness :
  ∃ row,
    CreateItem.Insert "announcements" row ∈
      CreateItem.requests
        (CreateItem.run samplePublicUrl
           [CreateItem.PhotoChange (Some [samplePhoto]); CreateItem.Submit goodAnswers]
           CreateItem.initialState) ∧
    statusCheck (CreateItem.row_status row) = false.
Proof.
  eexists. 
  assert (∀ row, CreateItem.Insert "announcements" row ∈
      CreateItem.requests
        (CreateItem.run samplePublicUrl
           [CreateItem.PhotoChange (Some [samplePhoto]); CreateItem.Submit goodAnswers]
           CreateItem.initialState) →
      statusCheck (CreateItem.row_status row) = false) as Hall.
  { intros row Hin.
    exact (proj2 (inserted_status_fails_check samplePublicUrl _ _ _ Hin)). }
  split; [|apply Hall].
  all: vm_compute; apply list_elem_of_In; cbn; right; right; left; reflexivity.
Defined.

Lemma username_is_local_part_witness :
  Register.usernameOf "dana@example.org" = "dana".
Proof.
  assert (Page.hasChar "@"%char "dana" = false) as H1 by reflexivity.
  exact (proj2 (proj2 (username_is_local_part "dana@example.org")) "dana" "example.org" H1).
Defined.

Lemma register_compensates_witness :
  Register.storeUser
    (Page.exec (Register.handleRegister (λ s, s) registerForm rejectedProfile) registerForm)
  = Register.storeUser registerForm.
Proof.
  pose proof (register_compensates (λ s, s) registerForm rejectedProfile registerForm
                {| Register.user_id := "u1" |} (Page.PlainValue "row-level security")
                eq_refl eq_refl) as H.
  exact (proj1 (proj2 H)).
Defined.

Lemma dashboard_without_session_witness :
  Dashboard.navigations
    (Page.exec (Dashboard.loadDashboardData (λ s, s) Dashboard.Undeclared "email is not defined"
                  (dashboardAnswers None None)) Dashboard.initialState)
  = (Dashboard.navigations Dashboard.initialState ++ ["/login"])%list.
Proof.
  exact (proj1 (dashboard_without_session (λ s, s) Dashboard.Undeclared "email is not defined"
                  (dashboardAnswers None None) Dashboard.initialState eq_refl)).
Defined.

Lemma dashboard_role_decides_table_witness :
  Dashboard.requests
    (Page.exec (Dashboard.loadDashboardData (λ s, s) Dashboard.Undeclared "email is not defined"
                  (dashboardAnswers (Some dashboardUser) (Some {| Dashboard.role := "MANAGER" |})))
       Dashboard.initialState)
  = (Dashboard.requests Dashboard.initialState ++
     [Dashboard.GetUser; Dashboard.SelectProfileRole (Dashboard.user_id dashboardUser)] ++
     Dashboard.listRequest "MANAGER" (Dashboard.user_id dashboardUser))%list.
Proof.
  exact (proj1 (dashboard_role_decides_table (λ s, s) Dashboard.Undeclared
                  "email is not defined"
                  (dashboardAnswers (Some dashboardUser) (Some {| Dashboard.role := "MANAGER" |}))
                  Dashboard.initialState dashboardUser "MANAGER" eq_refl eq_refl)).
Defined.

Lemma dashboard_missing_profile_fails_witness :
  Dashboard.error
    (Page.exec (Dashboard.loadDashboardData (λ s, s) Dashboard.Undeclared "email is not defined"
                  (dashboardAnswers (Some dashboardUser) None)) Dashboard.initialState)
  = Some "email is not defined".
Proof.
  exact (proj1 (proj2 (dashboard_missing_profile_fails (λ s, s) "email is not defined"
                         (dashboardAnswers (Some dashboardUser) None) Dashboard.initialState
                         dashboardUser eq_refl eq_refl))).
Defined.

Lemma visibility_toggle_twice_witness :
  Profile.profile
    (Profile.step (Profile.VisibilityClick updateOk)
       (Profile.step (Profile.VisibilityClick updateOk) profileEditing))
  = Some sampleProfile.
Proof.
  exact (proj1 (proj2 (visibility_toggle_twice profileEditing sampleProfile updateOk updateOk
                         eq_refl eq_refl eq_refl eq_refl))).
Defined.

Lemma failed_update_keeps_profile_witness :
  Profile.profile (Profile.step (Profile.FullNameChange "Dan" updateRefused) profileEditing)
  = Profile.profile profileEditing ∧
  Profile.bioLength (Profile.step (Profile.BiographyChange "é" updateRefused) profileEditing)
  = 1%nat.
Proof.
  pose proof (failed_update_keeps_profile profileEditing "Dan" updateRefused
                eq_refl eq_refl eq_refl) as Hname.
  pose proof (failed_update_keeps_profile profileEditing "é" updateRefused
                eq_refl eq_refl eq_refl) as Hbio.
  exact (conj (proj1 Hname) (proj1 (proj2 (proj2 (proj2 (proj2 Hbio)))))).
Defined.
